(** * Mercury RPC core (mercury_core.c): shallow embedding and properties

    The engine of [src/mercury_core.c] is embedded function by function.
    Memory is a table of classes, contexts and handles indexed by address;
    every function is a computation in a state–error–log monad [M]: the
    state is the memory, an error is undefined behaviour (a dereference of
    an address that holds no object), and the log records what the engine
    does to the outside world (network calls, frees, callback calls).

    The collaborators whose sources are not part of this file (string
    hash, header codec, bulk layer, user callbacks) are interfaces, given
    as type classes; what the environment decides (whether an allocation
    or a network call succeeds, what fresh memory holds, whether a timed
    wait is signalled) is read from oracles kept in the memory.

    The model is sequential: the mutexes and the condition variable are
    not represented, and the completion queue of the network layer is
    passed to [HG_Progress] and returned by it, so that user callbacks,
    which are computations in [M], may call any entry point of the engine
    except [HG_Progress]. *)

From stdpp Require Import base option list gmap strings.
From Stdlib Require Import ZArith Lia.

(** ** Machine integers *)

(** [hg_atomic_int32_t] holds a signed 32-bit value, [na_tag_t] and
    [hg_id_t] unsigned ones; conversions and overflow wrap around. *)
Definition wrap_int32 (z : Z) : Z := ((z + 2 ^ 31) mod 2 ^ 32 - 2 ^ 31)%Z.
Definition wrap_uint32 (z : Z) : Z := (z mod 2 ^ 32)%Z.

Definition is_int32 (z : Z) : Prop := (- 2 ^ 31 <= z < 2 ^ 31)%Z.
Definition is_uint32 (z : Z) : Prop := (0 <= z < 2 ^ 32)%Z.

(** ** Status codes *)

Inductive hg_return_t :=
  | HG_SUCCESS | HG_TIMEOUT | HG_INVALID_PARAM | HG_SIZE_ERROR
  | HG_NOMEM_ERROR | HG_PROTOCOL_ERROR | HG_NO_MATCH | HG_CHECKSUM_ERROR
  | HG_NA_ERROR.

(** Modelled from the spec: the network layer's status type (declared in
    na.h) is a 32-bit code that distinguishes success and timeout from
    the other failures. *)
Inductive na_return_t := NA_SUCCESS | NA_TIMEOUT | NA_PROTOCOL_ERROR.

#[global] Instance hg_return_eq_dec : EqDecision hg_return_t.
Proof. solve_decision. Defined.
#[global] Instance na_return_eq_dec : EqDecision na_return_t.
Proof. solve_decision. Defined.

(** ** Addresses *)

(** Objects live at addresses; address 0 is the null pointer.  Function
    pointers, network addresses and operation ids are addresses too. *)
Definition ptr := nat.
Definition NULL : ptr := 0%nat.
Definition fnptr := nat.
Definition na_addr_t := nat.
Definition NA_ADDR_NULL : na_addr_t := 0%nat.
Definition NA_OP_ID_NULL : Z := 0%Z.
Definition HG_BULK_NULL : ptr := 0%nat.

Definition hg_id_t := Z.
Definition na_tag_t := Z.
Definition buffer := list Z.

Definition is_null (p : nat) : bool := Nat.eqb p 0.

(** ** Structures *)

(** Modelled from the spec: the part of a network class the engine
    reads: maximum tag, maximum expected-message size, the self-address
    predicate and the listening flag. *)
Record na_class_t := {
  na_max_tag : na_tag_t;
  na_max_expected_size : nat;
  na_addr_is_self : na_addr_t -> bool;
  na_is_listening : bool
}.

(** [struct hg_rpc_info] *)
Record hg_rpc_info := {
  rpc_cb : fnptr;
  rpc_data : ptr;
  rpc_free_callback : fnptr
}.

(** [struct hg_class]; [func_map] points to the hash table keyed by the
    32-bit id ([None] is the null pointer). *)
Record hg_class := {
  na_class : na_class_t;
  na_context : ptr;
  bulk_class : ptr;
  bulk_class_external : bool;
  func_map : option (gmap Z hg_rpc_info);
  request_tag : Z;
  request_max_tag : na_tag_t
}.

(** ** Tag allocator *)

(** [hg_atomic_cas32 (ptr, compare, swap)]: both operands are converted to
    the counter's signed type. *)
Definition hg_atomic_cas32 (cell compare swap : Z) : bool * Z :=
  if (cell =? wrap_int32 compare)%Z then (true, wrap_int32 swap)
  else (false, cell).

(** [hg_atomic_incr32] returns the incremented value. *)
Definition hg_atomic_incr32 (cell : Z) : Z := wrap_int32 (cell + 1).
Definition hg_atomic_decr32 (cell : Z) : Z := wrap_int32 (cell - 1).

Definition set_request_tag (v : Z) (c : hg_class) : hg_class :=
  {| na_class := na_class c; na_context := na_context c;
     bulk_class := bulk_class c;
     bulk_class_external := bulk_class_external c;
     func_map := func_map c; request_tag := v;
     request_max_tag := request_max_tag c |}.

(** [hg_gen_request_tag] on the class it points to: the tag and the
    class after the call. *)
Definition hg_gen_request_tag (c : hg_class) : na_tag_t * hg_class :=
  let '(swapped, cell) :=
    hg_atomic_cas32 (request_tag c) (request_max_tag c) 0 in
  if swapped then (0%Z, set_request_tag cell c)
  else
    let cell' := hg_atomic_incr32 (request_tag c) in
    (wrap_uint32 cell', set_request_tag cell' c).

(** [n] successive allocations. *)
Fixpoint gen_request_tags (n : nat) (c : hg_class)
  : list na_tag_t * hg_class :=
  match n with
  | O => ([], c)
  | S n' =>
      let '(t, c1) := hg_gen_request_tag c in
      let '(ts, c2) := gen_request_tags n' c1 in
      (t :: ts, c2)
  end.

(** The counter is in range when, read as a tag, it does not exceed the
    maximum tag. [HG_Init] establishes this (counter 0). *)
Definition tag_in_range (c : hg_class) : Prop :=
  is_int32 (request_tag c) /\ is_uint32 (request_max_tag c) /\
  (wrap_uint32 (request_tag c) <= request_max_tag c)%Z.


(** [struct hg_context].  The two mutexes and the condition variable guard
    the containers and hold no data of their own.  The completion queue is
    written head first: [hg_queue_push_head] adds in front and
    [hg_queue_pop_tail] takes the last element. *)
Record hg_context := {
  ctx_hg_class : ptr;
  bulk_context : ptr;
  completion_queue : list ptr;
  processing_list : list ptr
}.

(** [struct hg_handle]; a buffer field is [None] for a null pointer and
    holds the bytes otherwise. *)
Record hg_handle := {
  h_hg_class : ptr;
  h_context : ptr;
  h_callback : fnptr;
  h_arg : ptr;
  h_id : hg_id_t;
  h_cookie : Z;
  h_tag : na_tag_t;
  h_addr : na_addr_t;
  h_addr_mine : bool;
  h_in_buf : option buffer;
  h_in_buf_size : nat;
  h_out_buf : option buffer;
  h_out_buf_size : nat;
  h_na_send_op_id : Z;
  h_na_recv_op_id : Z;
  h_ref_count : Z
}.

(** [struct hg_cb_info], handed to a completion callback. *)
Record hg_cb_info := {
  cbi_arg : ptr;
  cbi_ret : hg_return_t;
  cbi_hg_class : ptr;
  cbi_context : ptr;
  cbi_handle : ptr
}.

(** Modelled from the spec: the request and response headers (declared
    in mercury_proc_header.h) with the fields the engine reads or writes:
    the RPC id, the cookie and the opaque bulk handle. *)
Record hg_header_request := {
  req_id : hg_id_t;
  req_cookie : Z;
  req_extra_in_handle : ptr
}.

Record hg_header_response := {
  resp_cookie : Z
}.

Definition set_resp_cookie (v : Z) (hdr : hg_header_response)
  : hg_header_response :=
  {| resp_cookie := v |}.

Inductive hg_proc_op_t := HG_ENCODE | HG_DECODE.

(** *** Field updates *)

Definition set_func_map (v : option (gmap Z hg_rpc_info)) (c : hg_class)
  : hg_class :=
  {| na_class := na_class c; na_context := na_context c;
     bulk_class := bulk_class c;
     bulk_class_external := bulk_class_external c;
     func_map := v; request_tag := request_tag c;
     request_max_tag := request_max_tag c |}.

Definition set_bulk_class (ext : bool) (v : ptr) (c : hg_class) : hg_class :=
  {| na_class := na_class c; na_context := na_context c;
     bulk_class := v; bulk_class_external := ext;
     func_map := func_map c; request_tag := request_tag c;
     request_max_tag := request_max_tag c |}.

Definition set_bulk_context (v : ptr) (c : hg_context) : hg_context :=
  {| ctx_hg_class := ctx_hg_class c; bulk_context := v;
     completion_queue := completion_queue c;
     processing_list := processing_list c |}.

Definition set_completion_queue (v : list ptr) (c : hg_context)
  : hg_context :=
  {| ctx_hg_class := ctx_hg_class c; bulk_context := bulk_context c;
     completion_queue := v; processing_list := processing_list c |}.

Definition set_processing_list (v : list ptr) (c : hg_context)
  : hg_context :=
  {| ctx_hg_class := ctx_hg_class c; bulk_context := bulk_context c;
     completion_queue := completion_queue c; processing_list := v |}.

Definition set_callback (cb : fnptr) (a : ptr) (h : hg_handle) : hg_handle :=
  {| h_hg_class := h_hg_class h; h_context := h_context h;
     h_callback := cb; h_arg := a; h_id := h_id h; h_cookie := h_cookie h;
     h_tag := h_tag h; h_addr := h_addr h; h_addr_mine := h_addr_mine h;
     h_in_buf := h_in_buf h; h_in_buf_size := h_in_buf_size h;
     h_out_buf := h_out_buf h; h_out_buf_size := h_out_buf_size h;
     h_na_send_op_id := h_na_send_op_id h;
     h_na_recv_op_id := h_na_recv_op_id h;
     h_ref_count := h_ref_count h |}.

Definition set_id (v : hg_id_t) (h : hg_handle) : hg_handle :=
  {| h_hg_class := h_hg_class h; h_context := h_context h;
     h_callback := h_callback h; h_arg := h_arg h; h_id := v;
     h_cookie := h_cookie h; h_tag := h_tag h; h_addr := h_addr h;
     h_addr_mine := h_addr_mine h; h_in_buf := h_in_buf h;
     h_in_buf_size := h_in_buf_size h; h_out_buf := h_out_buf h;
     h_out_buf_size := h_out_buf_size h;
     h_na_send_op_id := h_na_send_op_id h;
     h_na_recv_op_id := h_na_recv_op_id h;
     h_ref_count := h_ref_count h |}.

Definition set_cookie (v : Z) (h : hg_handle) : hg_handle :=
  {| h_hg_class := h_hg_class h; h_context := h_context h;
     h_callback := h_callback h; h_arg := h_arg h; h_id := h_id h;
     h_cookie := v; h_tag := h_tag h; h_addr := h_addr h;
     h_addr_mine := h_addr_mine h; h_in_buf := h_in_buf h;
     h_in_buf_size := h_in_buf_size h; h_out_buf := h_out_buf h;
     h_out_buf_size := h_out_buf_size h;
     h_na_send_op_id := h_na_send_op_id h;
     h_na_recv_op_id := h_na_recv_op_id h;
     h_ref_count := h_ref_count h |}.

Definition set_tag (v : na_tag_t) (h : hg_handle) : hg_handle :=
  {| h_hg_class := h_hg_class h; h_context := h_context h;
     h_callback := h_callback h; h_arg := h_arg h; h_id := h_id h;
     h_cookie := h_cookie h; h_tag := v; h_addr := h_addr h;
     h_addr_mine := h_addr_mine h; h_in_buf := h_in_buf h;
     h_in_buf_size := h_in_buf_size h; h_out_buf := h_out_buf h;
     h_out_buf_size := h_out_buf_size h;
     h_na_send_op_id := h_na_send_op_id h;
     h_na_recv_op_id := h_na_recv_op_id h;
     h_ref_count := h_ref_count h |}.

Definition set_addr (v : na_addr_t) (h : hg_handle) : hg_handle :=
  {| h_hg_class := h_hg_class h; h_context := h_context h;
     h_callback := h_callback h; h_arg := h_arg h; h_id := h_id h;
     h_cookie := h_cookie h; h_tag := h_tag h; h_addr := v;
     h_addr_mine := h_addr_mine h; h_in_buf := h_in_buf h;
     h_in_buf_size := h_in_buf_size h; h_out_buf := h_out_buf h;
     h_out_buf_size := h_out_buf_size h;
     h_na_send_op_id := h_na_send_op_id h;
     h_na_recv_op_id := h_na_recv_op_id h;
     h_ref_count := h_ref_count h |}.

Definition set_addr_mine (v : bool) (h : hg_handle) : hg_handle :=
  {| h_hg_class := h_hg_class h; h_context := h_context h;
     h_callback := h_callback h; h_arg := h_arg h; h_id := h_id h;
     h_cookie := h_cookie h; h_tag := h_tag h; h_addr := h_addr h;
     h_addr_mine := v; h_in_buf := h_in_buf h;
     h_in_buf_size := h_in_buf_size h; h_out_buf := h_out_buf h;
     h_out_buf_size := h_out_buf_size h;
     h_na_send_op_id := h_na_send_op_id h;
     h_na_recv_op_id := h_na_recv_op_id h;
     h_ref_count := h_ref_count h |}.

Definition set_in_buf (v : option buffer) (h : hg_handle) : hg_handle :=
  {| h_hg_class := h_hg_class h; h_context := h_context h;
     h_callback := h_callback h; h_arg := h_arg h; h_id := h_id h;
     h_cookie := h_cookie h; h_tag := h_tag h; h_addr := h_addr h;
     h_addr_mine := h_addr_mine h; h_in_buf := v;
     h_in_buf_size := h_in_buf_size h; h_out_buf := h_out_buf h;
     h_out_buf_size := h_out_buf_size h;
     h_na_send_op_id := h_na_send_op_id h;
     h_na_recv_op_id := h_na_recv_op_id h;
     h_ref_count := h_ref_count h |}.

Definition set_out_buf (v : option buffer) (h : hg_handle) : hg_handle :=
  {| h_hg_class := h_hg_class h; h_context := h_context h;
     h_callback := h_callback h; h_arg := h_arg h; h_id := h_id h;
     h_cookie := h_cookie h; h_tag := h_tag h; h_addr := h_addr h;
     h_addr_mine := h_addr_mine h; h_in_buf := h_in_buf h;
     h_in_buf_size := h_in_buf_size h; h_out_buf := v;
     h_out_buf_size := h_out_buf_size h;
     h_na_send_op_id := h_na_send_op_id h;
     h_na_recv_op_id := h_na_recv_op_id h;
     h_ref_count := h_ref_count h |}.

Definition set_na_send_op_id (v : Z) (h : hg_handle) : hg_handle :=
  {| h_hg_class := h_hg_class h; h_context := h_context h;
     h_callback := h_callback h; h_arg := h_arg h; h_id := h_id h;
     h_cookie := h_cookie h; h_tag := h_tag h; h_addr := h_addr h;
     h_addr_mine := h_addr_mine h; h_in_buf := h_in_buf h;
     h_in_buf_size := h_in_buf_size h; h_out_buf := h_out_buf h;
     h_out_buf_size := h_out_buf_size h; h_na_send_op_id := v;
     h_na_recv_op_id := h_na_recv_op_id h;
     h_ref_count := h_ref_count h |}.

Definition set_na_recv_op_id (v : Z) (h : hg_handle) : hg_handle :=
  {| h_hg_class := h_hg_class h; h_context := h_context h;
     h_callback := h_callback h; h_arg := h_arg h; h_id := h_id h;
     h_cookie := h_cookie h; h_tag := h_tag h; h_addr := h_addr h;
     h_addr_mine := h_addr_mine h; h_in_buf := h_in_buf h;
     h_in_buf_size := h_in_buf_size h; h_out_buf := h_out_buf h;
     h_out_buf_size := h_out_buf_size h;
     h_na_send_op_id := h_na_send_op_id h; h_na_recv_op_id := v;
     h_ref_count := h_ref_count h |}.

Definition set_ref_count (v : Z) (h : hg_handle) : hg_handle :=
  {| h_hg_class := h_hg_class h; h_context := h_context h;
     h_callback := h_callback h; h_arg := h_arg h; h_id := h_id h;
     h_cookie := h_cookie h; h_tag := h_tag h; h_addr := h_addr h;
     h_addr_mine := h_addr_mine h; h_in_buf := h_in_buf h;
     h_in_buf_size := h_in_buf_size h; h_out_buf := h_out_buf h;
     h_out_buf_size := h_out_buf_size h;
     h_na_send_op_id := h_na_send_op_id h;
     h_na_recv_op_id := h_na_recv_op_id h; h_ref_count := v |}.

(** ** Memory, events and the monad *)

(** The memory of the process.  [brk] is the last address handed out.
    The last four fields are the part of the environment the engine
    cannot control: whether the next allocations succeed (an exhausted
    list means they do), what an uninitialised integer holds, what the
    next network calls return (exhausted: success) and whether the next
    timed waits on the condition variable are signalled (exhausted: the
    wait times out). *)
Record Mem := {
  classes : gmap nat hg_class;
  contexts : gmap nat hg_context;
  handles : gmap nat hg_handle;
  brk : nat;
  mem_oracle : list bool;
  junk : Z;
  na_oracle : list na_return_t;
  wait_oracle : list bool
}.

Definition set_classes (v : gmap nat hg_class) (m : Mem) : Mem :=
  {| classes := v; contexts := contexts m; handles := handles m;
     brk := brk m; mem_oracle := mem_oracle m; junk := junk m;
     na_oracle := na_oracle m; wait_oracle := wait_oracle m |}.

Definition set_contexts (v : gmap nat hg_context) (m : Mem) : Mem :=
  {| classes := classes m; contexts := v; handles := handles m;
     brk := brk m; mem_oracle := mem_oracle m; junk := junk m;
     na_oracle := na_oracle m; wait_oracle := wait_oracle m |}.

Definition set_handles (v : gmap nat hg_handle) (m : Mem) : Mem :=
  {| classes := classes m; contexts := contexts m; handles := v;
     brk := brk m; mem_oracle := mem_oracle m; junk := junk m;
     na_oracle := na_oracle m; wait_oracle := wait_oracle m |}.

Definition set_brk (v : nat) (m : Mem) : Mem :=
  {| classes := classes m; contexts := contexts m; handles := handles m;
     brk := v; mem_oracle := mem_oracle m; junk := junk m;
     na_oracle := na_oracle m; wait_oracle := wait_oracle m |}.

Definition set_mem_oracle (v : list bool) (m : Mem) : Mem :=
  {| classes := classes m; contexts := contexts m; handles := handles m;
     brk := brk m; mem_oracle := v; junk := junk m;
     na_oracle := na_oracle m; wait_oracle := wait_oracle m |}.

Definition set_na_oracle (v : list na_return_t) (m : Mem) : Mem :=
  {| classes := classes m; contexts := contexts m; handles := handles m;
     brk := brk m; mem_oracle := mem_oracle m; junk := junk m;
     na_oracle := v; wait_oracle := wait_oracle m |}.

Definition set_wait_oracle (v : list bool) (m : Mem) : Mem :=
  {| classes := classes m; contexts := contexts m; handles := handles m;
     brk := brk m; mem_oracle := mem_oracle m; junk := junk m;
     na_oracle := na_oracle m; wait_oracle := v |}.

(** The four network callbacks of the engine, as the network layer
    stores them with a posted operation. *)
Inductive na_cb_t :=
  | CB_send_input | CB_recv_input | CB_send_output | CB_recv_output.

(** Calls into the network layer. *)
Inductive na_op :=
  | NA_Msg_recv_unexpected (cb : na_cb_t) (arg : ptr) (size : nat)
  | NA_Msg_recv_expected (cb : na_cb_t) (arg : ptr) (size : nat)
      (source : na_addr_t) (tag : na_tag_t)
  | NA_Msg_send_unexpected (cb : na_cb_t) (arg : ptr) (buf : option buffer)
      (size : nat) (dest : na_addr_t) (tag : na_tag_t)
  | NA_Msg_send_expected (cb : na_cb_t) (arg : ptr) (buf : option buffer)
      (size : nat) (dest : na_addr_t) (tag : na_tag_t)
  | NA_Addr_free (a : na_addr_t).

Inductive object :=
  | ObjHandle (p : ptr) | ObjInBuf (p : ptr) | ObjOutBuf (p : ptr)
  | ObjContext (p : ptr) | ObjClass (p : ptr)
  | ObjRpcId (id : hg_id_t) | ObjRpcInfo (id : hg_id_t).

(** What a run does that is visible outside the memory. *)
Inductive event :=
  | EvNa (op : na_op) (r : na_return_t)
  | EvFree (o : object)
  | EvRpcCb (fn : fnptr) (h : ptr)
  | EvCb (fn : fnptr) (info : hg_cb_info)
  | EvDataFree (fn : fnptr) (d : ptr).

Definition M (A : Type) : Type := Mem -> option (A * Mem * list event).

Definition ret {A} (a : A) : M A := fun m => Some (a, m, []).

Definition bind {A B} (c : M A) (k : A -> M B) : M B :=
  fun m =>
    match c m with
    | None => None
    | Some (a, m1, e1) =>
        match k a m1 with
        | None => None
        | Some (b, m2, e2) => Some (b, m2, e1 ++ e2)
        end
    end.

Declare Scope mem_scope.
Delimit Scope mem_scope with mem.
Notation "x <- c ;; k" := (bind c (fun x => k))
  (at level 100, c at next level, right associativity) : mem_scope.
Notation "c ;; k" := (bind c (fun _ => k))
  (at level 100, right associativity) : mem_scope.
#[local] Open Scope mem_scope.

(** Undefined behaviour. *)
Definition ub {A} : M A := fun _ => None.

Definition emit (e : event) : M unit := fun m => Some (tt, m, [e]).

Definition load_class (p : ptr) : M hg_class :=
  fun m => match classes m !! p with
           | Some c => Some (c, m, [])
           | None => None
           end.

Definition store_class (p : ptr) (c : hg_class) : M unit :=
  fun m => Some (tt, set_classes (<[p := c]> (classes m)) m, []).

Definition load_context (p : ptr) : M hg_context :=
  fun m => match contexts m !! p with
           | Some c => Some (c, m, [])
           | None => None
           end.

Definition store_context (p : ptr) (c : hg_context) : M unit :=
  fun m => Some (tt, set_contexts (<[p := c]> (contexts m)) m, []).

Definition load_handle (p : ptr) : M hg_handle :=
  fun m => match handles m !! p with
           | Some h => Some (h, m, [])
           | None => None
           end.

Definition store_handle (p : ptr) (h : hg_handle) : M unit :=
  fun m => Some (tt, set_handles (<[p := h]> (handles m)) m, []).

Definition modify_class (p : ptr) (f : hg_class -> hg_class) : M unit :=
  c <- load_class p ;; store_class p (f c).

Definition modify_context (p : ptr) (f : hg_context -> hg_context)
  : M unit :=
  c <- load_context p ;; store_context p (f c).

Definition modify_handle (p : ptr) (f : hg_handle -> hg_handle) : M unit :=
  h <- load_handle p ;; store_handle p (f h).

(** [free] of an object: its address holds nothing afterwards. *)
Definition free_class (p : ptr) : M unit :=
  fun m => match classes m !! p with
           | Some _ =>
               Some (tt, set_classes (delete p (classes m)) m,
                     [EvFree (ObjClass p)])
           | None => None
           end.

Definition free_context (p : ptr) : M unit :=
  fun m => match contexts m !! p with
           | Some _ =>
               Some (tt, set_contexts (delete p (contexts m)) m,
                     [EvFree (ObjContext p)])
           | None => None
           end.

Definition free_handle (p : ptr) : M unit :=
  fun m => match handles m !! p with
           | Some _ =>
               Some (tt, set_handles (delete p (handles m)) m,
                     [EvFree (ObjHandle p)])
           | None => None
           end.

(** Does the next allocation succeed? *)
Definition malloc : M bool :=
  fun m => match mem_oracle m with
           | [] => Some (true, m, [])
           | b :: rest => Some (b, set_mem_oracle rest m, [])
           end.

(** A fresh address for an allocation that succeeded. *)
Definition fresh : M ptr :=
  fun m => Some (S (brk m), set_brk (S (brk m)) m, []).

(** What a word of freshly allocated memory holds. *)
Definition uninit : M Z := fun m => Some (junk m, m, []).

(** [hg_thread_cond_timedwait]: [true] when signalled before the timeout. *)
Definition hg_thread_cond_timedwait : M bool :=
  fun m => match wait_oracle m with
           | [] => Some (false, m, [])
           | b :: rest => Some (b, set_wait_oracle rest m, [])
           end.

(** A buffer pointer is dereferenced. *)
Definition deref {A} (o : option A) : M A :=
  match o with
  | Some a => ret a
  | None => ub
  end.

Definition hg_proc_buf_alloc (size : nat) : buffer := replicate size 0%Z.

(** ** Collaborators *)

(** The string hash of mercury_hash_string.h. *)
Class HashString := hg_hash_string : string -> Z.

(** The header codec of mercury_proc_header.h: each [hg_proc_header_*]
    routine gets the buffer, its size, the header and the direction, and
    gives back a status, the buffer and the header. *)
Class HeaderCodec := {
  hg_proc_header_request_init : hg_id_t -> ptr -> hg_header_request;
  hg_proc_header_response_init : hg_header_response;
  hg_proc_header_request :
    buffer -> nat -> hg_header_request -> hg_proc_op_t ->
    hg_return_t * buffer * hg_header_request;
  hg_proc_header_response :
    buffer -> nat -> hg_header_response -> hg_proc_op_t ->
    hg_return_t * buffer * hg_header_response;
  hg_proc_header_request_verify : hg_header_request -> hg_return_t;
  hg_proc_header_response_verify : hg_header_response -> hg_return_t
}.

(** The bulk layer of mercury_bulk.h; a constructor returns the null
    pointer when it fails. *)
Class BulkLayer := {
  HG_Bulk_init : na_class_t -> ptr -> ptr;
  HG_Bulk_finalize : ptr -> hg_return_t;
  HG_Bulk_context_create : ptr -> ptr;
  HG_Bulk_context_destroy : ptr -> hg_return_t
}.

(** The code behind the function pointers the user hands to the engine:
    RPC callbacks ([hg_rpc_cb_t]), completion callbacks ([hg_cb_t]) and
    the free callbacks of registered data. *)
Class UserCode := {
  rpc_cb_sem : fnptr -> ptr -> M hg_return_t;
  cb_sem : fnptr -> hg_cb_info -> M hg_return_t;
  free_cb_sem : fnptr -> ptr -> M unit
}.

(** Modelled from the spec: what the network layer reports when an
    operation completes: the callback argument, the status and, for an
    unexpected receive, source address, tag and actual size. *)
Record na_cb_info := {
  nci_arg : ptr;
  nci_ret : na_return_t;
  nci_source : na_addr_t;
  nci_tag : na_tag_t;
  nci_actual_buf_size : nat
}.

(** Modelled from the spec: an entry of the network layer's completion
    queue: the callback posted with the operation, its [na_cb_info] and,
    for a receive, the message the network placed in the posted buffer. *)
Record na_completion := {
  nc_callback : na_cb_t;
  nc_info : na_cb_info;
  nc_data : option buffer
}.

Definition HG_MAX_PROCESSING_LIST_SIZE : nat := 1.

Definition hg_ok (r : hg_return_t) : bool :=
  match r with HG_SUCCESS => true | _ => false end.

Definition na_ok (r : na_return_t) : bool :=
  match r with NA_SUCCESS => true | _ => false end.

(** A call into the network layer is logged with its status. *)
Definition na_call (op : na_op) : M na_return_t :=
  fun m =>
    match na_oracle m with
    | [] => Some (NA_SUCCESS, m, [EvNa op NA_SUCCESS])
    | r :: rest => Some (r, set_na_oracle rest m, [EvNa op r])
    end.

(** A post of a network operation: on success the network layer writes a
    new operation id through the last argument. *)
Definition na_post (op : na_op) : M (na_return_t * option Z) :=
  r <- na_call op ;;
  if na_ok r then
    i <- fresh ;; ret (r, Some (Z.of_nat i))
  else ret (r, None).

(** ** The engine *)

Section Engine.
Context {hash : HashString} {codec : HeaderCodec} {bulk : BulkLayer}
  {user : UserCode}.

(** [hg_func_map_value_free] *)
Definition hg_func_map_value_free (info : hg_rpc_info) : M unit :=
  if negb (is_null (rpc_free_callback info)) then
    emit (EvDataFree (rpc_free_callback info) (rpc_data info)) ;;
    free_cb_sem (rpc_free_callback info) (rpc_data info)
  else ret tt.

(** [hg_destroy] *)
Definition hg_destroy (p : ptr) : M unit :=
  if is_null p then ret tt else
  h <- load_handle p ;;
  let n := hg_atomic_decr32 (h_ref_count h) in
  store_handle p (set_ref_count n h) ;;
  if negb (n =? 0)%Z then ret tt (* cannot free yet *) else
  (if negb (is_null (h_addr h)) && h_addr_mine h then
     _ <- load_class (h_hg_class h) ;;
     _ <- na_call (NA_Addr_free (h_addr h)) ;;
     ret tt
   else ret tt) ;;
  (* hg_proc_buf_free of each buffer that was allocated *)
  (match h_in_buf h with
   | Some _ => emit (EvFree (ObjInBuf p))
   | None => ret tt
   end) ;;
  (match h_out_buf h with
   | Some _ => emit (EvFree (ObjOutBuf p))
   | None => ret tt
   end) ;;
  free_handle p.

(** [hg_create].  The three fields that the source sets after the buffer
    allocations hold what the allocated memory held until then. *)
Definition hg_create (hg_class_p context_p : ptr) : M ptr :=
  c <- load_class hg_class_p ;;
  ok <- malloc ;;
  if negb ok then ret NULL else
  p <- fresh ;;
  j <- uninit ;;
  let size := na_max_expected_size (na_class c) in
  store_handle p
    {| h_hg_class := hg_class_p; h_context := context_p;
       h_callback := NULL; h_arg := NULL; h_id := 0%Z; h_cookie := 0%Z;
       h_tag := 0%Z; h_addr := NA_ADDR_NULL; h_addr_mine := false;
       h_in_buf := None; h_in_buf_size := size;
       h_out_buf := None; h_out_buf_size := size;
       h_na_send_op_id := j; h_na_recv_op_id := j;
       h_ref_count := wrap_int32 j |} ;;
  ok_in <- malloc ;;
  if negb ok_in then
    (* ret = HG_NOMEM_ERROR; goto done *)
    hg_destroy p ;; ret p
  else
  modify_handle p (set_in_buf (Some (hg_proc_buf_alloc size))) ;;
  ok_out <- malloc ;;
  if negb ok_out then
    hg_destroy p ;; ret p
  else
  modify_handle p (set_out_buf (Some (hg_proc_buf_alloc size))) ;;
  modify_handle p (set_na_send_op_id NA_OP_ID_NULL) ;;
  modify_handle p (set_na_recv_op_id NA_OP_ID_NULL) ;;
  modify_handle p (set_ref_count 1%Z) ;;
  ret p.

(** [hg_send_input_cb] *)
Definition hg_send_input_cb (info : na_cb_info) : M na_return_t :=
  if negb (na_ok (nci_ret info)) then ret NA_SUCCESS else ret NA_SUCCESS.

(** [hg_complete]: [hg_queue_push_head] allocates the queue entry. *)
Definition hg_complete (p : ptr) : M hg_return_t :=
  h <- load_handle p ;;
  ctx <- load_context (h_context h) ;;
  ok <- malloc ;;
  if negb ok then ret HG_NOMEM_ERROR else
  store_context (h_context h)
    (set_completion_queue (p :: completion_queue ctx) ctx) ;;
  ret HG_SUCCESS.

(** [hg_process] *)
Definition hg_process (p : ptr) : M hg_return_t :=
  h <- load_handle p ;;
  let request_header := hg_proc_header_request_init 0%Z HG_BULK_NULL in
  buf <- deref (h_in_buf h) ;;
  let '(r, buf', request_header) :=
    hg_proc_header_request buf (h_in_buf_size h) request_header HG_DECODE in
  modify_handle p (set_in_buf (Some buf')) ;;
  if negb (hg_ok r) then ret r else
  let r := hg_proc_header_request_verify request_header in
  if negb (hg_ok r) then ret r else
  modify_handle p (set_id (req_id request_header)) ;;
  modify_handle p (set_cookie (req_cookie request_header)) ;;
  c <- load_class (h_hg_class h) ;;
  fm <- deref (func_map c) ;;
  match fm !! req_id request_header with
  | None => ret HG_NO_MATCH
  | Some hg_rpc_info =>
      if is_null (rpc_cb hg_rpc_info) then ret HG_INVALID_PARAM else
      modify_handle p
        (fun h => set_ref_count (hg_atomic_incr32 (h_ref_count h)) h) ;;
      emit (EvRpcCb (rpc_cb hg_rpc_info) p) ;;
      rpc_cb_sem (rpc_cb hg_rpc_info) p
  end.

(** [hg_recv_input_cb].  [hg_list_remove_data] removes the entries equal
    to the handle and returns how many it removed. *)
Definition hg_recv_input_cb (info : na_cb_info) : M na_return_t :=
  let p := nci_arg info in
  if negb (na_ok (nci_ret info)) then ret NA_SUCCESS else
  modify_handle p (set_addr (nci_source info)) ;;
  modify_handle p (set_addr_mine true) ;;
  modify_handle p (set_tag (nci_tag info)) ;;
  h <- load_handle p ;;
  if negb (nci_actual_buf_size info =? h_in_buf_size h)%nat
  then ret NA_SUCCESS else
  ctx <- load_context (h_context h) ;;
  let removed := length (filter (fun q => q = p) (processing_list ctx)) in
  store_context (h_context h)
    (set_processing_list (filter (fun q => q <> p) (processing_list ctx))
       ctx) ;;
  if (removed =? 0)%nat then ret NA_SUCCESS else
  _ <- hg_process p ;;
  ret NA_SUCCESS.

(** [hg_send_output_cb] *)
Definition hg_send_output_cb (info : na_cb_info) : M na_return_t :=
  if negb (na_ok (nci_ret info)) then ret NA_SUCCESS else
  _ <- hg_complete (nci_arg info) ;;
  ret NA_SUCCESS.

(** [hg_recv_output_cb]; the local header is not initialised before it
    is decoded into. *)
Definition hg_recv_output_cb (info : na_cb_info) : M na_return_t :=
  let p := nci_arg info in
  if negb (na_ok (nci_ret info)) then ret NA_SUCCESS else
  h <- load_handle p ;;
  j <- uninit ;;
  let response_header := {| resp_cookie := j |} in
  buf <- deref (h_out_buf h) ;;
  let '(r, buf', response_header) :=
    hg_proc_header_response buf (h_out_buf_size h) response_header
      HG_DECODE in
  modify_handle p (set_out_buf (Some buf')) ;;
  if negb (hg_ok r) then ret NA_SUCCESS else
  if negb (hg_ok (hg_proc_header_response_verify response_header))
  then ret NA_SUCCESS else
  _ <- hg_complete p ;;
  ret NA_SUCCESS.

(** One round of the loop of [hg_listen]; [continue] is the rest of the
    loop, entered with the status so far. *)
Definition hg_listen_round (continue : hg_return_t -> M hg_return_t)
    (hg_class_p context_p : ptr) (result : hg_return_t) : M hg_return_t :=
  p <- hg_create hg_class_p context_p ;;
  if is_null p then ret HG_NOMEM_ERROR else
  ok <- malloc ;;
  result <-
    (if negb ok then ret HG_NOMEM_ERROR
     else
       modify_context context_p
         (fun c => set_processing_list (processing_list c ++ [p]) c) ;;
       ret result) ;;
  c <- load_class hg_class_p ;;
  h <- load_handle p ;;
  post <- na_post
            (NA_Msg_recv_unexpected CB_recv_input p (h_in_buf_size h)) ;;
  (match snd post with
   | Some i => modify_handle p (set_na_recv_op_id i)
   | None => ret tt
   end) ;;
  if negb (na_ok (fst post)) then ret HG_NA_ERROR else
  continue result.

(** [hg_listen].  The loop goes round again only when [hg_list_append]
    failed, which uses up one entry of the allocation oracle; [fuel]
    bounds the rounds and [hg_listen] gives it more than the oracle
    can use. *)
Fixpoint hg_listen_loop (fuel : nat) (hg_class_p context_p : ptr)
    (result : hg_return_t) : M hg_return_t :=
  ctx <- load_context context_p ;;
  if negb (length (processing_list ctx) <? HG_MAX_PROCESSING_LIST_SIZE)%nat
  then ret result else
  match fuel with
  | O => ub
  | S fuel' =>
      hg_listen_round (hg_listen_loop fuel' hg_class_p context_p)
        hg_class_p context_p result
  end.

Definition hg_listen (hg_class_p context_p : ptr) : M hg_return_t :=
  fun m =>
    hg_listen_loop (S (S (length (mem_oracle m)))) hg_class_p context_p
      HG_SUCCESS m.

(** Modelled from the spec: [NA_Trigger (context, 0, 1, &n)] takes the
    oldest entry of the network completion queue, if any, and runs its
    callback; a receive that completed has placed the message in the
    buffer posted for it. *)
Definition na_deliver (e : na_completion) : M unit :=
  match nc_data e with
  | None => ret tt
  | Some d =>
      match nc_callback e with
      | CB_recv_input =>
          modify_handle (nci_arg (nc_info e)) (set_in_buf (Some d))
      | CB_recv_output =>
          modify_handle (nci_arg (nc_info e)) (set_out_buf (Some d))
      | _ => ret tt
      end
  end.

Definition na_run_callback (e : na_completion) : M na_return_t :=
  match nc_callback e with
  | CB_send_input => hg_send_input_cb (nc_info e)
  | CB_recv_input => hg_recv_input_cb (nc_info e)
  | CB_send_output => hg_send_output_cb (nc_info e)
  | CB_recv_output => hg_recv_output_cb (nc_info e)
  end.

Definition NA_Trigger (cq : list na_completion)
  : M (na_return_t * nat * list na_completion) :=
  match cq with
  | [] => ret (NA_TIMEOUT, 0%nat, [])
  | e :: rest =>
      na_deliver e ;;
      _ <- na_run_callback e ;;
      ret (NA_SUCCESS, 1%nat, rest)
  end.

(** The loop [do NA_Trigger while (na_ret == NA_SUCCESS && n)] of
    [hg_progress]: one round for each entry of the queue and a last one
    that finds it empty. *)
Fixpoint hg_progress_trigger (fuel : nat) (cq : list na_completion)
  : M (list na_completion) :=
  t <- NA_Trigger cq ;;
  let '(na_ret, na_actual_count, cq') := t in
  if na_ok na_ret && negb (na_actual_count =? 0)%nat then
    match fuel with
    | O => ub
    | S fuel' => hg_progress_trigger fuel' cq'
    end
  else ret cq'.

(** [hg_progress].  [cq] is the network completion queue at the call and
    [net] what [NA_Progress] does if it is reached: its status and the
    operations it completes. *)
Definition hg_progress (net : na_return_t * list na_completion)
    (cq : list na_completion) (hg_class_p context_p : ptr) (timeout : Z)
  : M (hg_return_t * list na_completion) :=
  _ <- load_class hg_class_p ;;
  cq <- hg_progress_trigger (length cq) cq ;;
  ctx <- load_context context_p ;;
  let completion_queue_empty :=
    match completion_queue ctx with [] => true | _ => false end in
  if negb completion_queue_empty then ret (HG_SUCCESS, cq) else
  let '(na_ret, arrived) := net in
  match na_ret with
  | NA_SUCCESS => ret (HG_SUCCESS, cq ++ arrived)
  | NA_TIMEOUT => ret (HG_TIMEOUT, cq ++ arrived)
  | _ => ret (HG_NA_ERROR, cq ++ arrived)
  end.

(** [hg_hash_table_free]: every value goes through the registered free
    function. *)
Fixpoint hg_hash_table_free (l : list (Z * hg_rpc_info)) : M unit :=
  match l with
  | [] => ret tt
  | (_, info) :: rest =>
      hg_func_map_value_free info ;; hg_hash_table_free rest
  end.

(** [HG_Finalize] *)
Definition HG_Finalize (hg_class_p : ptr) : M hg_return_t :=
  if is_null hg_class_p then ret HG_SUCCESS else
  c <- load_class hg_class_p ;;
  let r :=
    if negb (bulk_class_external c) then HG_Bulk_finalize (bulk_class c)
    else HG_SUCCESS in
  if negb (hg_ok r) then ret r else
  fm <- deref (func_map c) ;;
  hg_hash_table_free (map_to_list fm) ;;
  free_class hg_class_p ;;
  ret HG_SUCCESS.

(** [HG_Init]; the network class is [None] for a null pointer. *)
Definition HG_Init (na_class_p : option na_class_t) (na_context_p : ptr)
    (hg_bulk_class : ptr) : M ptr :=
  match na_class_p with
  | None => ret NULL
  | Some na =>
      if is_null na_context_p then ret NULL else
      ok <- malloc ;;
      if negb ok then ret NULL else
      p <- fresh ;;
      j <- uninit ;;
      store_class p
        {| na_class := na; na_context := na_context_p; bulk_class := NULL;
           bulk_class_external := negb (j =? 0)%Z; func_map := None;
           request_tag := wrap_int32 0;
           request_max_tag := na_max_tag na |} ;;
      ok <- malloc ;;
      if negb ok then _ <- HG_Finalize p ;; ret p else
      modify_class p (set_func_map (Some ∅)) ;;
      if negb (is_null hg_bulk_class) then
        modify_class p (set_bulk_class true hg_bulk_class) ;; ret p
      else
        let b := HG_Bulk_init na na_context_p in
        modify_class p (set_bulk_class false b) ;;
        if is_null b then _ <- HG_Finalize p ;; ret p else ret p
  end.

(** [HG_Context_create].  When [hg_queue_new] fails, the exit path hands
    the null queue to [hg_queue_free], which dereferences it: the run is
    undefined from there. *)
Definition HG_Context_create (hg_class_p : ptr) : M ptr :=
  if is_null hg_class_p then ret NULL else
  ok <- malloc ;;
  if negb ok then ret NULL else
  p <- fresh ;;
  store_context p
    {| ctx_hg_class := hg_class_p; bulk_context := NULL;
       completion_queue := []; processing_list := [] |} ;;
  ok <- malloc ;;
  if negb ok then ub else
  c <- load_class hg_class_p ;;
  let b := HG_Bulk_context_create (bulk_class c) in
  modify_context p (set_bulk_context b) ;;
  if is_null b then free_context p ;; ret p else ret p.

(** [HG_Context_destroy] *)
Definition HG_Context_destroy (context_p : ptr) : M hg_return_t :=
  if is_null context_p then ret HG_SUCCESS else
  ctx <- load_context context_p ;;
  let r := HG_Bulk_context_destroy (bulk_context ctx) in
  if negb (hg_ok r) then ret r else
  modify_context context_p (set_bulk_context NULL) ;;
  match completion_queue ctx with
  | _ :: _ => ret HG_PROTOCOL_ERROR
  | [] => free_context context_p ;; ret HG_SUCCESS
  end.

(** Modelled from the spec: [hg_hash_table_insert] (mercury_hash_table.c)
    fails when it cannot allocate; a key already present keeps its place
    and gets the new value, the old one going through the registered
    free function. *)
Definition hg_hash_table_insert (hg_class_p : ptr) (key : Z)
    (value : hg_rpc_info) : M bool :=
  c <- load_class hg_class_p ;;
  fm <- deref (func_map c) ;;
  ok <- malloc ;;
  if negb ok then ret false else
  (match fm !! key with
   | Some old => hg_func_map_value_free old
   | None => ret tt
   end) ;;
  modify_class hg_class_p (set_func_map (Some (<[key := value]> fm))) ;;
  ret true.

(** [HG_Register_rpc].  The exit path frees the key and the value
    whenever the value to return is 0.  That is so on every failure, and
    also when the insertion has succeeded with an id equal to 0: the
    function then returns 0 and the table keeps the entry, whose key and
    value have been freed.  The model keeps the entry and logs the two
    frees; it does not follow the storage of a table entry further. *)
Definition HG_Register_rpc (hg_class_p : ptr) (func_name : string)
    (rpc_cb_p : fnptr) : M hg_id_t :=
  if is_null hg_class_p then ret 0%Z else
  ok <- malloc ;;
  if negb ok then ret 0%Z else
  let id := hg_hash_string func_name in
  ok <- malloc ;;
  if negb ok then emit (EvFree (ObjRpcId id)) ;; ret 0%Z else
  let hg_rpc_info :=
    {| rpc_cb := rpc_cb_p; rpc_data := NULL; rpc_free_callback := NULL |} in
  inserted <- hg_hash_table_insert hg_class_p id hg_rpc_info ;;
  if negb inserted || (id =? 0)%Z then
    emit (EvFree (ObjRpcId id)) ;; emit (EvFree (ObjRpcInfo id)) ;; ret 0%Z
  else ret id.

(** [HG_Create]; [handle] is the caller's variable behind the last
    argument: [None] for a null pointer, its content otherwise, and the
    second component of the result is the content after the call. *)
Definition HG_Create (hg_class_p context_p : ptr) (addr : na_addr_t)
    (id : hg_id_t) (handle : option ptr) : M (hg_return_t * option ptr) :=
  if is_null hg_class_p then ret (HG_INVALID_PARAM, handle) else
  if is_null context_p then ret (HG_INVALID_PARAM, handle) else
  ctx <- load_context context_p ;;
  if negb (ctx_hg_class ctx =? hg_class_p)%nat
  then ret (HG_INVALID_PARAM, handle) else
  if is_null addr then ret (HG_INVALID_PARAM, handle) else
  match handle with
  | None => ret (HG_INVALID_PARAM, handle)
  | Some _ =>
      p <- hg_create hg_class_p context_p ;;
      if is_null p then ret (HG_NOMEM_ERROR, handle) else
      modify_handle p (set_addr addr) ;;
      modify_handle p (set_id id) ;;
      modify_handle p
        (fun h => set_ref_count (hg_atomic_incr32 (h_ref_count h)) h) ;;
      ret (HG_SUCCESS, Some p)
  end.

(** [HG_Destroy] *)
Definition HG_Destroy (handle : ptr) : M hg_return_t :=
  if is_null handle then ret HG_INVALID_PARAM else
  hg_destroy handle ;; ret HG_SUCCESS.

(** The tag allocator on the class a pointer designates. *)
Definition gen_request_tag_at (hg_class_p : ptr) : M na_tag_t :=
  c <- load_class hg_class_p ;;
  let '(t, c') := hg_gen_request_tag c in
  store_class hg_class_p c' ;;
  ret t.

(** [HG_Forward_buf] *)
Definition HG_Forward_buf (handle : ptr) (callback : fnptr) (arg : ptr)
    (extra_in_handle : ptr) : M hg_return_t :=
  if is_null handle then ret HG_INVALID_PARAM else
  modify_handle handle (set_callback callback arg) ;;
  h <- load_handle handle ;;
  let request_header := hg_proc_header_request_init (h_id h) extra_in_handle in
  buf <- deref (h_in_buf h) ;;
  let '(r, buf', _) :=
    hg_proc_header_request buf (h_in_buf_size h) request_header HG_ENCODE in
  modify_handle handle (set_in_buf (Some buf')) ;;
  if negb (hg_ok r) then ret r else
  c <- load_class (h_hg_class h) ;;
  if na_addr_is_self (na_class c) (h_addr h) then
    hg_process handle
  else
    t <- gen_request_tag_at (h_hg_class h) ;;
    modify_handle handle (set_tag t) ;;
    post <- na_post
              (NA_Msg_recv_expected CB_recv_output handle (h_out_buf_size h)
                 (h_addr h) t) ;;
    (match snd post with
     | Some i => modify_handle handle (set_na_recv_op_id i)
     | None => ret tt
     end) ;;
    if negb (na_ok (fst post)) then ret HG_NA_ERROR else
    post <- na_post
              (NA_Msg_send_unexpected CB_send_input handle (Some buf')
                 (h_in_buf_size h) (h_addr h) t) ;;
    (match snd post with
     | Some i => modify_handle handle (set_na_send_op_id i)
     | None => ret tt
     end) ;;
    if negb (na_ok (fst post)) then ret HG_NA_ERROR else
    ret HG_SUCCESS.

(** [HG_Respond_buf] *)
Definition HG_Respond_buf (handle : ptr) (callback : fnptr) (arg : ptr)
  : M hg_return_t :=
  if is_null handle then ret HG_INVALID_PARAM else
  modify_handle handle (set_callback callback arg) ;;
  h <- load_handle handle ;;
  let response_header :=
    set_resp_cookie (h_cookie h) hg_proc_header_response_init in
  buf <- deref (h_out_buf h) ;;
  let '(r, buf', _) :=
    hg_proc_header_response buf (h_out_buf_size h) response_header
      HG_ENCODE in
  modify_handle handle (set_out_buf (Some buf')) ;;
  if negb (hg_ok r) then ret r else
  c <- load_class (h_hg_class h) ;;
  if na_addr_is_self (na_class c) (h_addr h) then
    hg_complete handle
  else
    post <- na_post
              (NA_Msg_send_expected CB_send_output handle (Some buf')
                 (h_out_buf_size h) (h_addr h) (h_tag h)) ;;
    (match snd post with
     | Some i => modify_handle handle (set_na_send_op_id i)
     | None => ret tt
     end) ;;
    if negb (na_ok (fst post)) then ret HG_NA_ERROR else
    ret HG_SUCCESS.

(** [HG_Progress] *)
Definition HG_Progress (net : na_return_t * list na_completion)
    (cq : list na_completion) (hg_class_p context_p : ptr) (timeout : Z)
  : M (hg_return_t * list na_completion) :=
  if is_null context_p then ret (HG_INVALID_PARAM, cq) else
  c <- load_class hg_class_p ;;
  (if na_is_listening (na_class c) then
     _ <- hg_listen hg_class_p context_p ;; ret tt
   else ret tt) ;;
  hg_progress net cq hg_class_p context_p timeout.

(** The inner loop of [HG_Trigger]: [while (completion_queue_empty)] with
    a flag that the body does not refresh, so that the loop is left only
    when a wait times out. *)
Fixpoint hg_trigger_wait (fuel : nat) : M unit :=
  signalled <- hg_thread_cond_timedwait ;;
  if negb signalled then ret tt else
  match fuel with
  | O => ub
  | S fuel' => hg_trigger_wait fuel'
  end.

(** How the loop of [HG_Trigger] is left: by its condition, or by a jump
    to [done] with a status. *)
Inductive trigger_exit :=
  | LoopEnd (count : nat)
  | GotoDone (r : hg_return_t) (count : nat).

Fixpoint hg_trigger_loop (remaining : nat) (context_p : ptr) (count : nat)
  : M trigger_exit :=
  match remaining with
  | O => ret (LoopEnd count)
  | S remaining' =>
      ctx <- load_context context_p ;;
      match completion_queue ctx with
      | [] =>
          (fun m => hg_trigger_wait (length (wait_oracle m)) m) ;;
          ret (GotoDone HG_TIMEOUT count)
      | _ :: _ =>
          let hg_handle := List.last (completion_queue ctx) NULL in
          store_context context_p
            (set_completion_queue (removelast (completion_queue ctx)) ctx) ;;
          if is_null hg_handle then ret (GotoDone HG_INVALID_PARAM count) else
          ok <- malloc ;;
          if negb ok then ret (GotoDone HG_NOMEM_ERROR count) else
          h <- load_handle hg_handle ;;
          hctx <- load_context (h_context h) ;;
          let hg_cb_info :=
            {| cbi_arg := h_arg h; cbi_ret := HG_SUCCESS;
               cbi_hg_class := ctx_hg_class hctx;
               cbi_context := h_context h; cbi_handle := hg_handle |} in
          (if negb (is_null (h_callback h)) then
             emit (EvCb (h_callback h) hg_cb_info) ;;
             _ <- cb_sem (h_callback h) hg_cb_info ;; ret tt
           else ret tt) ;;
          hg_destroy hg_handle ;;
          hg_trigger_loop remaining' context_p (S count)
      end
  end.

(** [HG_Trigger]; [actual_count] is the caller's variable behind the last
    argument ([None] for a null pointer) and the second component of the
    result is its content after the call. *)
Definition HG_Trigger (hg_class_p context_p : ptr) (timeout : Z)
    (max_count : nat) (actual_count : option nat)
  : M (hg_return_t * option nat) :=
  if is_null hg_class_p then ret (HG_INVALID_PARAM, actual_count) else
  if is_null context_p then ret (HG_INVALID_PARAM, actual_count) else
  e <- hg_trigger_loop max_count context_p 0%nat ;;
  match e with
  | LoopEnd count =>
      ret (HG_SUCCESS,
           match actual_count with
           | Some _ => Some count
           | None => None
           end)
  | GotoDone r _ => ret (r, actual_count)
  end.

End Engine.

(** ** Collaborators to run the engine with *)

(** A string hash to run the registry with: Bernstein's hash, wrapped to
    32 bits (mercury_hash_string.h is not among the sources). *)
Fixpoint djb2_from (acc : Z) (s : string) : Z :=
  match s with
  | EmptyString => acc
  | String c rest =>
      djb2_from (wrap_uint32 (acc * 33 + Z.of_N (Ascii.N_of_ascii c))) rest
  end.

Definition djb2 : HashString := djb2_from 5381.

(** A header codec to run the engine with (mercury_proc_header.c is not
    among the sources).  A request header takes the first three cells of
    the buffer (id, cookie, bulk handle), a response header the first
    one (cookie); a buffer too short for the header is a size error; a
    new request carries cookie 0, as the specification says the runtime
    sets it; verification accepts every header. *)
Definition cells_request (hdr : hg_header_request) : list Z :=
  [req_id hdr; req_cookie hdr; Z.of_nat (req_extra_in_handle hdr)].

Definition plain_request (buf : buffer) (size : nat)
    (hdr : hg_header_request) (op : hg_proc_op_t)
  : hg_return_t * buffer * hg_header_request :=
  if (size <? 3)%nat || (length buf <? 3)%nat then (HG_SIZE_ERROR, buf, hdr)
  else
    match op with
    | HG_ENCODE => (HG_SUCCESS, cells_request hdr ++ drop 3 buf, hdr)
    | HG_DECODE =>
        match buf with
        | i :: c :: b :: _ =>
            (HG_SUCCESS, buf,
             {| req_id := i; req_cookie := c;
                req_extra_in_handle := Z.to_nat b |})
        | _ => (HG_SIZE_ERROR, buf, hdr)
        end
    end.

Definition plain_response (buf : buffer) (size : nat)
    (hdr : hg_header_response) (op : hg_proc_op_t)
  : hg_return_t * buffer * hg_header_response :=
  if (size <? 1)%nat || (length buf <? 1)%nat then (HG_SIZE_ERROR, buf, hdr)
  else
    match op with
    | HG_ENCODE => (HG_SUCCESS, resp_cookie hdr :: drop 1 buf, hdr)
    | HG_DECODE =>
        match buf with
        | c :: _ => (HG_SUCCESS, buf, {| resp_cookie := c |})
        | _ => (HG_SIZE_ERROR, buf, hdr)
        end
    end.

Definition plain_codec : HeaderCodec :=
  {| hg_proc_header_request_init := fun id bulk =>
       {| req_id := id; req_cookie := 0%Z; req_extra_in_handle := bulk |};
     hg_proc_header_response_init := {| resp_cookie := 0%Z |};
     hg_proc_header_request := plain_request;
     hg_proc_header_response := plain_response;
     hg_proc_header_request_verify := fun _ => HG_SUCCESS;
     hg_proc_header_response_verify := fun _ => HG_SUCCESS |}.

(** A bulk layer whose calls all succeed (mercury_bulk.c is not among
    the sources). *)
Definition bulk_ok : BulkLayer :=
  {| HG_Bulk_init := fun _ _ => 1000%nat;
     HG_Bulk_finalize := fun _ => HG_SUCCESS;
     HG_Bulk_context_create := fun _ => 1001%nat;
     HG_Bulk_context_destroy := fun _ => HG_SUCCESS |}.

(** A bulk layer that fails to destroy a context, with a network error
    (it accepts the null pointer, which [HG_Context_create] hands it on
    its error path). *)
Definition bulk_busy : BulkLayer :=
  {| HG_Bulk_init := fun _ _ => 1000%nat;
     HG_Bulk_finalize := fun _ => HG_SUCCESS;
     HG_Bulk_context_create := fun _ => 1001%nat;
     HG_Bulk_context_destroy := fun p =>
       if is_null p then HG_SUCCESS else HG_NA_ERROR |}.

(** User code.  Function 1 is an RPC callback that responds at once,
    with completion callback 2, and drops its reference; function 4 is
    an RPC callback that only reports success; every completion callback
    returns at once. *)
Definition RESPOND_CB : fnptr := 1%nat.
Definition ON_RESPONDED : fnptr := 2%nat.
Definition ON_FORWARDED : fnptr := 3%nat.
Definition QUIET_CB : fnptr := 4%nat.

Definition user_code : UserCode :=
  {| rpc_cb_sem := fun fn handle =>
       if (fn =? RESPOND_CB)%nat then
         r <- HG_Respond_buf (codec := plain_codec) handle ON_RESPONDED NULL ;;
         _ <- HG_Destroy handle ;;
         ret r
       else ret HG_SUCCESS;
     cb_sem := fun _ _ => ret HG_SUCCESS;
     free_cb_sem := fun _ _ => ret tt |}.

(** A network class with maximum tag [max_tag], messages of 8 cells,
    whose own address is 7. *)
Definition na_demo (max_tag : Z) (listening : bool) : na_class_t :=
  {| na_max_tag := max_tag; na_max_expected_size := 8;
     na_addr_is_self := fun a => (a =? 7)%nat;
     na_is_listening := listening |}.

(** The memory of a process that has allocated nothing, in an
    environment where nothing fails and fresh memory holds [j]. *)
Definition mem_empty (j : Z) : Mem :=
  {| classes := ∅; contexts := ∅; handles := ∅; brk := 0;
     mem_oracle := []; junk := j; na_oracle := []; wait_oracle := [] |}.

(** ** Observations on a run *)

Definition result {A} (r : option (A * Mem * list event)) : option A :=
  match r with
  | Some (a, _, _) => Some a
  | None => None
  end.

Definition final {A} (r : option (A * Mem * list event)) : option Mem :=
  match r with
  | Some (_, m, _) => Some m
  | None => None
  end.

Definition events {A} (r : option (A * Mem * list event)) : list event :=
  match r with
  | Some (_, _, ev) => ev
  | None => []
  end.

Definition is_completion_cb (e : event) : bool :=
  match e with EvCb _ _ => true | _ => false end.

Definition is_rpc_cb (e : event) : bool :=
  match e with EvRpcCb _ _ => true | _ => false end.

(** The user functions a run calls, in order. *)
Definition callbacks (ev : list event) : list fnptr :=
  omap (fun e => match e with
                 | EvRpcCb fn _ => Some fn
                 | EvCb fn _ => Some fn
                 | _ => None
                 end) ev.

(** A computation that calls no completion callback, whatever the memory
    it starts from. *)
Definition quiet {A} (c : M A) : Prop :=
  forall m a m' ev,
    c m = Some (a, m', ev) -> Forall (fun e => is_completion_cb e = false) ev.

(** A computation that does not add to the allocation oracle. *)
Definition shrinks {A} (c : M A) : Prop :=
  forall m a m' ev,
    c m = Some (a, m', ev) ->
    (length (mem_oracle m') <= length (mem_oracle m))%nat.

(** The events [e] put in front of those of a run. *)
Definition log {A} (e : list event) (r : option (A * Mem * list event))
  : option (A * Mem * list event) :=
  match r with
  | Some (a, m, ev) => Some (a, m, e ++ ev)
  | None => None
  end.

(** A computation that leaves the component [f] of the memory as it
    finds it. *)
Definition keeps {X} (f : Mem -> X) {A} (c : M A) : Prop :=
  forall m a m' ev, c m = Some (a, m', ev) -> f m' = f m.

(** The callback registered for an id in the class at [cp]. *)
Definition registered_cb (cp : ptr) (id : hg_id_t) (m : Mem) : option fnptr :=
  c ← classes m !! cp;
  fm ← func_map c;
  info ← fm !! id;
  Some (rpc_cb info).

(** The reference count of the handle at [p], if it is allocated. *)
Definition ref_count_at (p : ptr) (m : Mem) : option Z :=
  h ← handles m !! p; Some (h_ref_count h).

Definition queue_at (xp : ptr) (m : Mem) : option (list ptr) :=
  c ← contexts m !! xp; Some (completion_queue c).

Definition is_free (e : event) : bool :=
  match e with EvFree _ => true | _ => false end.

(** The codec is bidirectional on the cookie: a response header that has
    been encoded into a buffer decodes, from that buffer, with the same
    cookie. *)
Definition response_cookie_survives {codec : HeaderCodec} : Prop :=
  forall buf size hdr buf' hdr1 hdr0,
    hg_proc_header_response buf size hdr HG_ENCODE = (HG_SUCCESS, buf', hdr1) ->
    exists buf'' hdr',
      hg_proc_header_response buf' size hdr0 HG_DECODE
        = (HG_SUCCESS, buf'', hdr') /\
      resp_cookie hdr' = resp_cookie hdr.

(** ** Scenarios *)

(** The memory a computation leaves. *)
Definition after {A} (c : M A) (m : Mem) : Mem :=
  match c m with
  | Some (_, m', _) => m'
  | None => m
  end.

(** Modelled from the spec: what a transport that loses nothing reports.
    The message of a send reaches the receive posted for it at the peer
    (handle [h] there), and the send itself completes. *)
Definition sent_message (ev : list event) : buffer :=
  List.last
    (omap (fun e => match e with
                    | EvNa (NA_Msg_send_unexpected _ _ (Some b) _ _ _) _ =>
                        Some b
                    | EvNa (NA_Msg_send_expected _ _ (Some b) _ _ _) _ =>
                        Some b
                    | _ => None
                    end) ev) [].

Definition request_arrival (h : ptr) (source : na_addr_t) (tag : na_tag_t)
    (msg : buffer) : na_completion :=
  {| nc_callback := CB_recv_input;
     nc_info := {| nci_arg := h; nci_ret := NA_SUCCESS;
                   nci_source := source; nci_tag := tag;
                   nci_actual_buf_size := length msg |};
     nc_data := Some msg |}.

Definition response_arrival (h : ptr) (msg : buffer) : na_completion :=
  {| nc_callback := CB_recv_output;
     nc_info := {| nci_arg := h; nci_ret := NA_SUCCESS;
                   nci_source := NA_ADDR_NULL; nci_tag := 0%Z;
                   nci_actual_buf_size := length msg |};
     nc_data := Some msg |}.

Definition send_done (cb : na_cb_t) (h : ptr) : na_completion :=
  {| nc_callback := cb;
     nc_info := {| nci_arg := h; nci_ret := NA_SUCCESS;
                   nci_source := NA_ADDR_NULL; nci_tag := 0%Z;
                   nci_actual_buf_size := 0 |};
     nc_data := None |}.

Section Scenarios.
#[local] Existing Instance djb2.
#[local] Existing Instance plain_codec.
#[local] Existing Instance user_code.
Context {bulk : BulkLayer}.

Definition SELF : na_addr_t := 7%nat.
Definition PEER : na_addr_t := 9%nat.

(** A process initialises the engine, creates a context and registers
    "echo": class at address 1, context at address 2. *)
Definition setup (listening : bool) : M (ptr * ptr * hg_id_t) :=
  c <- HG_Init (Some (na_demo 3 listening)) 5%nat NULL ;;
  x <- HG_Context_create c ;;
  i <- HG_Register_rpc c "echo" RESPOND_CB ;;
  ret (c, x, i).

(** It then creates a handle for "echo" at [dest] (address 3) ... *)
Definition create_echo (dest : na_addr_t) : M (hg_return_t * option ptr) :=
  s <- setup false ;;
  let '(c, x, i) := s in
  HG_Create c x dest i (Some NULL).

(** ... and forwards it with completion callback [ON_FORWARDED]. *)
Definition forward_echo (dest : na_addr_t) : M hg_return_t :=
  _ <- create_echo dest ;;
  HG_Forward_buf 3%nat ON_FORWARDED NULL HG_BULK_NULL.

(** Self-dispatch: forward to the own address, then one [HG_Progress]
    that finds the network idle and one [HG_Trigger] for at most two
    completions. *)
Definition self_exchange : M (hg_return_t * option nat) :=
  _ <- forward_echo SELF ;;
  _ <- HG_Progress (NA_TIMEOUT, []) [] 1%nat 2%nat 0%Z ;;
  HG_Trigger 1%nat 2%nat 0%Z 2 (Some 9%nat).

(** The target of an exchange over the network: the first [HG_Progress]
    posts the listen handle (address 3) and the request [msg] arrives;
    the second one runs the RPC callback, which responds, and the send
    of the response completes; the third one queues the handle and
    [HG_Trigger] delivers it. *)
Definition target_exchange (msg : buffer)
  : M (hg_return_t * option nat) :=
  _ <- setup true ;;
  p1 <- HG_Progress (NA_SUCCESS, [request_arrival 3%nat 8%nat 1%Z msg]) []
          1%nat 2%nat 0%Z ;;
  p2 <- HG_Progress (NA_SUCCESS, [send_done CB_send_output 3%nat]) (snd p1)
          1%nat 2%nat 0%Z ;;
  p3 <- HG_Progress (NA_TIMEOUT, []) (snd p2) 1%nat 2%nat 0%Z ;;
  HG_Trigger 1%nat 2%nat 0%Z 1 (Some 9%nat).

(** The target when the request [msg] has just arrived: the network
    completion queue the first [HG_Progress] leaves. *)
Definition target_listening (msg : buffer) : M (list na_completion) :=
  _ <- setup true ;;
  p1 <- HG_Progress (NA_SUCCESS, [request_arrival 3%nat 8%nat 1%Z msg]) []
          1%nat 2%nat 0%Z ;;
  ret (snd p1).

(** The target with a request for "echo" that carries cookie 77 in the
    input buffer of its listen handle. *)
Definition cookie_request : buffer :=
  [hg_hash_string "echo"; 77; 0; 0; 0; 0; 0; 0]%Z.

Definition target_received : Mem :=
  after (modify_handle 3%nat (set_in_buf (Some cookie_request)))
    (after (target_listening cookie_request) (mem_empty 0)).

(** The origin once the response [msg] has arrived: one [HG_Progress] and
    one [HG_Trigger] for at most [max_count] completions. *)
Definition origin_completion (msg : buffer) (max_count : nat)
  : M (hg_return_t * option nat) :=
  _ <- HG_Progress (NA_TIMEOUT, [])
         [send_done CB_send_input 3%nat; response_arrival 3%nat msg]
         1%nat 2%nat 0%Z ;;
  HG_Trigger 1%nat 2%nat 0%Z max_count (Some 9%nat).

(** The exchange over the network, seen from the origin: the request it
    sends is the one the target receives, and the response the target
    sends is the one the origin receives. *)
Definition network_request : buffer :=
  sent_message (events (forward_echo PEER (mem_empty 0))).

Definition network_response : buffer :=
  sent_message
    (events (target_exchange network_request (mem_empty 0))).

Definition origin_exchange (max_count : nat)
  : M (hg_return_t * option nat) :=
  _ <- forward_echo PEER ;;
  origin_completion network_response max_count.

(** A request for an id that nobody registered reaches a listening
    process, which then destroys its context and finalises. *)
Definition unmatched_request : M (hg_return_t * hg_return_t) :=
  _ <- setup true ;;
  p1 <- HG_Progress
          (NA_SUCCESS,
           [request_arrival 3%nat 8%nat 1%Z [12345; 0; 0; 0; 0; 0; 0; 0]%Z])
          [] 1%nat 2%nat 0%Z ;;
  _ <- HG_Progress (NA_TIMEOUT, []) (snd p1) 1%nat 2%nat 0%Z ;;
  r1 <- HG_Context_destroy 2%nat ;;
  r2 <- HG_Finalize 1%nat ;;
  ret (r1, r2).

(** [HG_Create], followed by the two calls to [HG_Destroy] that give up
    the user's and the engine's references.  In a run from [mem_short 8]
    the allocation of the input buffer fails (the ninth of the run),
    from [mem_short 9] that of the output buffer. *)
Definition create_and_release : M (hg_return_t * hg_return_t) :=
  _ <- create_echo PEER ;;
  d1 <- HG_Destroy 3%nat ;;
  d2 <- HG_Destroy 3%nat ;;
  ret (d1, d2).

(** The internal constructor alone, in the same process. *)
Definition create_internal : M ptr :=
  _ <- setup false ;;
  hg_create 1%nat 2%nat.

(** Two names with the same hash are registered one after the other. *)
Definition register_colliding : M (hg_id_t * hg_id_t) :=
  c <- HG_Init (Some (na_demo 3 false)) 5%nat NULL ;;
  i1 <- HG_Register_rpc c "az" RESPOND_CB ;;
  i2 <- HG_Register_rpc c "bY" QUIET_CB ;;
  ret (i1, i2).

(** A handle is pending on the completion queue of context 2 after a
    forward to the own address; the context is destroyed, then drained
    by one [HG_Trigger], then destroyed again. *)
Definition destroy_pending : M hg_return_t :=
  _ <- forward_echo SELF ;;
  HG_Context_destroy 2%nat.

Definition destroy_drained : M (hg_return_t * option nat * hg_return_t) :=
  _ <- destroy_pending ;;
  t <- HG_Trigger 1%nat 2%nat 0%Z 1 (Some 9%nat) ;;
  r <- HG_Context_destroy 2%nat ;;
  ret (t, r).

(** Five handles are created and forwarded to the peer back to back;
    the result is the list of the tags of the requests sent. *)
Definition sent_tags (ev : list event) : list na_tag_t :=
  omap (fun e => match e with
                 | EvNa (NA_Msg_send_unexpected _ _ _ _ _ t) _ => Some t
                 | _ => None
                 end) ev.

Definition forward_new (c x : ptr) (i : hg_id_t) : M hg_return_t :=
  hh <- HG_Create c x PEER i (Some NULL) ;;
  match snd hh with
  | Some h => HG_Forward_buf h ON_FORWARDED NULL HG_BULK_NULL
  | None => ret (fst hh)
  end.

Definition five_forwards : M hg_return_t :=
  s <- setup false ;;
  let '(c, x, i) := s in
  _ <- forward_new c x i ;;
  _ <- forward_new c x i ;;
  _ <- forward_new c x i ;;
  _ <- forward_new c x i ;;
  forward_new c x i.

(** The memory of a process that has allocated nothing, in an
    environment where the first [n] allocations succeed, the next one
    fails and fresh memory holds [j]. *)
Definition mem_short (n : nat) (j : Z) : Mem :=
  {| classes := ∅; contexts := ∅; handles := ∅; brk := 0;
     mem_oracle := replicate n true ++ [false]; junk := j;
     na_oracle := []; wait_oracle := [] |}.

End Scenarios.

(** ** Registry queries, handle accessors and error strings *)

(** [struct hg_info], filled by [HG_Get_info]. *)
Record hg_info := {
  info_hg_class : ptr;
  info_context : ptr;
  info_addr : na_addr_t;
  info_id : hg_id_t
}.

(** [HG_ERROR_STRING_MACRO (def, value, string)]:
    [if (value == def) string = #def]. *)
Definition HG_ERROR_STRING_MACRO (def : hg_return_t) (name : string)
    (value : hg_return_t) (s : string) : string :=
  if decide (value = def) then name else s.

(** [HG_Error_to_string] *)
Definition HG_Error_to_string (errnum : hg_return_t) : string :=
  let s := "UNDEFINED/UNRECOGNIZED NA ERROR" in
  let s := HG_ERROR_STRING_MACRO HG_SUCCESS "HG_SUCCESS" errnum s in
  let s := HG_ERROR_STRING_MACRO HG_TIMEOUT "HG_TIMEOUT" errnum s in
  let s :=
    HG_ERROR_STRING_MACRO HG_INVALID_PARAM "HG_INVALID_PARAM" errnum s in
  let s := HG_ERROR_STRING_MACRO HG_SIZE_ERROR "HG_SIZE_ERROR" errnum s in
  let s := HG_ERROR_STRING_MACRO HG_NOMEM_ERROR "HG_NOMEM_ERROR" errnum s in
  let s :=
    HG_ERROR_STRING_MACRO HG_PROTOCOL_ERROR "HG_PROTOCOL_ERROR" errnum s in
  let s := HG_ERROR_STRING_MACRO HG_NO_MATCH "HG_NO_MATCH" errnum s in
  let s :=
    HG_ERROR_STRING_MACRO HG_CHECKSUM_ERROR "HG_CHECKSUM_ERROR" errnum s in
  s.

Section Queries.
Context {hash : HashString}.

(** [HG_Registered_rpc]; [flag] and [id] are the caller's variables behind
    the last two arguments ([None] for a null pointer), and the result
    carries their content after the call. *)
Definition HG_Registered_rpc (hg_class_p : ptr) (func_name : string)
    (flag : option bool) (id : option hg_id_t)
  : M (hg_return_t * option bool * option hg_id_t) :=
  if is_null hg_class_p then ret (HG_INVALID_PARAM, flag, id) else
  match flag with
  | None => ret (HG_INVALID_PARAM, flag, id)
  | Some _ =>
      let func_id := hg_hash_string func_name in
      c <- load_class hg_class_p ;;
      fm <- deref (func_map c) ;;
      let found :=
        match fm !! func_id with Some _ => true | None => false end in
      ret (HG_SUCCESS, Some found,
           match id with
           | Some _ => Some (if found then func_id else 0%Z)
           | None => None
           end)
  end.

(** [HG_Register_data]: the entry of the table is updated in place. *)
Definition HG_Register_data (hg_class_p : ptr) (id : hg_id_t) (data : ptr)
    (free_callback : fnptr) : M hg_return_t :=
  if is_null hg_class_p then ret HG_INVALID_PARAM else
  c <- load_class hg_class_p ;;
  fm <- deref (func_map c) ;;
  match fm !! id with
  | None => ret HG_NO_MATCH
  | Some hg_rpc_info =>
      modify_class hg_class_p
        (set_func_map
           (Some (<[id := {| rpc_cb := rpc_cb hg_rpc_info; rpc_data := data;
                             rpc_free_callback := free_callback |}]> fm))) ;;
      ret HG_SUCCESS
  end.

(** [HG_Registered_data] *)
Definition HG_Registered_data (hg_class_p : ptr) (id : hg_id_t) : M ptr :=
  if is_null hg_class_p then ret NULL else
  c <- load_class hg_class_p ;;
  fm <- deref (func_map c) ;;
  match fm !! id with
  | None => ret NULL
  | Some hg_rpc_info => ret (rpc_data hg_rpc_info)
  end.

End Queries.

(** [HG_Get_info]; [hg_info_p] is the caller's structure behind the last
    argument ([None] for a null pointer). *)
Definition HG_Get_info (handle : ptr) (hg_info_p : option hg_info)
  : M (hg_return_t * option hg_info) :=
  if is_null handle then ret (HG_INVALID_PARAM, hg_info_p) else
  match hg_info_p with
  | None => ret (HG_INVALID_PARAM, hg_info_p)
  | Some _ =>
      h <- load_handle handle ;;
      ret (HG_SUCCESS,
           Some {| info_hg_class := h_hg_class h;
                   info_context := h_context h;
                   info_addr := h_addr h; info_id := h_id h |})
  end.

(** [HG_Get_addr] *)
Definition HG_Get_addr (handle : ptr) : M na_addr_t :=
  if is_null handle then ret NA_ADDR_NULL else
  h <- load_handle handle ;;
  ret (h_addr h).

(** [HG_Cancel]: the cancellation of the posted operations is left to be
    written. *)
Definition HG_Cancel (handle : ptr) : M hg_return_t :=
  if is_null handle then ret HG_INVALID_PARAM else ret HG_SUCCESS.

(** The data registered for an id in the class at [cp], with its free
    callback. *)
Definition registered_data_at (cp : ptr) (id : hg_id_t) (m : Mem)
  : option (ptr * fnptr) :=
  c ← classes m !! cp;
  fm ← func_map c;
  info ← fm !! id;
  Some (rpc_data info, rpc_free_callback info).

(** The processing list of the context at [xp]. *)
Definition processing_at (xp : ptr) (m : Mem) : option (list ptr) :=
  c ← contexts m !! xp; Some (processing_list c).

(** The network calls of a run. *)
Definition na_calls (ev : list event) : list na_op :=
  omap (fun e => match e with EvNa op _ => Some op | _ => None end) ev.

(** The frees of a run. *)
Definition frees (ev : list event) : list object :=
  omap (fun e => match e with EvFree o => Some o | _ => None end) ev.

(** What [hg_hash_table_free] hands to the free callbacks: the data of
    every entry that has one. *)
Definition data_frees (l : list (Z * hg_rpc_info)) : list event :=
  omap (fun kv =>
          if is_null (rpc_free_callback (snd kv)) then None
          else Some (EvDataFree (rpc_free_callback (snd kv))
                       (rpc_data (snd kv)))) l.

(** What the last [hg_destroy] of the handle [h] at [p] does outside the
    memory, when the network layer answers [r]: it frees the address if
    the handle owns one, the buffers that are allocated and the handle. *)
Definition release_events (p : ptr) (h : hg_handle) (r : na_return_t)
  : list event :=
  (if negb (is_null (h_addr h)) && h_addr_mine h
   then [EvNa (NA_Addr_free (h_addr h)) r] else []) ++
  match h_in_buf h with Some _ => [EvFree (ObjInBuf p)] | None => [] end ++
  match h_out_buf h with Some _ => [EvFree (ObjOutBuf p)] | None => [] end ++
  [EvFree (ObjHandle p)].

(** The status of the next call into the network layer. *)
Definition next_na_status (m : Mem) : na_return_t :=
  match na_oracle m with
  | [] => NA_SUCCESS
  | r :: _ => r
  end.

(** The status of the call into the network layer that follows the
    next one. *)
Definition second_na_status (m : Mem) : na_return_t :=
  match tail (na_oracle m) with
  | [] => NA_SUCCESS
  | r :: _ => r
  end.

(** A handle as the constructor leaves it when every allocation
    succeeds, for messages of [size] cells, with address [addr], id [id]
    and [count] references. *)
Definition created_handle (cp xp : ptr) (size : nat) (addr : na_addr_t)
    (id : hg_id_t) (count : Z) : hg_handle :=
  {| h_hg_class := cp; h_context := xp; h_callback := NULL; h_arg := NULL;
     h_id := id; h_cookie := 0%Z; h_tag := 0%Z; h_addr := addr;
     h_addr_mine := false;
     h_in_buf := Some (hg_proc_buf_alloc size); h_in_buf_size := size;
     h_out_buf := Some (hg_proc_buf_alloc size); h_out_buf_size := size;
     h_na_send_op_id := NA_OP_ID_NULL; h_na_recv_op_id := NA_OP_ID_NULL;
     h_ref_count := count |}.

(** A bulk layer that has no bulk context to give. *)
Definition bulk_no_context : BulkLayer :=
  {| HG_Bulk_init := fun _ _ => 1000%nat;
     HG_Bulk_finalize := fun _ => HG_SUCCESS;
     HG_Bulk_context_create := fun _ => NULL;
     HG_Bulk_context_destroy := fun _ => HG_SUCCESS |}.

(** The target at the moment the arrival callback hands the request to
    [hg_process]: the address of the source (8) and the tag of the
    request are on the handle. *)
Definition target_processing : Mem :=
  after (modify_handle 3%nat (set_addr 8%nat) ;;
         modify_handle 3%nat (set_addr_mine true) ;;
         modify_handle 3%nat (set_tag 1%Z))
    (target_received (bulk := bulk_ok)).

(** The response to a request with cookie 77, and the origin with that
    response in the output buffer of the handle it has forwarded. *)
Definition cookie_response : buffer := [77; 0; 0; 0; 0; 0; 0; 0]%Z.

Definition origin_received : Mem :=
  after (modify_handle 3%nat (set_out_buf (Some cookie_response)))
    (after (forward_echo (bulk := bulk_ok) PEER) (mem_empty 0)).

Section NetworkQueue.
Context {codec : HeaderCodec} {user : UserCode}.

(** The entries of a network completion queue taken one after the
    other, oldest first: each one is delivered and its callback run. *)
Fixpoint na_drain (cq : list na_completion) : M unit :=
  match cq with
  | [] => ret tt
  | e :: rest => na_deliver e ;; _ <- na_run_callback e ;; na_drain rest
  end.

End NetworkQueue.

(** The calls of completion callbacks in a run, in order: the callback
    and the [hg_cb_info] it got. *)
Definition completion_calls (ev : list event) : list (fnptr * hg_cb_info) :=
  omap (fun e => match e with EvCb fn info => Some (fn, info) | _ => None end)
    ev.

(** What the loop of [HG_Trigger] hands to the user for the handle at
    [p], read in the memory [m]: a call of its completion callback, if
    it has one, with the argument stored with it, the class of its
    context, its context and the handle. *)
Definition delivery (m : Mem) (p : ptr) : option (fnptr * hg_cb_info) :=
  h ← handles m !! p;
  hctx ← contexts m !! h_context h;
  if is_null (h_callback h) then None
  else Some (h_callback h,
             {| cbi_arg := h_arg h; cbi_ret := HG_SUCCESS;
                cbi_hg_class := ctx_hg_class hctx;
                cbi_context := h_context h; cbi_handle := p |}).

(** The memory [m'] holds no handle and no context that [m] does not
    hold, and what a delivery reads of the ones it holds is what [m]
    has. *)
Definition same_deliveries (m m' : Mem) : Prop :=
  (forall (p : ptr) h', handles m' !! p = Some h' ->
     exists h, handles m !! p = Some h /\
               h_callback h' = h_callback h /\ h_arg h' = h_arg h /\
               h_context h' = h_context h) /\
  (forall (x : ptr) c', contexts m' !! x = Some c' ->
     exists c, contexts m !! x = Some c /\
               ctx_hg_class c' = ctx_hg_class c).

(** Two handles for "echo" are created and forwarded to the own address
    one after the other (addresses 3 and 4): both are pending on the
    completion queue of context 2, the second one at its head. *)
Definition forward_self (c x : ptr) (i : hg_id_t) : M hg_return_t :=
  hh <- HG_Create c x SELF i (Some NULL) ;;
  match snd hh with
  | Some h =>
      HG_Forward_buf (codec := plain_codec) (user := user_code)
        h ON_FORWARDED NULL HG_BULK_NULL
  | None => ret (fst hh)
  end.

Definition two_self_forwards : M hg_return_t :=
  s <- setup (bulk := bulk_ok) false ;;
  let '(c, x, i) := s in
  _ <- forward_self c x i ;;
  forward_self c x i.
(** * Properties *)

(** ** Machine integers *)

Lemma wrap_uint32_int32 z : wrap_uint32 (wrap_int32 z) = wrap_uint32 z.
Proof.
  unfold wrap_uint32, wrap_int32.
  rewrite Zminus_mod_idemp_l. f_equal. lia.
Qed.

Lemma wrap_int32_uint32 z : wrap_int32 (wrap_uint32 z) = wrap_int32 z.
Proof.
  unfold wrap_uint32, wrap_int32.
  rewrite Zplus_mod_idemp_l. reflexivity.
Qed.

Lemma wrap_int32_id z : is_int32 z -> wrap_int32 z = z.
Proof.
  unfold is_int32, wrap_int32. intros Hz.
  rewrite Z.mod_small by lia. lia.
Qed.

Lemma wrap_uint32_id z : is_uint32 z -> wrap_uint32 z = z.
Proof. unfold is_uint32, wrap_uint32. intros Hz. apply Z.mod_small. lia. Qed.

Lemma wrap_int32_range z : is_int32 (wrap_int32 z).
Proof.
  unfold is_int32, wrap_int32.
  pose proof (Z.mod_pos_bound (z + 2 ^ 31) (2 ^ 32)) as Hb. lia.
Qed.

Lemma wrap_uint32_range z : is_uint32 (wrap_uint32 z).
Proof. unfold is_uint32, wrap_uint32. apply Z.mod_pos_bound. lia. Qed.

(** ** Tag allocator *)

(** The compare-and-swap of the allocator succeeds exactly when the
    counter, read as a tag, has reached the maximum. *)
Lemma cas_at_max (c : hg_class) :
  tag_in_range c ->
  (request_tag c =? wrap_int32 (request_max_tag c))%Z = true <->
  wrap_uint32 (request_tag c) = request_max_tag c.
Proof.
  intros (Hc & Hm & _). rewrite Z.eqb_eq. split; intros E.
  - rewrite E, wrap_uint32_int32. by apply wrap_uint32_id.
  - rewrite <- E, wrap_int32_uint32. symmetry. by apply wrap_int32_id.
Qed.

Lemma gen_request_tag_at_max (c : hg_class) :
  tag_in_range c ->
  wrap_uint32 (request_tag c) = request_max_tag c ->
  hg_gen_request_tag c = (0%Z, set_request_tag 0%Z c).
Proof.
  intros Hc E. unfold hg_gen_request_tag, hg_atomic_cas32.
  apply (cas_at_max c Hc) in E. rewrite E. reflexivity.
Qed.

Lemma gen_request_tag_below_max (c : hg_class) :
  tag_in_range c ->
  wrap_uint32 (request_tag c) <> request_max_tag c ->
  hg_gen_request_tag c =
    ((wrap_uint32 (request_tag c) + 1)%Z,
     set_request_tag (wrap_int32 (request_tag c + 1)) c) /\
  wrap_uint32 (wrap_int32 (request_tag c + 1)) =
    (wrap_uint32 (request_tag c) + 1)%Z.
Proof.
  intros Hc E. unfold hg_gen_request_tag, hg_atomic_cas32, hg_atomic_incr32.
  destruct (request_tag c =? wrap_int32 (request_max_tag c))%Z eqn:Hcas.
  { apply (cas_at_max c Hc) in Hcas. contradiction. }
  destruct Hc as (Hc & Hm & Hle).
  assert (Hw : wrap_uint32 (wrap_int32 (request_tag c + 1)) =
               (wrap_uint32 (request_tag c) + 1)%Z).
  { rewrite wrap_uint32_int32. unfold wrap_uint32 in *.
    rewrite <- Zplus_mod_idemp_l.
    apply Z.mod_small.
    pose proof (Z.mod_pos_bound (request_tag c) (2 ^ 32)) as Hb.
    unfold is_uint32 in Hm. lia. }
  rewrite Hw. split; reflexivity.
Qed.

(** One allocation from a counter in range: the tag is in range, and so
    is the counter afterwards, which holds the tag. *)
Lemma gen_request_tag_step (c : hg_class) :
  tag_in_range c ->
  let '(t, c') := hg_gen_request_tag c in
  (0 <= t <= request_max_tag c)%Z /\
  tag_in_range c' /\
  request_max_tag c' = request_max_tag c /\
  wrap_uint32 (request_tag c') = t /\
  (wrap_uint32 (request_tag c) = request_max_tag c -> t = 0%Z) /\
  (wrap_uint32 (request_tag c) <> request_max_tag c ->
     t = (wrap_uint32 (request_tag c) + 1)%Z).
Proof.
  intros Hc.
  destruct (decide (wrap_uint32 (request_tag c) = request_max_tag c)) as [E|E].
  - rewrite (gen_request_tag_at_max c Hc E).
    destruct Hc as (Hc & Hm & Hle). unfold is_uint32 in Hm.
    change (wrap_uint32 0) with 0%Z.
    repeat split; simpl; try done; try lia.
    change (wrap_uint32 0) with 0%Z. lia.
  - destruct (gen_request_tag_below_max c Hc E) as [-> Hw].
    destruct Hc as (Hc & Hm & Hle).
    pose proof (wrap_uint32_range (request_tag c)) as Hr.
    unfold is_uint32 in Hm, Hr. simpl.
    split; [lia|]. split.
    { unfold tag_in_range. simpl.
      split; [apply wrap_int32_range|]. split; [exact Hm|].
      rewrite Hw. lia. }
    split; [reflexivity|]. split; [exact Hw|].
    split; [intros; contradiction | reflexivity].
Qed.

Lemma gen_request_tags_S n c :
  gen_request_tags (S n) c =
    (fst (hg_gen_request_tag c)
       :: fst (gen_request_tags n (snd (hg_gen_request_tag c))),
     snd (gen_request_tags n (snd (hg_gen_request_tag c)))).
Proof.
  simpl. destruct (hg_gen_request_tag c) as [t c1]. simpl.
  destruct (gen_request_tags n c1) as [ts c2]. reflexivity.
Qed.

(** C3 (as stated, fails).  With a network class whose maximum tag is 0,
    two successive allocations both return 0. *)
Lemma tag_successive_equal_counterexample :
  let c := {| na_class := na_demo 0 false; na_context := 5%nat;
              bulk_class := 1000%nat; bulk_class_external := false;
              func_map := Some ∅; request_tag := 0%Z;
              request_max_tag := 0%Z |} in
  tag_in_range c /\
  ~ (fst (hg_gen_request_tag c)
       <> fst (hg_gen_request_tag (snd (hg_gen_request_tag c)))).
Proof.
  split.
  - unfold tag_in_range, is_int32, is_uint32. simpl. vm_compute.
    repeat split; discriminate.
  - intros Hne. apply Hne. reflexivity.
Qed.

(** C3 (amended).  For a class whose maximum tag is at least 1 and whose
    counter is in range (as [HG_Init] leaves it): every tag of a run of
    successive allocations lies in [0, request_max_tag]; two successive
    allocations return distinct tags; when the counter has reached the
    maximum, the next allocation returns 0; and with maximum tag 3 and a
    new counter, five allocations return 1, 2, 3, 0, 1. *)
Theorem tag_allocator_wraps (c : hg_class) :
  tag_in_range c ->
  (1 <= request_max_tag c)%Z ->
  (forall n,
     Forall (fun t => (0 <= t <= request_max_tag c)%Z)
       (fst (gen_request_tags n c))) /\
  (forall n i t t',
     fst (gen_request_tags n c) !! i = Some t ->
     fst (gen_request_tags n c) !! S i = Some t' ->
     t <> t') /\
  (wrap_uint32 (request_tag c) = request_max_tag c ->
   fst (hg_gen_request_tag c) = 0%Z) /\
  (request_max_tag c = 3%Z -> request_tag c = 0%Z ->
   fst (gen_request_tags 5 c) = [1; 2; 3; 0; 1]%Z).
Proof.
  intros Hc Hmax. split; [|split; [|split]].
  - intros n. revert c Hc Hmax. induction n as [|n IH]; intros c Hc Hmax.
    + constructor.
    + rewrite gen_request_tags_S. simpl.
      pose proof (gen_request_tag_step c Hc) as Hs.
      destruct (hg_gen_request_tag c) as [t c1]. simpl.
      destruct Hs as (Ht & Hc1 & Hm1 & _).
      constructor; [exact Ht|].
      rewrite <- Hm1. apply IH; [exact Hc1 | by rewrite Hm1].
  - intros n. revert c Hc Hmax. induction n as [|n IH]; intros c Hc Hmax i t t'.
    + simpl. intros Hi. by rewrite lookup_nil in Hi.
    + rewrite gen_request_tags_S. simpl.
      pose proof (gen_request_tag_step c Hc) as Hs.
      destruct (hg_gen_request_tag c) as [t1 c1]. simpl.
      destruct Hs as (Ht & Hc1 & Hm1 & Hv1 & _).
      destruct i as [|i]; simpl.
      * intros [= <-] Hi1.
        destruct n as [|n]; [discriminate Hi1|].
        rewrite gen_request_tags_S in Hi1. simpl in Hi1.
        injection Hi1 as <-.
        pose proof (gen_request_tag_step c1 Hc1) as Hs2.
        destruct (hg_gen_request_tag c1) as [t2 c2]. simpl.
        destruct Hs2 as (_ & _ & _ & _ & Hz & Hnz).
        destruct (decide (wrap_uint32 (request_tag c1) = request_max_tag c1))
          as [E|E].
        -- rewrite (Hz E). lia.
        -- rewrite (Hnz E). lia.
      * apply IH; [exact Hc1 | by rewrite Hm1].
  - intros E. by rewrite (gen_request_tag_at_max c Hc E).
  - intros Hm Ht. destruct c as [na nc bc be fm rt mt]. simpl in *.
    subst. reflexivity.
Qed.

Lemma tag_allocator_wraps_witness :
  let c := {| na_class := na_demo 3 false; na_context := 5%nat;
              bulk_class := 1000%nat; bulk_class_external := false;
              func_map := Some ∅; request_tag := 0%Z;
              request_max_tag := 3%Z |} in
  fst (gen_request_tags 5 c) = [1; 2; 3; 0; 1]%Z.
Proof.
  intros c.
  assert (Hc : tag_in_range c).
  { unfold tag_in_range, is_int32, is_uint32. simpl. vm_compute.
    repeat split; discriminate. }
  assert (Hm : (1 <= request_max_tag c)%Z) by (simpl; lia).
  destruct (tag_allocator_wraps c Hc Hm) as (_ & _ & _ & Hseq).
  apply Hseq; reflexivity.
Defined.

(** ** Runs in the monad *)

Lemma bind_Some {A B} (c : M A) (k : A -> M B) m b m2 ev :
  bind c k m = Some (b, m2, ev) ->
  exists a m1 e1 e2,
    c m = Some (a, m1, e1) /\ k a m1 = Some (b, m2, e2) /\ ev = e1 ++ e2.
Proof.
  unfold bind. intros Hb.
  destruct (c m) as [[[a m1] e1]|]; [|discriminate].
  destruct (k a m1) as [[[b' m2'] e2]|] eqn:Hk; [|discriminate].
  injection Hb as <- <- <-. by exists a, m1, e1, e2.
Qed.

Lemma bind_run {A B} (c : M A) (k : A -> M B) m a m1 e1 :
  c m = Some (a, m1, e1) ->
  bind c k m =
    match k a m1 with
    | Some (b, m2, e2) => Some (b, m2, e1 ++ e2)
    | None => None
    end.
Proof. unfold bind. by intros ->. Qed.

Lemma quiet_ret {A} (a : A) : quiet (ret a).
Proof. intros m a' m' ev [= <- <- <-]. constructor. Qed.

Lemma quiet_ub {A} : quiet (@ub A).
Proof. intros m a m' ev [=]. Qed.

Lemma quiet_bind {A B} (c : M A) (k : A -> M B) :
  quiet c -> (forall a, quiet (k a)) -> quiet (bind c k).
Proof.
  intros Hc Hk m b m2 ev Hb.
  apply bind_Some in Hb as (a & m1 & e1 & e2 & H1 & H2 & ->).
  apply Forall_app. split; [by eapply Hc | by eapply Hk].
Qed.

Lemma quiet_silent {A} (c : M A) :
  (forall m a m' ev, c m = Some (a, m', ev) -> ev = []) -> quiet c.
Proof. intros Hc m a m' ev Hr. rewrite (Hc _ _ _ _ Hr). constructor. Qed.

Lemma quiet_emit e : is_completion_cb e = false -> quiet (emit e).
Proof. intros He m a m' ev [= <- <- <-]. by repeat constructor. Qed.

Lemma quiet_load_class p : quiet (load_class p).
Proof.
  apply quiet_silent. unfold load_class. intros m a m' ev.
  destruct (classes m !! p); [|done]. by intros [= <- <- <-].
Qed.

Lemma quiet_load_context p : quiet (load_context p).
Proof.
  apply quiet_silent. unfold load_context. intros m a m' ev.
  destruct (contexts m !! p); [|done]. by intros [= <- <- <-].
Qed.

Lemma quiet_load_handle p : quiet (load_handle p).
Proof.
  apply quiet_silent. unfold load_handle. intros m a m' ev.
  destruct (handles m !! p); [|done]. by intros [= <- <- <-].
Qed.

Lemma quiet_store_class p c : quiet (store_class p c).
Proof. apply quiet_silent. by intros m a m' ev [= <- <- <-]. Qed.

Lemma quiet_store_context p c : quiet (store_context p c).
Proof. apply quiet_silent. by intros m a m' ev [= <- <- <-]. Qed.

Lemma quiet_store_handle p h : quiet (store_handle p h).
Proof. apply quiet_silent. by intros m a m' ev [= <- <- <-]. Qed.

Lemma quiet_malloc : quiet malloc.
Proof.
  apply quiet_silent. unfold malloc. intros m a m' ev.
  destruct (mem_oracle m); by intros [= <- <- <-].
Qed.

Lemma quiet_fresh : quiet fresh.
Proof. apply quiet_silent. by intros m a m' ev [= <- <- <-]. Qed.

Lemma quiet_uninit : quiet uninit.
Proof. apply quiet_silent. by intros m a m' ev [= <- <- <-]. Qed.

Lemma quiet_timedwait : quiet hg_thread_cond_timedwait.
Proof.
  apply quiet_silent. unfold hg_thread_cond_timedwait. intros m a m' ev.
  destruct (wait_oracle m); by intros [= <- <- <-].
Qed.

Lemma quiet_deref {A} (o : option A) : quiet (deref o).
Proof. destruct o; [apply quiet_ret | apply quiet_ub]. Qed.

Lemma quiet_free_class p : quiet (free_class p).
Proof.
  unfold free_class. intros m a m' ev.
  destruct (classes m !! p); [|done]. intros [= <- <- <-].
  by repeat constructor.
Qed.

Lemma quiet_free_context p : quiet (free_context p).
Proof.
  unfold free_context. intros m a m' ev.
  destruct (contexts m !! p); [|done]. intros [= <- <- <-].
  by repeat constructor.
Qed.

Lemma quiet_free_handle p : quiet (free_handle p).
Proof.
  unfold free_handle. intros m a m' ev.
  destruct (handles m !! p); [|done]. intros [= <- <- <-].
  by repeat constructor.
Qed.

Lemma quiet_na_call op : quiet (na_call op).
Proof.
  unfold na_call. intros m a m' ev.
  destruct (na_oracle m); intros [= <- <- <-]; by repeat constructor.
Qed.

Create HintDb quiet.
#[global] Hint Resolve quiet_ret quiet_ub quiet_load_class quiet_load_context
  quiet_load_handle quiet_store_class quiet_store_context quiet_store_handle
  quiet_malloc quiet_fresh quiet_uninit quiet_timedwait quiet_deref
  quiet_free_class quiet_free_context quiet_free_handle quiet_na_call
  : quiet.

(** One step of a proof that a computation is quiet: split a sequence,
    or take the branches of a test apart. *)
Ltac quiet_step :=
  match goal with
  | |- quiet (bind _ _) => apply quiet_bind; [|intros ?]
  | |- quiet (emit _) => apply quiet_emit; reflexivity
  | |- quiet (if ?b then _ else _) => destruct b
  | |- quiet (match ?x with _ => _ end) => destruct x
  | |- quiet _ => solve [eauto with quiet]
  end.

Ltac quiet_auto := repeat quiet_step.

Lemma quiet_modify_class p f : quiet (modify_class p f).
Proof. unfold modify_class. quiet_auto. Qed.

Lemma quiet_modify_context p f : quiet (modify_context p f).
Proof. unfold modify_context. quiet_auto. Qed.

Lemma quiet_modify_handle p f : quiet (modify_handle p f).
Proof. unfold modify_handle. quiet_auto. Qed.

Lemma quiet_na_post op : quiet (na_post op).
Proof. unfold na_post. quiet_auto. Qed.

#[global] Hint Resolve quiet_modify_class quiet_modify_context
  quiet_modify_handle quiet_na_post : quiet.

Lemma quiet_gen_request_tag_at p : quiet (gen_request_tag_at p).
Proof. unfold gen_request_tag_at. quiet_auto. Qed.

Lemma quiet_hg_destroy p : quiet (hg_destroy p).
Proof. unfold hg_destroy. quiet_auto. Qed.

#[global] Hint Resolve quiet_gen_request_tag_at quiet_hg_destroy : quiet.

Lemma quiet_HG_Destroy p : quiet (HG_Destroy p).
Proof. unfold HG_Destroy. quiet_auto. Qed.

Lemma quiet_hg_create cp xp : quiet (hg_create cp xp).
Proof. unfold hg_create. quiet_auto. Qed.

Lemma quiet_hg_complete p : quiet (hg_complete p).
Proof. unfold hg_complete. quiet_auto. Qed.

Lemma quiet_hg_send_input_cb info : quiet (hg_send_input_cb info).
Proof. unfold hg_send_input_cb. quiet_auto. Qed.

#[global] Hint Resolve quiet_HG_Destroy quiet_hg_create quiet_hg_complete
  quiet_hg_send_input_cb : quiet.

Lemma quiet_hg_send_output_cb info : quiet (hg_send_output_cb info).
Proof. unfold hg_send_output_cb. quiet_auto. Qed.

Lemma quiet_hg_listen_round k cp xp r :
  (forall r', quiet (k r')) -> quiet (hg_listen_round k cp xp r).
Proof. intros Hk. unfold hg_listen_round. quiet_auto. Qed.

Lemma quiet_hg_listen_loop fuel cp xp r : quiet (hg_listen_loop fuel cp xp r).
Proof.
  revert r. induction fuel as [|fuel IH]; intros r; simpl; quiet_auto.
  by apply quiet_hg_listen_round.
Qed.

Lemma quiet_hg_listen cp xp : quiet (hg_listen cp xp).
Proof. intros m a m' ev. unfold hg_listen. apply quiet_hg_listen_loop. Qed.

#[global] Hint Resolve quiet_hg_send_output_cb quiet_hg_listen : quiet.

(** ** Which calls run user callbacks *)

Lemma quiet_HG_Respond_buf {codec : HeaderCodec} h cb arg :
  quiet (HG_Respond_buf h cb arg).
Proof. unfold HG_Respond_buf. quiet_auto. Qed.

#[global] Hint Resolve quiet_HG_Respond_buf : quiet.

Section Quiet.
Context {hash : HashString} {codec : HeaderCodec} {bulk : BulkLayer}
  {user : UserCode}.

(** The callbacks the engine runs outside [HG_Trigger] do not themselves
    run a completion callback. *)
Hypothesis rpc_quiet : forall fn p, quiet (rpc_cb_sem fn p).
Hypothesis free_quiet : forall fn d, quiet (free_cb_sem fn d).

Lemma quiet_hg_process p : quiet (hg_process p).
Proof. unfold hg_process. quiet_auto. Qed.

Lemma quiet_hg_func_map_value_free info :
  quiet (hg_func_map_value_free info).
Proof. unfold hg_func_map_value_free. quiet_auto. Qed.

Hint Resolve quiet_hg_process quiet_hg_func_map_value_free rpc_quiet
  free_quiet : quiet.

Lemma quiet_hg_recv_input_cb info : quiet (hg_recv_input_cb info).
Proof. unfold hg_recv_input_cb. quiet_auto. Qed.

Lemma quiet_hg_recv_output_cb info : quiet (hg_recv_output_cb info).
Proof. unfold hg_recv_output_cb. quiet_auto. Qed.

Hint Resolve quiet_hg_recv_input_cb quiet_hg_recv_output_cb : quiet.

Lemma quiet_NA_Trigger cq : quiet (NA_Trigger cq).
Proof. unfold NA_Trigger, na_deliver, na_run_callback. quiet_auto. Qed.

Hint Resolve quiet_NA_Trigger : quiet.

Lemma quiet_hg_progress_trigger fuel cq : quiet (hg_progress_trigger fuel cq).
Proof.
  revert cq. induction fuel as [|fuel IH]; intros cq; simpl; quiet_auto.
Qed.

Hint Resolve quiet_hg_progress_trigger : quiet.

Lemma quiet_hg_progress net cq cp xp timeout :
  quiet (hg_progress net cq cp xp timeout).
Proof. unfold hg_progress. quiet_auto. Qed.

Hint Resolve quiet_hg_progress : quiet.

Lemma quiet_HG_Progress net cq cp xp timeout :
  quiet (HG_Progress net cq cp xp timeout).
Proof. unfold HG_Progress. quiet_auto. Qed.

Lemma quiet_HG_Forward_buf h cb arg extra :
  quiet (HG_Forward_buf h cb arg extra).
Proof. unfold HG_Forward_buf. quiet_auto. Qed.

Lemma quiet_HG_Create cp xp addr id out : quiet (HG_Create cp xp addr id out).
Proof. unfold HG_Create. quiet_auto. Qed.

Lemma quiet_hg_hash_table_free l : quiet (hg_hash_table_free l).
Proof. induction l as [|[k v] l IH]; simpl; quiet_auto. Qed.

Hint Resolve quiet_hg_hash_table_free : quiet.

Lemma quiet_HG_Finalize cp : quiet (HG_Finalize cp).
Proof. unfold HG_Finalize. quiet_auto. Qed.

Hint Resolve quiet_HG_Finalize : quiet.

Lemma quiet_HG_Init na nc b : quiet (HG_Init na nc b).
Proof. unfold HG_Init. quiet_auto. Qed.

Lemma quiet_HG_Context_create cp : quiet (HG_Context_create cp).
Proof. unfold HG_Context_create. quiet_auto. Qed.

Lemma quiet_HG_Context_destroy xp : quiet (HG_Context_destroy xp).
Proof. unfold HG_Context_destroy. quiet_auto. Qed.

Lemma quiet_HG_Register_rpc cp name cb : quiet (HG_Register_rpc cp name cb).
Proof. unfold HG_Register_rpc, hg_hash_table_insert. quiet_auto. Qed.

End Quiet.

Lemma user_code_rpc_quiet fn p :
  quiet (rpc_cb_sem (UserCode := user_code) fn p).
Proof. simpl. quiet_auto. Qed.

Lemma user_code_free_quiet fn d :
  quiet (free_cb_sem (UserCode := user_code) fn d).
Proof. simpl. quiet_auto. Qed.

(** C1 (as stated, fails).  A listening process has posted its listen
    handle and a request for "echo" has arrived: the next [HG_Progress]
    runs the registered RPC callback. *)
Lemma progress_runs_rpc_callback_counterexample :
  let msg := network_request (bulk := bulk_ok) in
  let m := after (target_listening (bulk := bulk_ok) msg) (mem_empty 0) in
  let run :=
    HG_Progress (codec := plain_codec) (user := user_code)
      (NA_TIMEOUT, []) [request_arrival 3%nat 8%nat 1%Z msg]
      1%nat 2%nat 0%Z m in
  result run = Some (HG_TIMEOUT, []) /\
  callbacks (events run) = [RESPOND_CB].
Proof. vm_compute. split; reflexivity. Qed.

(** C1 (amended).  No completion callback of a handle is called during
    [HG_Progress], nor during any other entry point than [HG_Trigger],
    as long as the RPC callbacks and the free callbacks, which the engine
    does call outside [HG_Trigger], do not call one themselves. *)
Theorem completion_callbacks_only_in_trigger
    {hash : HashString} {codec : HeaderCodec} {bulk : BulkLayer}
    {user : UserCode} :
  (forall fn p, quiet (rpc_cb_sem fn p)) ->
  (forall fn d, quiet (free_cb_sem fn d)) ->
  (forall net cq cp xp timeout, quiet (HG_Progress net cq cp xp timeout)) /\
  (forall h cb arg extra, quiet (HG_Forward_buf h cb arg extra)) /\
  (forall h cb arg, quiet (HG_Respond_buf h cb arg)) /\
  (forall cp xp addr id out, quiet (HG_Create cp xp addr id out)) /\
  (forall h, quiet (HG_Destroy h)) /\
  (forall cp name cb, quiet (HG_Register_rpc cp name cb)) /\
  (forall cp, quiet (HG_Context_create cp)) /\
  (forall xp, quiet (HG_Context_destroy xp)) /\
  (forall na nc b, quiet (HG_Init na nc b)) /\
  (forall cp, quiet (HG_Finalize cp)).
Proof.
  intros Hrpc Hfree. repeat split; intros.
  - by apply quiet_HG_Progress.
  - by apply quiet_HG_Forward_buf.
  - apply quiet_HG_Respond_buf.
  - apply quiet_HG_Create.
  - apply quiet_HG_Destroy.
  - by apply quiet_HG_Register_rpc.
  - apply quiet_HG_Context_create.
  - apply quiet_HG_Context_destroy.
  - by apply quiet_HG_Init.
  - by apply quiet_HG_Finalize.
Qed.

Lemma completion_callbacks_only_in_trigger_witness :
  let msg := network_request (bulk := bulk_ok) in
  let m := after (target_listening (bulk := bulk_ok) msg) (mem_empty 0) in
  let run :=
    HG_Progress (codec := plain_codec) (user := user_code)
      (NA_TIMEOUT, []) [request_arrival 3%nat 8%nat 1%Z msg]
      1%nat 2%nat 0%Z m in
  Forall (fun e => is_completion_cb e = false) (events run).
Proof.
  intros msg m run.
  destruct (completion_callbacks_only_in_trigger (hash := djb2)
              (codec := plain_codec) (bulk := bulk_ok) (user := user_code)
              user_code_rpc_quiet user_code_free_quiet) as [Hprogress _].
  destruct run as [[[r m'] ev]|] eqn:Hrun; simpl.
  - eapply Hprogress. exact Hrun.
  - constructor.
Defined.

(** ** Running a computation forward *)

Lemma log_nil {A} (r : option (A * Mem * list event)) : log [] r = r.
Proof. by destruct r as [[[a m] ev]|]. Qed.

Lemma log_log {A} e1 e2 (r : option (A * Mem * list event)) :
  log e1 (log e2 r) = log (e1 ++ e2) r.
Proof. destruct r as [[[a m] ev]|]; simpl; [|done]. by rewrite app_assoc. Qed.

Lemma bind_log {A B} (c : M A) (k : A -> M B) m a m1 e1 :
  c m = Some (a, m1, e1) -> bind c k m = log e1 (k a m1).
Proof. intros Hc. by rewrite (bind_run c k m a m1 e1 Hc). Qed.

Lemma bind_ret {A B} (a : A) (k : A -> M B) m : bind (ret a) k m = k a m.
Proof. rewrite (bind_log (ret a) k m a m []); [apply log_nil | done]. Qed.

Lemma bind_emit {B} e (k : unit -> M B) m :
  bind (emit e) k m = log [e] (k tt m).
Proof. by apply bind_log. Qed.

Lemma load_class_run m p c :
  classes m !! p = Some c -> load_class p m = Some (c, m, []).
Proof. unfold load_class. by intros ->. Qed.

Lemma load_context_run m p c :
  contexts m !! p = Some c -> load_context p m = Some (c, m, []).
Proof. unfold load_context. by intros ->. Qed.

Lemma load_handle_run m p h :
  handles m !! p = Some h -> load_handle p m = Some (h, m, []).
Proof. unfold load_handle. by intros ->. Qed.

Lemma modify_class_run m p c f :
  classes m !! p = Some c ->
  modify_class p f m =
    Some (tt, set_classes (<[p := f c]> (classes m)) m, []).
Proof.
  intros Hc. unfold modify_class.
  rewrite (bind_log _ _ _ _ _ _ (load_class_run m p c Hc)). reflexivity.
Qed.

Lemma modify_context_run m p c f :
  contexts m !! p = Some c ->
  modify_context p f m =
    Some (tt, set_contexts (<[p := f c]> (contexts m)) m, []).
Proof.
  intros Hc. unfold modify_context.
  rewrite (bind_log _ _ _ _ _ _ (load_context_run m p c Hc)). reflexivity.
Qed.

Lemma modify_handle_run m p h f :
  handles m !! p = Some h ->
  modify_handle p f m =
    Some (tt, set_handles (<[p := f h]> (handles m)) m, []).
Proof.
  intros Hh. unfold modify_handle.
  rewrite (bind_log _ _ _ _ _ _ (load_handle_run m p h Hh)). reflexivity.
Qed.

Lemma store_class_run m p c :
  store_class p c m = Some (tt, set_classes (<[p := c]> (classes m)) m, []).
Proof. reflexivity. Qed.

Lemma store_context_run m p c :
  store_context p c m =
    Some (tt, set_contexts (<[p := c]> (contexts m)) m, []).
Proof. reflexivity. Qed.

Lemma store_handle_run m p h :
  store_handle p h m = Some (tt, set_handles (<[p := h]> (handles m)) m, []).
Proof. reflexivity. Qed.

Lemma fresh_run m : fresh m = Some (S (brk m), set_brk (S (brk m)) m, []).
Proof. reflexivity. Qed.

(** Read a field of a handle, context or class that has been updated. *)
Tactic Notation "fields" :=
  cbn [h_hg_class h_context h_callback h_arg h_id h_cookie h_tag h_addr
       h_addr_mine h_in_buf h_in_buf_size h_out_buf h_out_buf_size
       h_na_send_op_id h_na_recv_op_id h_ref_count
       set_callback set_id set_cookie set_tag set_addr set_addr_mine
       set_in_buf set_out_buf set_na_send_op_id set_na_recv_op_id
       set_ref_count
       ctx_hg_class bulk_context completion_queue processing_list
       set_bulk_context set_completion_queue set_processing_list
       na_class na_context bulk_class bulk_class_external func_map
       request_tag request_max_tag set_request_tag set_func_map
       set_bulk_class
       classes contexts handles brk mem_oracle junk na_oracle wait_oracle
       set_classes set_contexts set_handles set_brk set_mem_oracle
       set_na_oracle set_wait_oracle fst snd].

Tactic Notation "fields" "in" hyp(H) :=
  cbn [h_hg_class h_context h_callback h_arg h_id h_cookie h_tag h_addr
       h_addr_mine h_in_buf h_in_buf_size h_out_buf h_out_buf_size
       h_na_send_op_id h_na_recv_op_id h_ref_count
       set_callback set_id set_cookie set_tag set_addr set_addr_mine
       set_in_buf set_out_buf set_na_send_op_id set_na_recv_op_id
       set_ref_count
       ctx_hg_class bulk_context completion_queue processing_list
       set_bulk_context set_completion_queue set_processing_list
       na_class na_context bulk_class bulk_class_external func_map
       request_tag request_max_tag set_request_tag set_func_map
       set_bulk_class
       classes contexts handles brk mem_oracle junk na_oracle wait_oracle
       set_classes set_contexts set_handles set_brk set_mem_oracle
       set_na_oracle set_wait_oracle fst snd] in H.

(** A lookup in the memory a run has reached. *)
Ltac run_lookup :=
  fields; rewrite ?lookup_insert_eq; first [eassumption | reflexivity].

(** Run the first action of the computation in the goal with the lemma
    [L] that gives its outcome. *)
Ltac run_with L :=
  erewrite bind_log; [| apply L; run_lookup]; rewrite ?log_nil; fields.

Ltac run_store :=
  first [ erewrite bind_log; [| apply store_handle_run]
        | erewrite bind_log; [| apply store_class_run]
        | erewrite bind_log; [| apply store_context_run] ];
  rewrite ?log_nil; fields.

Lemma na_call_run op m :
  exists r m1,
    na_call op m = Some (r, m1, [EvNa op r]) /\
    handles m1 = handles m /\ classes m1 = classes m /\
    contexts m1 = contexts m /\ brk m1 = brk m.
Proof.
  unfold na_call. destruct (na_oracle m) as [|r rest]; eauto 10.
Qed.

Lemma na_post_run op m :
  exists r i m1,
    na_post op m = Some ((r, i), m1, [EvNa op r]) /\
    (i = None <-> na_ok r = false) /\
    handles m1 = handles m /\ classes m1 = classes m /\
    contexts m1 = contexts m.
Proof.
  destruct (na_call_run op m) as (r & m1 & Hcall & Hh & Hc & Hx & Hb).
  unfold na_post. rewrite (bind_log _ _ _ _ _ _ Hcall).
  destruct (na_ok r) eqn:Hr.
  - rewrite (bind_log _ _ _ _ _ _ (fresh_run m1)). simpl.
    exists r, (Some (Z.of_nat (S (brk m1)))), (set_brk (S (brk m1)) m1).
    repeat split; try done. congruence.
  - simpl. exists r, None, m1. repeat split; try done.
Qed.

Lemma gen_request_tag_at_run m p c :
  classes m !! p = Some c ->
  gen_request_tag_at p m =
    Some (fst (hg_gen_request_tag c),
          set_classes (<[p := snd (hg_gen_request_tag c)]> (classes m)) m,
          []).
Proof.
  intros Hc. unfold gen_request_tag_at.
  run_with load_class_run. destruct (hg_gen_request_tag c) as [t c'].
  run_store. reflexivity.
Qed.
(** ** Forward to a remote address *)

(** A post into the network layer: its status is the next one the layer
    has to give, and an operation id comes back exactly on success. *)
Lemma na_post_next op m :
  exists i m1,
    na_post op m =
      Some ((next_na_status m, i), m1, [EvNa op (next_na_status m)]) /\
    (i = None <-> na_ok (next_na_status m) = false) /\
    handles m1 = handles m /\ classes m1 = classes m /\
    contexts m1 = contexts m /\ na_oracle m1 = tail (na_oracle m).
Proof.
  unfold na_post, na_call, next_na_status, bind.
  destruct (na_oracle m) as [|r rest] eqn:Hna; simpl.
  - eexists _, _. split; [reflexivity|]. simpl. rewrite Hna.
    repeat split; done.
  - destruct (na_ok r) eqn:Hr; simpl.
    + eexists _, _. split; [reflexivity|]. repeat split; done.
    + eexists _, _. split; [reflexivity|]. repeat split; done.
Qed.

(** C9.  When [HG_Forward_buf] is called for a live handle whose input
    buffer is allocated and whose address is not the process's own, it
    returns, and what it has asked of the network layer is settled by
    the encoding of the header and by the answers of the layer.  If the
    header cannot be encoded, it returns the status of the encoder and
    has posted nothing.  Otherwise it posts the expected receive for the
    response first; if the layer refuses it, it returns [HG_NA_ERROR]
    with nothing else posted.  Otherwise it then posts the unexpected
    send of the encoded request, for the same handle, address and tag,
    and returns [HG_SUCCESS] when the layer accepts it and [HG_NA_ERROR]
    when not. *)
Theorem forward_posts_receive_first {codec : HeaderCodec}
    {user : UserCode} (m : Mem) (handle : ptr)
    (callback : fnptr) (arg extra : ptr) (h : hg_handle) (c : hg_class)
    (buf : buffer) :
  is_null handle = false ->
  handles m !! handle = Some h ->
  h_in_buf h = Some buf ->
  classes m !! h_hg_class h = Some c ->
  na_addr_is_self (na_class c) (h_addr h) = false ->
  let enc :=
    hg_proc_header_request buf (h_in_buf_size h)
      (hg_proc_header_request_init (h_id h) extra) HG_ENCODE in
  let t := fst (hg_gen_request_tag c) in
  let recv :=
    NA_Msg_recv_expected CB_recv_output handle (h_out_buf_size h)
      (h_addr h) t in
  let send :=
    NA_Msg_send_unexpected CB_send_input handle (Some (snd (fst enc)))
      (h_in_buf_size h) (h_addr h) t in
  let s1 := next_na_status m in
  let s2 := second_na_status m in
  exists m',
    HG_Forward_buf handle callback arg extra m =
      Some (if negb (hg_ok (fst (fst enc))) then fst (fst enc)
            else if na_ok s1 && na_ok s2 then HG_SUCCESS else HG_NA_ERROR,
            m',
            if negb (hg_ok (fst (fst enc))) then []
            else if negb (na_ok s1) then [EvNa recv s1]
            else [EvNa recv s1; EvNa send s2]).
Proof.
  intros Hnn Hh Hbuf Hc Hself. cbv zeta.
  unfold HG_Forward_buf. rewrite Hnn.
  run_with modify_handle_run.
  run_with load_handle_run.
  fields. rewrite Hbuf. simpl deref. rewrite bind_ret.
  destruct (hg_proc_header_request buf (h_in_buf_size h)
              (hg_proc_header_request_init (h_id h) extra) HG_ENCODE)
    as [[r buf'] hdr'] eqn:Henc.
  cbn [fst snd].
  run_with modify_handle_run.
  destruct (hg_ok r) eqn:Hr; cbn [negb].
  2:{ eexists. reflexivity. }
  run_with load_class_run. rewrite Hself.
  run_with gen_request_tag_at_run.
  run_with modify_handle_run.
  match goal with
  | |- context [bind (na_post ?op) _ ?mm] =>
      destruct (na_post_next op mm)
        as (i1 & m1 & Hp1 & Hi1 & Hh1 & Hc1 & Hx1 & Hna1)
  end.
  rewrite (bind_log _ _ _ _ _ _ Hp1).
  unfold next_na_status in Hp1, Hi1 |- *. fields. fields in Hh1.
  fields in Hna1. fields in Hi1.
  fold (next_na_status m) in Hi1 |- *.
  destruct (na_ok (next_na_status m)) eqn:Hok1.
  2:{ (* the network layer refused the receive *)
      assert (i1 = None) as -> by (by apply Hi1).
      rewrite bind_ret. cbn [negb andb].
      eexists. reflexivity. }
  destruct i1 as [i|]; [|by (destruct Hi1 as [Hi1 _]; discriminate Hi1)].
  erewrite bind_log;
    [| apply modify_handle_run; rewrite Hh1; apply lookup_insert_eq].
  rewrite log_nil. fields. cbn [negb andb].
  match goal with
  | |- context [bind (na_post ?op) _ ?mm] =>
      destruct (na_post_next op mm)
        as (i2 & m2 & Hp2 & Hi2 & Hh2 & Hc2 & Hx2 & Hna2)
  end.
  rewrite (bind_log _ _ _ _ _ _ Hp2).
  unfold next_na_status in Hi2 |- *. fields. fields in Hh2. fields in Hi2.
  rewrite Hna1 in Hi2 |- *. fold (second_na_status m) in Hi2 |- *.
  destruct (na_ok (second_na_status m)) eqn:Hok2.
  - destruct i2 as [i2|]; [|by (destruct Hi2 as [Hi2 _]; discriminate Hi2)].
    erewrite bind_log;
      [| apply modify_handle_run; rewrite Hh2; apply lookup_insert_eq].
    rewrite log_nil. cbn [negb].
    eexists. reflexivity.
  - assert (i2 = None) as -> by (by apply Hi2).
    rewrite bind_ret. cbn [negb].
    eexists. reflexivity.
Qed.

(** ** The registry *)

Lemma malloc_run m : mem_oracle m = [] -> malloc m = Some (true, m, []).
Proof. unfold malloc. by intros ->. Qed.

(** Registration of a name when memory is available and the id is not 0:
    the entry of the id is the new one, whatever stood there, as long as
    the old entry has no free callback. *)
Lemma register_rpc_run {hash : HashString} {user : UserCode}
    (m : Mem) (cp : ptr) (c : hg_class) (fm : gmap Z hg_rpc_info)
    (name : string) (cb : fnptr) :
  is_null cp = false ->
  classes m !! cp = Some c ->
  func_map c = Some fm ->
  mem_oracle m = [] ->
  (forall old, fm !! hg_hash_string name = Some old ->
               rpc_free_callback old = NULL) ->
  hg_hash_string name <> 0%Z ->
  HG_Register_rpc cp name cb m =
    Some (hg_hash_string name,
          set_classes
            (<[cp := set_func_map
                       (Some (<[hg_hash_string name :=
                                  {| rpc_cb := cb; rpc_data := NULL;
                                     rpc_free_callback := NULL |}]> fm)) c]>
               (classes m)) m,
          []).
Proof.
  intros Hnn Hc Hfm Hmem Hold Hid.
  unfold HG_Register_rpc. rewrite Hnn.
  run_with malloc_run. cbn [negb].
  run_with malloc_run. cbn [negb].
  unfold hg_hash_table_insert.
  erewrite bind_log.
  2:{ run_with load_class_run. rewrite Hfm. simpl deref. rewrite bind_ret.
      run_with malloc_run. cbn [negb].
      erewrite bind_log.
      2:{ destruct (fm !! hg_hash_string name) as [old|] eqn:Hlook.
          - unfold hg_func_map_value_free. rewrite (Hold old eq_refl).
            reflexivity.
          - reflexivity. }
      rewrite log_nil.
      run_with modify_class_run. reflexivity. }
  rewrite log_nil. cbn [negb].
  destruct (hg_hash_string name =? 0)%Z eqn:E.
  - apply Z.eqb_eq in E. contradiction.
  - reflexivity.
Qed.

(** C6 (as stated, fails).  "az" and "bY" are distinct names with the
    same hash; registering "bY" after "az" returns the id, not 0, and the
    registry then holds the callback of "bY" for that id. *)
Lemma registry_collision_counterexample :
  let run := register_colliding (bulk := bulk_ok) (mem_empty 0) in
  "az" <> "bY" /\
  hg_hash_string (HashString := djb2) "az"
    = hg_hash_string (HashString := djb2) "bY" /\
  result run = Some (5863232, 5863232)%Z /\
  (final run ≫= registered_cb 1%nat 5863232%Z) = Some QUIET_CB.
Proof. vm_compute. repeat split; discriminate. Qed.

(** C6 (amended).  For two distinct names whose hashes collide on an id
    that is not 0 and not yet registered, and with memory available, both
    registrations return the id; the second one does not signal a
    failure, and the registry afterwards holds the callback of the second
    name for that id: the last registration wins. *)
Theorem registry_collision_last_wins {hash : HashString} {user : UserCode}
    (m : Mem) (cp : ptr) (c : hg_class) (fm : gmap Z hg_rpc_info)
    (n1 n2 : string) (cb1 cb2 : fnptr) :
  is_null cp = false ->
  classes m !! cp = Some c ->
  func_map c = Some fm ->
  mem_oracle m = [] ->
  n1 <> n2 ->
  hg_hash_string n1 = hg_hash_string n2 ->
  hg_hash_string n1 <> 0%Z ->
  fm !! hg_hash_string n1 = None ->
  exists m',
    (i1 <- HG_Register_rpc cp n1 cb1 ;;
     i2 <- HG_Register_rpc cp n2 cb2 ;;
     ret (i1, i2)) m
      = Some ((hg_hash_string n1, hg_hash_string n1), m', []) /\
    registered_cb cp (hg_hash_string n1) m' = Some cb2.
Proof.
  intros Hnn Hc Hfm Hmem Hne Hcoll Hid Hnew.
  erewrite bind_log.
  2:{ apply (register_rpc_run m cp c fm n1 cb1); try done.
      intros old Hold. congruence. }
  rewrite log_nil.
  erewrite bind_log.
  2:{ pose (info1 := {| rpc_cb := cb1; rpc_data := NULL;
                        rpc_free_callback := NULL |}).
      apply (register_rpc_run _ cp
               (set_func_map (Some (<[hg_hash_string n1 := info1]> fm)) c)
               (<[hg_hash_string n1 := info1]> fm) n2 cb2).
      - exact Hnn.
      - fields. apply lookup_insert_eq.
      - reflexivity.
      - exact Hmem.
      - rewrite <- Hcoll. intros old. rewrite lookup_insert_eq.
        by intros [= <-].
      - by rewrite <- Hcoll. }
  rewrite log_nil. rewrite <- Hcoll.
  eexists. split; [reflexivity|].
  unfold registered_cb. fields. rewrite lookup_insert_eq. simpl.
  rewrite lookup_insert_eq. reflexivity.
Qed.

Lemma registry_collision_last_wins_witness :
  exists m',
    (i1 <- HG_Register_rpc (hash := djb2) (user := user_code)
             1%nat "az" RESPOND_CB ;;
     i2 <- HG_Register_rpc (hash := djb2) (user := user_code)
             1%nat "bY" QUIET_CB ;;
     ret (i1, i2))
      (after (HG_Init (bulk := bulk_ok) (user := user_code)
                (Some (na_demo 3 false)) 5%nat NULL) (mem_empty 0))
      = Some ((5863232, 5863232)%Z, m', []) /\
    registered_cb 1%nat 5863232%Z m' = Some QUIET_CB.
Proof.
  eapply (registry_collision_last_wins (hash := djb2) (user := user_code)
            _ 1%nat _ ∅ "az" "bY" RESPOND_CB QUIET_CB);
    try reflexivity; try discriminate.
Defined.

Lemma forward_posts_receive_first_witness :
  let m := after (create_echo (bulk := bulk_ok) PEER) (mem_empty 0) in
  let recv := NA_Msg_recv_expected CB_recv_output 3%nat 8%nat PEER 1%Z in
  let send :=
    NA_Msg_send_unexpected CB_send_input 3%nat
      (Some [2090214596; 0; 0; 0; 0; 0; 0; 0]%Z) 8%nat PEER 1%Z in
  (exists m',
     HG_Forward_buf (codec := plain_codec) (user := user_code)
       3%nat ON_FORWARDED NULL HG_BULK_NULL m
       = Some (HG_SUCCESS, m',
               [EvNa recv NA_SUCCESS; EvNa send NA_SUCCESS])) /\
  (exists m',
     HG_Forward_buf (codec := plain_codec) (user := user_code)
       3%nat ON_FORWARDED NULL HG_BULK_NULL
       (set_na_oracle [NA_SUCCESS; NA_PROTOCOL_ERROR] m)
       = Some (HG_NA_ERROR, m',
               [EvNa recv NA_SUCCESS; EvNa send NA_PROTOCOL_ERROR])) /\
  (exists m',
     HG_Forward_buf (codec := plain_codec) (user := user_code)
       3%nat ON_FORWARDED NULL HG_BULK_NULL
       (set_na_oracle [NA_PROTOCOL_ERROR] m)
       = Some (HG_NA_ERROR, m', [EvNa recv NA_PROTOCOL_ERROR])).
Proof.
  intros m recv send.
  pose (na := na_demo 3 false).
  pose (c := {| na_class := na; na_context := 5%nat;
                bulk_class := 1000%nat; bulk_class_external := false;
                func_map :=
                  Some {[ 2090214596%Z :=
                            {| rpc_cb := RESPOND_CB; rpc_data := NULL;
                               rpc_free_callback := NULL |} ]};
                request_tag := 0%Z; request_max_tag := 3%Z |}).
  pose (h := {| h_hg_class := 1%nat; h_context := 2%nat;
                h_callback := NULL; h_arg := NULL;
                h_id := 2090214596%Z; h_cookie := 0%Z; h_tag := 0%Z;
                h_addr := PEER; h_addr_mine := false;
                h_in_buf := Some (hg_proc_buf_alloc 8);
                h_in_buf_size := 8%nat;
                h_out_buf := Some (hg_proc_buf_alloc 8);
                h_out_buf_size := 8%nat;
                h_na_send_op_id := 0%Z; h_na_recv_op_id := 0%Z;
                h_ref_count := 2%Z |}).
  split; [|split].
  - destruct (forward_posts_receive_first (codec := plain_codec)
                (user := user_code) m 3%nat ON_FORWARDED NULL HG_BULK_NULL
                h c (hg_proc_buf_alloc 8)) as [m' Hrun];
      [reflexivity | vm_compute; reflexivity | reflexivity
      | vm_compute; reflexivity | reflexivity |].
    exists m'. exact Hrun.
  - destruct (forward_posts_receive_first (codec := plain_codec)
                (user := user_code)
                (set_na_oracle [NA_SUCCESS; NA_PROTOCOL_ERROR] m)
                3%nat ON_FORWARDED NULL HG_BULK_NULL
                h c (hg_proc_buf_alloc 8)) as [m' Hrun];
      [reflexivity | vm_compute; reflexivity | reflexivity
      | vm_compute; reflexivity | reflexivity |].
    exists m'. exact Hrun.
  - destruct (forward_posts_receive_first (codec := plain_codec)
                (user := user_code) (set_na_oracle [NA_PROTOCOL_ERROR] m)
                3%nat ON_FORWARDED NULL HG_BULK_NULL
                h c (hg_proc_buf_alloc 8)) as [m' Hrun];
      [reflexivity | vm_compute; reflexivity | reflexivity
      | vm_compute; reflexivity | reflexivity |].
    exists m'. exact Hrun.
Defined.

(** ** The defects *)

(** C2 (the source departs from the specification). The origin of an
    exchange calls [HG_Trigger] for at most two completions, with 9 in the
    variable behind [actual_count], when one handle is on the completion
    queue: the completion callback of that handle is called, the wait for
    a second completion times out, [HG_Trigger] returns [HG_TIMEOUT] and
    the variable still holds 9, not the count 1. *)
Theorem trigger_timeout_skips_actual_count :
  let run := origin_exchange (bulk := bulk_ok) 2 (mem_empty 0) in
  result run = Some (HG_TIMEOUT, Some 9%nat) /\
  callbacks (events run) = [ON_FORWARDED].
Proof. vm_compute. split; reflexivity. Qed.

(** Whenever [HG_Trigger] leaves its loop by a jump to [done], the
    variable behind [actual_count] keeps its content. *)
Lemma trigger_failure_keeps_actual_count {user : UserCode}
    cp xp timeout max_count actual_count m r out m' ev :
  HG_Trigger cp xp timeout max_count actual_count m = Some ((r, out), m', ev) ->
  r <> HG_SUCCESS -> out = actual_count.
Proof.
  unfold HG_Trigger. intros Hrun Hr.
  destruct (is_null cp); [by injection Hrun as <- <- <- <-|].
  destruct (is_null xp); [by injection Hrun as <- <- <- <-|].
  apply bind_Some in Hrun as (e & m1 & e1 & e2 & _ & Hk & _).
  destruct e as [count|r' count]; injection Hk as <- <- <- <-; done.
Qed.

(** C4 (the source departs from the specification). The same exchange,
    "echo" forwarded with completion callback [ON_FORWARDED] and answered
    by an RPC callback that responds with completion callback
    [ON_RESPONDED]: over the network the target runs the RPC callback and
    [ON_RESPONDED], and the origin runs [ON_FORWARDED]; on the self-
    dispatch path the process runs the RPC callback and [ON_RESPONDED]
    only: [HG_Respond_buf] has replaced the callback that [HG_Forward_buf]
    stored in the one handle, and [ON_FORWARDED] is never called. *)
Theorem self_dispatch_drops_forward_callback :
  let self := self_exchange (bulk := bulk_ok) (mem_empty 0) in
  let target :=
    target_exchange (bulk := bulk_ok) (network_request (bulk := bulk_ok))
      (mem_empty 0) in
  let origin := origin_exchange (bulk := bulk_ok) 1 (mem_empty 0) in
  result target = Some (HG_SUCCESS, Some 1%nat) /\
  result origin = Some (HG_SUCCESS, Some 1%nat) /\
  callbacks (events target) ++ callbacks (events origin)
    = [RESPOND_CB; ON_RESPONDED; ON_FORWARDED] /\
  result self = Some (HG_TIMEOUT, Some 9%nat) /\
  callbacks (events self) = [RESPOND_CB; ON_RESPONDED] /\
  (final self ≫= queue_at 2%nat) = Some [].
Proof. vm_compute. repeat split; reflexivity. Qed.

(** C5 (as stated, fails).  A handle is pending on the completion queue
    of a context whose bulk context cannot be destroyed:
    [HG_Context_destroy] returns the error of the bulk layer, not
    [HG_PROTOCOL_ERROR]. *)
Lemma context_destroy_bulk_error_counterexample :
  let m := after (forward_echo (bulk := bulk_busy) SELF) (mem_empty 0) in
  queue_at 2%nat m = Some [3%nat] /\
  result (HG_Context_destroy (bulk := bulk_busy) 2%nat m) = Some HG_NA_ERROR.
Proof. vm_compute. split; reflexivity. Qed.

(** C10 (the source departs from the specification). When the allocation
    of the input buffer fails, and likewise that of the output buffer, the
    internal constructor returns the address of the handle it has just
    passed to [hg_destroy], not the null pointer; [HG_Create] sees no
    failure, returns [HG_SUCCESS] and stores that address in the caller's
    variable. Fresh memory holds 0 here. *)
Theorem create_ignores_buffer_failure :
  let no_in := create_internal (bulk := bulk_ok) (mem_short 8 0) in
  let no_out := create_internal (bulk := bulk_ok) (mem_short 9 0) in
  result no_in = Some 3%nat /\
  (final no_in ≫= fun m => h_in_buf <$> handles m !! 3%nat) = Some None /\
  result no_out = Some 3%nat /\
  (final no_out ≫= fun m => h_out_buf <$> handles m !! 3%nat) = Some None /\
  result (create_echo (bulk := bulk_ok) PEER (mem_short 8 0))
    = Some (HG_SUCCESS, Some 3%nat) /\
  result (create_echo (bulk := bulk_ok) PEER (mem_short 9 0))
    = Some (HG_SUCCESS, Some 3%nat).
Proof. vm_compute. repeat split; reflexivity. Qed.

(** C8 (the source departs from the specification). First run: the
    allocation of the input buffer fails in [HG_Create]; the constructor
    decrements a count that was never set, the handle stays allocated with
    count -1, [HG_Create] raises it to 0, and the two calls to
    [HG_Destroy] that a program owes take it to -2: nothing is ever freed.
    Second run: a request for an id that is not registered arrives; the
    handle of the listen pump leaves the processing list with count 1, and
    it is still allocated when the context has been destroyed and the
    class finalised. *)
Theorem refcount_discipline_broken :
  let built := create_internal (bulk := bulk_ok) (mem_short 8 0) in
  let created := create_echo (bulk := bulk_ok) PEER (mem_short 8 0) in
  let released := create_and_release (bulk := bulk_ok) (mem_short 8 0) in
  let dropped := unmatched_request (bulk := bulk_ok) (mem_empty 0) in
  (final built ≫= ref_count_at 3%nat) = Some (-1)%Z /\
  (final created ≫= ref_count_at 3%nat) = Some 0%Z /\
  result released = Some (HG_SUCCESS, HG_SUCCESS) /\
  (final released ≫= ref_count_at 3%nat) = Some (-2)%Z /\
  filter (fun e => is_free e = true) (events released) = [] /\
  result dropped = Some (HG_SUCCESS, HG_SUCCESS) /\
  (final dropped ≫= ref_count_at 3%nat) = Some 1%Z /\
  filter (fun e => is_free e = true) (events dropped)
    = [EvFree (ObjContext 2%nat); EvFree (ObjClass 1%nat)].
Proof. vm_compute. repeat split; reflexivity. Qed.

(** ** What leaves the contexts alone *)

Lemma keeps_ret {X} (f : Mem -> X) {A} (a : A) : keeps f (ret a).
Proof. by intros m a' m' ev [= <- <- <-]. Qed.

Lemma keeps_ub {X} (f : Mem -> X) {A} : keeps f (@ub A).
Proof. intros m a m' ev [=]. Qed.

Lemma keeps_emit {X} (f : Mem -> X) e : keeps f (emit e).
Proof. by intros m a' m' ev [= <- <- <-]. Qed.

Lemma keeps_bind {X} (f : Mem -> X) {A B} (c : M A) (k : A -> M B) :
  keeps f c -> (forall a, keeps f (k a)) -> keeps f (bind c k).
Proof.
  intros Hc Hk m b m2 ev Hb.
  apply bind_Some in Hb as (a & m1 & e1 & e2 & H1 & H2 & ->).
  rewrite (Hk _ _ _ _ _ H2). by eapply Hc.
Qed.

Lemma keeps_contexts_load_class p : keeps contexts (load_class p).
Proof.
  unfold load_class. intros m a m' ev.
  destruct (classes m !! p); [|done]. by intros [= <- <- <-].
Qed.

Lemma keeps_contexts_load_handle p : keeps contexts (load_handle p).
Proof.
  unfold load_handle. intros m a m' ev.
  destruct (handles m !! p); [|done]. by intros [= <- <- <-].
Qed.

Lemma keeps_contexts_store_handle p h : keeps contexts (store_handle p h).
Proof. by intros m a m' ev [= <- <- <-]. Qed.

Lemma keeps_contexts_free_handle p : keeps contexts (free_handle p).
Proof.
  unfold free_handle. intros m a m' ev.
  destruct (handles m !! p); [|done]. by intros [= <- <- <-].
Qed.

Lemma keeps_contexts_malloc : keeps contexts malloc.
Proof.
  unfold malloc. intros m a m' ev.
  destruct (mem_oracle m); by intros [= <- <- <-].
Qed.

Lemma keeps_contexts_na_call op : keeps contexts (na_call op).
Proof.
  unfold na_call. intros m a m' ev.
  destruct (na_oracle m); by intros [= <- <- <-].
Qed.

Lemma keeps_contexts_timedwait : keeps contexts hg_thread_cond_timedwait.
Proof.
  unfold hg_thread_cond_timedwait. intros m a m' ev.
  destruct (wait_oracle m); by intros [= <- <- <-].
Qed.

Create HintDb keeps.
#[global] Hint Resolve keeps_ret keeps_ub keeps_emit keeps_contexts_load_class
  keeps_contexts_load_handle keeps_contexts_store_handle
  keeps_contexts_free_handle keeps_contexts_malloc keeps_contexts_na_call
  keeps_contexts_timedwait : keeps.

Ltac keeps_step :=
  match goal with
  | |- keeps _ (bind _ _) => apply keeps_bind; [|intros ?]
  | |- keeps _ (if ?b then _ else _) => destruct b
  | |- keeps _ (match ?x with _ => _ end) => destruct x
  | |- keeps _ _ => solve [eauto with keeps]
  end.

Ltac keeps_auto := repeat keeps_step.

Lemma keeps_contexts_hg_destroy p : keeps contexts (hg_destroy p).
Proof. unfold hg_destroy. keeps_auto. Qed.

(** ** Destroying a context *)

Lemma load_context_inv p m a m' ev :
  load_context p m = Some (a, m', ev) ->
  contexts m !! p = Some a /\ m' = m /\ ev = [].
Proof.
  unfold load_context. destruct (contexts m !! p); [|done].
  by intros [= <- <- <-].
Qed.

Lemma removelast_take {A} (l : list A) :
  removelast l = take (length l - 1) l.
Proof.
  induction l as [|x l IH]; [done|].
  destruct l as [|y l]; [done|].
  change (removelast (x :: y :: l)) with (x :: removelast (y :: l)).
  rewrite IH. simpl. by rewrite Nat.sub_0_r.
Qed.

Section Drain.
Context {user : UserCode}.

(** The completion callbacks do not touch the contexts. *)
Hypothesis cb_keeps : forall fn info, keeps contexts (cb_sem fn info).

(** When the loop of [HG_Trigger] ends by its condition after [n] rounds,
    the queue held at least [n] handles and has lost its last [n]. *)
Lemma trigger_loop_pops n : forall xp count m c k m' ev,
  contexts m !! xp = Some c ->
  hg_trigger_loop n xp count m = Some (LoopEnd k, m', ev) ->
  (n <= length (completion_queue c))%nat /\
  contexts m' !! xp =
    Some (set_completion_queue
            (take (length (completion_queue c) - n) (completion_queue c)) c).
Proof.
  induction n as [|n IH]; intros xp count m c k m' ev Hc Hrun.
  - simpl in Hrun. injection Hrun as <- <- <-.
    split; [lia|]. rewrite Nat.sub_0_r, firstn_all. rewrite Hc.
    by destruct c.
  - simpl in Hrun.
    apply bind_Some in Hrun as (c0 & m0 & e0 & e0' & Hload & Hrun & ->).
    apply load_context_inv in Hload as (Hc0 & -> & ->).
    rewrite Hc in Hc0. injection Hc0 as <-.
    destruct (completion_queue c) as [|q0 q] eqn:Hq.
    { apply bind_Some in Hrun as (? & ? & ? & ? & _ & Hret & _).
      discriminate Hret. }
    rewrite <- Hq in *.
    apply bind_Some in Hrun as ([] & m1 & e1 & e1' & Hstore & Hrun & ->).
    injection Hstore as <- <-.
    destruct (is_null (List.last (completion_queue c) NULL));
      [discriminate Hrun|].
    apply bind_Some in Hrun as (ok & m2 & e2 & e2' & Hmalloc & Hrun & ->).
    apply keeps_contexts_malloc in Hmalloc.
    destruct ok; cbn [negb] in Hrun; [|discriminate Hrun].
    apply bind_Some in Hrun as (h & m3 & e3 & e3' & Hh & Hrun & ->).
    apply keeps_contexts_load_handle in Hh.
    apply bind_Some in Hrun as (hc & m4 & e4 & e4' & Hhc & Hrun & ->).
    apply load_context_inv in Hhc as (_ & -> & ->).
    apply bind_Some in Hrun as ([] & m5 & e5 & e5' & Hcb & Hrun & ->).
    assert (Hm5 : contexts m5 = contexts m3).
    { destruct (negb (is_null (h_callback h))).
      - apply bind_Some in Hcb as ([] & ? & ? & ? & [= <- <-] & Hcb & _).
        apply bind_Some in Hcb as (? & m6 & ? & ? & Hcb & [= <- <-] & _).
        by apply cb_keeps in Hcb.
      - by injection Hcb as <- <-. }
    apply bind_Some in Hrun as ([] & m6 & e6 & e6' & Hd & Hrun & ->).
    apply keeps_contexts_hg_destroy in Hd.
    pose (c1 := set_completion_queue (removelast (completion_queue c)) c).
    assert (Hc1 : contexts m6 !! xp = Some c1).
    { rewrite Hd, Hm5, Hh, Hmalloc. simpl. apply lookup_insert_eq. }
    destruct (IH xp (S count) m6 c1 k m' _ Hc1 Hrun) as [Hle Hfin].
    subst c1. simpl in Hle, Hfin.
    rewrite removelast_take in Hle, Hfin.
    rewrite length_take in Hle, Hfin.
    assert (Hpos : (0 < length (completion_queue c))%nat)
      by (rewrite Hq; simpl; lia).
    split; [lia|].
    rewrite Hfin. f_equal. unfold set_completion_queue. simpl. f_equal.
    rewrite take_take. f_equal. lia.
Qed.

End Drain.

Section DrainedContext.
Context {bulk : BulkLayer} {user : UserCode}.

(** A jump to [done] out of the loop of [HG_Trigger] carries a failure. *)
Lemma trigger_loop_goto_fails n : forall xp count m r k m' ev,
  hg_trigger_loop n xp count m = Some (GotoDone r k, m', ev) ->
  r <> HG_SUCCESS.
Proof.
  induction n as [|n IH]; intros xp count m r k m' ev Hrun; [discriminate|].
  simpl in Hrun.
  apply bind_Some in Hrun as (c0 & m0 & e0 & e0' & _ & Hrun & _).
  destruct (completion_queue c0) as [|q0 q].
  { apply bind_Some in Hrun as (? & ? & ? & ? & _ & [= <- _ _ _] & _).
    discriminate. }
  apply bind_Some in Hrun as ([] & m1 & e1 & e1' & _ & Hrun & _).
  destruct (is_null _); [injection Hrun as <- _ _ _; discriminate|].
  apply bind_Some in Hrun as (ok & m2 & e2 & e2' & _ & Hrun & _).
  destruct ok; cbn [negb] in Hrun;
    [|injection Hrun as <- _ _ _; discriminate].
  apply bind_Some in Hrun as (h & m3 & e3 & e3' & _ & Hrun & _).
  apply bind_Some in Hrun as (hc & m4 & e4 & e4' & _ & Hrun & _).
  apply bind_Some in Hrun as ([] & m5 & e5 & e5' & _ & Hrun & _).
  apply bind_Some in Hrun as ([] & m6 & e6 & e6' & _ & Hrun & _).
  by eapply IH.
Qed.

(** C5 (amended).  For a context whose completion queue is not empty and
    whose bulk context the bulk layer agrees to destroy,
    [HG_Context_destroy] returns [HG_PROTOCOL_ERROR] and keeps the
    context; once an [HG_Trigger] for as many completions as the queue
    held has returned [HG_SUCCESS], [HG_Context_destroy] on the same
    context returns [HG_SUCCESS] and frees it.  (The completion callbacks
    do not modify contexts, and the bulk layer accepts the null bulk
    context that the first call left.) *)
Theorem context_destroy_after_drain (m : Mem) (cp xp : ptr)
    (c : hg_context) :
  (forall fn info, keeps contexts (cb_sem fn info)) ->
  is_null cp = false ->
  is_null xp = false ->
  contexts m !! xp = Some c ->
  completion_queue c <> [] ->
  HG_Bulk_context_destroy (bulk_context c) = HG_SUCCESS ->
  HG_Bulk_context_destroy NULL = HG_SUCCESS ->
  exists m1,
    HG_Context_destroy xp m = Some (HG_PROTOCOL_ERROR, m1, []) /\
    forall timeout actual_count out m2 ev,
      HG_Trigger cp xp timeout (length (completion_queue c)) actual_count m1
        = Some ((HG_SUCCESS, out), m2, ev) ->
      exists m3,
        HG_Context_destroy xp m2
          = Some (HG_SUCCESS, m3, [EvFree (ObjContext xp)]) /\
        contexts m3 !! xp = None.
Proof.
  intros Hcb Hcp Hxp Hc Hq Hbulk Hnull.
  pose (c1 := set_bulk_context NULL c).
  exists (set_contexts (<[xp := c1]> (contexts m)) m). split.
  - unfold HG_Context_destroy. rewrite Hxp.
    run_with load_context_run. rewrite Hbulk. cbn [hg_ok negb].
    run_with modify_context_run.
    destruct (completion_queue c); [done | reflexivity].
  - intros timeout actual_count out m2 ev Hrun.
    unfold HG_Trigger in Hrun. rewrite Hcp, Hxp in Hrun.
    apply bind_Some in Hrun as (e & m' & e1 & e2 & Hloop & Hret & ->).
    destruct e as [k|r k].
    2:{ injection Hret as -> _ _ _.
        by apply trigger_loop_goto_fails in Hloop. }
    injection Hret as _ <- _.
    assert (Hc1 : contexts (set_contexts (<[xp := c1]> (contexts m)) m) !! xp
                  = Some c1) by (simpl; apply lookup_insert_eq).
    destruct (trigger_loop_pops Hcb _ _ _ _ _ _ _ _ Hc1 Hloop) as [_ Hfin].
    simpl in Hfin. rewrite Nat.sub_diag in Hfin.
    change (take 0 (completion_queue c)) with (@nil ptr) in Hfin.
    subst c1.
    unfold HG_Context_destroy. rewrite Hxp.
    run_with load_context_run. rewrite Hnull. cbn [hg_ok negb].
    run_with modify_context_run.
    erewrite bind_log.
    2:{ unfold free_context. fields. rewrite lookup_insert_eq.
        reflexivity. }
    eexists. split; [reflexivity|].
    fields. apply lookup_delete_eq.
Qed.

End DrainedContext.

Lemma user_code_cb_keeps fn info :
  keeps contexts (cb_sem (UserCode := user_code) fn info).
Proof. simpl. apply keeps_ret. Qed.

Lemma context_destroy_after_drain_witness :
  let m := after (forward_echo (bulk := bulk_ok) SELF) (mem_empty 0) in
  exists m1,
    HG_Context_destroy (bulk := bulk_ok) 2%nat m
      = Some (HG_PROTOCOL_ERROR, m1, []) /\
    forall timeout actual_count out m2 ev,
      HG_Trigger (user := user_code) 1%nat 2%nat timeout 1 actual_count m1
        = Some ((HG_SUCCESS, out), m2, ev) ->
      exists m3,
        HG_Context_destroy (bulk := bulk_ok) 2%nat m2
          = Some (HG_SUCCESS, m3, [EvFree (ObjContext 2%nat)]) /\
        contexts m3 !! 2%nat = None.
Proof.
  intros m.
  apply (context_destroy_after_drain (bulk := bulk_ok) (user := user_code)
           m 1%nat 2%nat
           {| ctx_hg_class := 1%nat; bulk_context := 1001%nat;
              completion_queue := [3%nat]; processing_list := [] |}).
  - apply user_code_cb_keeps.
  - reflexivity.
  - reflexivity.
  - vm_compute. reflexivity.
  - discriminate.
  - reflexivity.
  - reflexivity.
Defined.

(** The scenario of the specification: a handle is pending, the context
    cannot be destroyed; after one [HG_Trigger] it can. *)
Example destroy_pending_then_drained :
  result (destroy_pending (bulk := bulk_ok) (mem_empty 0))
    = Some HG_PROTOCOL_ERROR /\
  result (destroy_drained (bulk := bulk_ok) (mem_empty 0))
    = Some ((HG_SUCCESS, Some 1%nat), HG_SUCCESS).
Proof. vm_compute. split; reflexivity. Qed.

(** ** The cookie *)

Lemma hg_ok_success r : hg_ok r = true <-> r = HG_SUCCESS.
Proof. destruct r; simpl; split; congruence. Qed.

Lemma na_ok_success r : na_ok r = true <-> r = NA_SUCCESS.
Proof. destruct r; simpl; split; congruence. Qed.

Section Cookie.
Context {codec : HeaderCodec} {user : UserCode}.

(** The processor enters the RPC callback with the cookie of the request
    header on the handle; the fields a response is sent from, the
    classes and the answers of the network layer are untouched. *)
Lemma process_stores_cookie (m : Mem) (t : ptr) (h : hg_handle)
    (c : hg_class) (fm : gmap Z hg_rpc_info) (info : hg_rpc_info)
    (msg msg' : buffer) (rh : hg_header_request) :
  handles m !! t = Some h ->
  h_in_buf h = Some msg ->
  hg_proc_header_request msg (h_in_buf_size h)
    (hg_proc_header_request_init 0%Z HG_BULK_NULL) HG_DECODE
    = (HG_SUCCESS, msg', rh) ->
  hg_proc_header_request_verify rh = HG_SUCCESS ->
  classes m !! h_hg_class h = Some c ->
  func_map c = Some fm ->
  fm !! req_id rh = Some info ->
  is_null (rpc_cb info) = false ->
  exists m0 h0,
    handles m0 !! t = Some h0 /\
    h_cookie h0 = req_cookie rh /\
    hg_process t m
      = log [EvRpcCb (rpc_cb info) t] (rpc_cb_sem (rpc_cb info) t m0) /\
    (h_out_buf h0 = h_out_buf h /\ h_out_buf_size h0 = h_out_buf_size h /\
     h_addr h0 = h_addr h /\ h_tag h0 = h_tag h /\
     h_hg_class h0 = h_hg_class h) /\
    classes m0 = classes m /\ na_oracle m0 = na_oracle m.
Proof.
  intros Hh Hin Hdec Hver Hc Hfm Hlook Hcb.
  unfold hg_process.
  run_with load_handle_run. rewrite Hin. simpl deref. rewrite bind_ret.
  rewrite Hdec.
  run_with modify_handle_run. cbn [hg_ok negb].
  rewrite Hver. cbn [hg_ok negb].
  run_with modify_handle_run.
  run_with modify_handle_run.
  run_with load_class_run. rewrite Hfm. simpl deref. rewrite bind_ret.
  rewrite Hlook, Hcb.
  run_with modify_handle_run.
  rewrite bind_emit.
  eexists _, _. split; [|split; [|split; [reflexivity|]]].
  - fields. apply lookup_insert_eq.
  - reflexivity.
  - repeat split; reflexivity.
Qed.

(** [HG_Respond_buf] on a live handle whose output buffer is allocated
    and whose address is not the process's own: it encodes a header
    that holds the cookie of the handle and, if that works, posts the
    send of the buffer. *)
Lemma respond_run (m : Mem) (t : ptr) (h : hg_handle) (c : hg_class)
    (out : buffer) (cb : fnptr) (arg : ptr) :
  is_null t = false ->
  handles m !! t = Some h ->
  h_out_buf h = Some out ->
  classes m !! h_hg_class h = Some c ->
  na_addr_is_self (na_class c) (h_addr h) = false ->
  let enc :=
    hg_proc_header_response out (h_out_buf_size h)
      (set_resp_cookie (h_cookie h) hg_proc_header_response_init)
      HG_ENCODE in
  let s := next_na_status m in
  exists m',
    HG_Respond_buf t cb arg m =
      Some (if negb (hg_ok (fst (fst enc))) then fst (fst enc)
            else if na_ok s then HG_SUCCESS else HG_NA_ERROR,
            m',
            if negb (hg_ok (fst (fst enc))) then []
            else [EvNa (NA_Msg_send_expected CB_send_output t
                          (Some (snd (fst enc))) (h_out_buf_size h)
                          (h_addr h) (h_tag h)) s]).
Proof.
  intros Hnn Hh Hout Hc Hself. cbv zeta.
  unfold HG_Respond_buf. rewrite Hnn.
  run_with modify_handle_run.
  run_with load_handle_run. fields. rewrite Hout. simpl deref.
  rewrite bind_ret.
  destruct (hg_proc_header_response out (h_out_buf_size h)
              (set_resp_cookie (h_cookie h) hg_proc_header_response_init)
              HG_ENCODE) as [[r sent] hdr1] eqn:Henc.
  cbn [fst snd].
  run_with modify_handle_run.
  destruct (hg_ok r) eqn:Hr; cbn [negb].
  2:{ eexists. reflexivity. }
  run_with load_class_run. fields. rewrite Hself.
  match goal with
  | |- context [bind (na_post ?op) _ ?mm] =>
      destruct (na_post_next op mm)
        as (i1 & m1 & Hp1 & Hi1 & Hh1 & Hc1 & Hx1 & Hna1)
  end.
  rewrite (bind_log _ _ _ _ _ _ Hp1).
  unfold next_na_status in Hi1 |- *. fields. fields in Hh1. fields in Hi1.
  fold (next_na_status m) in Hi1 |- *.
  destruct (na_ok (next_na_status m)) eqn:Hok1.
  - destruct i1 as [i|]; [|by (destruct Hi1 as [Hi1 _]; discriminate Hi1)].
    erewrite bind_log;
      [| apply modify_handle_run; rewrite Hh1; apply lookup_insert_eq].
    rewrite log_nil. cbn [negb]. eexists. reflexivity.
  - assert (i1 = None) as -> by (by apply Hi1).
    rewrite bind_ret. cbn [negb]. eexists. reflexivity.
Qed.

(** The recv-output callback on a handle whose output buffer holds a
    message: it decodes the header from the buffer, and completes the
    handle when the header decoded passes the check. *)
Lemma recv_output_run (m : Mem) (o : ptr) (h : hg_handle)
    (info : na_cb_info) (msg buf' : buffer) (hdr' : hg_header_response) :
  handles m !! o = Some h ->
  h_out_buf h = Some msg ->
  nci_arg info = o ->
  nci_ret info = NA_SUCCESS ->
  hg_proc_header_response msg (h_out_buf_size h)
    {| resp_cookie := junk m |} HG_DECODE = (HG_SUCCESS, buf', hdr') ->
  hg_recv_output_cb info m =
    (if negb (hg_ok (hg_proc_header_response_verify hdr'))
     then ret NA_SUCCESS
     else (_ <- hg_complete o ;; ret NA_SUCCESS))
      (set_handles (<[o := set_out_buf (Some buf') h]> (handles m)) m).
Proof.
  intros Hh Hout Harg Hret Hdec.
  unfold hg_recv_output_cb. rewrite Harg, Hret. cbn [na_ok negb].
  run_with load_handle_run.
  erewrite bind_log; [|reflexivity]. rewrite log_nil.
  rewrite Hout. simpl deref. rewrite bind_ret.
  rewrite Hdec.
  run_with modify_handle_run. cbn [hg_ok negb].
  reflexivity.
Qed.

(** C7.  With a codec that is bidirectional on the cookie, the cookie
    goes round.  When a request whose header decodes to [rh] is
    processed on a target handle, the RPC callback is entered with the
    cookie of [rh] stored on the handle.  [HG_Respond_buf], called for
    the handle at that point or in any later state in which the handle
    still holds that cookie, encodes a header with the cookie of [rh]
    into the output buffer and, unless the encoder fails, posts the send
    of that buffer, whatever the network layer answers.  At the origin,
    the recv-output callback that finds this message in the output
    buffer of its handle decodes from it a header whose cookie is the
    cookie of [rh], and goes on with that header. *)
Theorem cookie_round_trip (m : Mem) (t : ptr) (h : hg_handle)
    (c : hg_class) (fm : gmap Z hg_rpc_info) (info : hg_rpc_info)
    (msg msg' : buffer) (rh : hg_header_request) :
  response_cookie_survives ->
  is_null t = false ->
  handles m !! t = Some h ->
  h_in_buf h = Some msg ->
  hg_proc_header_request msg (h_in_buf_size h)
    (hg_proc_header_request_init 0%Z HG_BULK_NULL) HG_DECODE
    = (HG_SUCCESS, msg', rh) ->
  hg_proc_header_request_verify rh = HG_SUCCESS ->
  classes m !! h_hg_class h = Some c ->
  func_map c = Some fm ->
  fm !! req_id rh = Some info ->
  is_null (rpc_cb info) = false ->
  let encoded out size :=
    hg_proc_header_response out size
      (set_resp_cookie (req_cookie rh) hg_proc_header_response_init)
      HG_ENCODE in
  let respond_result enc s :=
    if negb (hg_ok (fst (fst enc))) then fst (fst enc)
    else if na_ok s then HG_SUCCESS else HG_NA_ERROR in
  let respond_events enc s h1 :=
    if negb (hg_ok (fst (fst enc))) then []
    else [EvNa (NA_Msg_send_expected CB_send_output t
                  (Some (snd (fst enc))) (h_out_buf_size h1)
                  (h_addr h1) (h_tag h1)) s] in
  (exists m0 h0,
     handles m0 !! t = Some h0 /\
     h_cookie h0 = req_cookie rh /\
     hg_process t m
       = log [EvRpcCb (rpc_cb info) t] (rpc_cb_sem (rpc_cb info) t m0) /\
     forall out cb arg,
       h_out_buf h = Some out ->
       na_addr_is_self (na_class c) (h_addr h) = false ->
       let enc := encoded out (h_out_buf_size h) in
       exists m2,
         HG_Respond_buf t cb arg m0 =
           Some (respond_result enc (next_na_status m), m2,
                 respond_events enc (next_na_status m) h)) /\
  (forall m1 h1 c1 out cb arg,
     handles m1 !! t = Some h1 ->
     h_cookie h1 = req_cookie rh ->
     h_out_buf h1 = Some out ->
     classes m1 !! h_hg_class h1 = Some c1 ->
     na_addr_is_self (na_class c1) (h_addr h1) = false ->
     let enc := encoded out (h_out_buf_size h1) in
     exists m2,
       HG_Respond_buf t cb arg m1 =
         Some (respond_result enc (next_na_status m1), m2,
               respond_events enc (next_na_status m1) h1)) /\
  (forall out size mo o ho info_o,
     let enc := encoded out size in
     fst (fst enc) = HG_SUCCESS ->
     handles mo !! o = Some ho ->
     h_out_buf ho = Some (snd (fst enc)) ->
     h_out_buf_size ho = size ->
     nci_arg info_o = o ->
     nci_ret info_o = NA_SUCCESS ->
     exists buf' hdr',
       hg_proc_header_response (snd (fst enc)) size
         {| resp_cookie := junk mo |} HG_DECODE = (HG_SUCCESS, buf', hdr') /\
       resp_cookie hdr' = req_cookie rh /\
       hg_recv_output_cb info_o mo =
         (if negb (hg_ok (hg_proc_header_response_verify hdr'))
          then ret NA_SUCCESS
          else (_ <- hg_complete o ;; ret NA_SUCCESS))
           (set_handles (<[o := set_out_buf (Some buf') ho]> (handles mo))
              mo)).
Proof.
  intros Hlaw Hnn Hh Hin Hdec Hver Hc Hfm Hlook Hcb. cbv zeta.
  split; [|split].
  - destruct (process_stores_cookie m t h c fm info msg msg' rh
                Hh Hin Hdec Hver Hc Hfm Hlook Hcb)
      as (m0 & h0 & Hh0 & Hk & Hrun & (Ho & Hs & Ha & Ht & Hcl) & Hc0 & Hna).
    exists m0, h0. split; [exact Hh0|]. split; [exact Hk|].
    split; [exact Hrun|].
    intros out cb arg Hout Hself.
    destruct (respond_run m0 t h0 c out cb arg Hnn Hh0) as [m2 Hresp].
    + by rewrite Ho.
    + by rewrite Hcl, Hc0.
    + by rewrite Ha.
    + exists m2. rewrite Hresp.
      unfold next_na_status. by rewrite Hk, Hs, Ha, Ht, Hna.
  - intros m1 h1 c1 out cb arg Hh1 Hk Hout Hc1 Hself.
    destruct (respond_run m1 t h1 c1 out cb arg Hnn Hh1 Hout Hc1 Hself)
      as [m2 Hresp].
    exists m2. rewrite Hresp. by rewrite Hk.
  - intros out size mo o ho info_o Henc Hho Hout Hsize Harg Hret.
    destruct (hg_proc_header_response out size
                (set_resp_cookie (req_cookie rh)
                   hg_proc_header_response_init) HG_ENCODE)
      as [[r sent] hdr1] eqn:Hencode.
    cbn [fst snd] in *. subst r.
    destruct (Hlaw _ _ _ _ _ {| resp_cookie := junk mo |} Hencode)
      as (buf' & hdr' & Hd & Hk).
    exists buf', hdr'. split; [exact Hd|]. split; [exact Hk|].
    eapply recv_output_run; try eassumption.
    by rewrite Hsize.
Qed.

End Cookie.

Lemma plain_codec_cookie_survives :
  response_cookie_survives (codec := plain_codec).
Proof.
  intros buf size hdr buf' hdr1 hdr0. simpl. unfold plain_response.
  destruct (size <? 1)%nat eqn:Hsize; simpl; [discriminate|].
  destruct (length buf <? 1)%nat eqn:Hlen; simpl; [discriminate|].
  intros [= <- <-]. simpl.
  exists (resp_cookie hdr :: drop 1 buf), {| resp_cookie := resp_cookie hdr |}.
  split; reflexivity.
Qed.

Lemma cookie_round_trip_witness :
  let m := target_processing in
  let send :=
    EvNa (NA_Msg_send_expected CB_send_output 3%nat (Some cookie_response)
            8%nat 8%nat 1%Z) NA_SUCCESS in
  (exists m0 h0,
     handles m0 !! 3%nat = Some h0 /\
     h_cookie h0 = 77%Z /\
     hg_process (codec := plain_codec) (user := user_code) 3%nat m
       = log [EvRpcCb RESPOND_CB 3%nat]
           (rpc_cb_sem (UserCode := user_code) RESPOND_CB 3%nat m0) /\
     forall cb arg, exists m2,
       HG_Respond_buf (codec := plain_codec) 3%nat cb arg m0
         = Some (HG_SUCCESS, m2, [send])) /\
  (exists ho buf' hdr',
     handles origin_received !! 3%nat = Some ho /\
     hg_proc_header_response (HeaderCodec := plain_codec)
       cookie_response 8 {| resp_cookie := junk origin_received |}
       HG_DECODE = (HG_SUCCESS, buf', hdr') /\
     resp_cookie hdr' = 77%Z /\
     hg_recv_output_cb (codec := plain_codec)
       (nc_info (response_arrival 3%nat cookie_response)) origin_received
       = (if negb (hg_ok (hg_proc_header_response_verify
                            (HeaderCodec := plain_codec) hdr'))
          then ret NA_SUCCESS
          else (_ <- hg_complete 3%nat ;; ret NA_SUCCESS))
           (set_handles
              (<[3%nat := set_out_buf (Some buf') ho]>
                 (handles origin_received))
              origin_received)).
Proof.
  intros m send.
  pose (info := {| rpc_cb := RESPOND_CB; rpc_data := NULL;
                   rpc_free_callback := NULL |}).
  pose (c := {| na_class := na_demo 3 true; na_context := 5%nat;
                bulk_class := 1000%nat; bulk_class_external := false;
                func_map := Some {[ 2090214596%Z := info ]};
                request_tag := 0%Z; request_max_tag := 3%Z |}).
  pose (h := {| h_hg_class := 1%nat; h_context := 2%nat;
                h_callback := NULL; h_arg := NULL;
                h_id := 0%Z; h_cookie := 0%Z; h_tag := 1%Z;
                h_addr := 8%nat; h_addr_mine := true;
                h_in_buf := Some cookie_request;
                h_in_buf_size := 8%nat;
                h_out_buf := Some (hg_proc_buf_alloc 8);
                h_out_buf_size := 8%nat;
                h_na_send_op_id := 0%Z; h_na_recv_op_id := 4%Z;
                h_ref_count := 1%Z |}).
  pose (ho := {| h_hg_class := 1%nat; h_context := 2%nat;
                 h_callback := ON_FORWARDED; h_arg := NULL;
                 h_id := 2090214596%Z; h_cookie := 0%Z; h_tag := 1%Z;
                 h_addr := PEER; h_addr_mine := false;
                 h_in_buf := Some [2090214596; 0; 0; 0; 0; 0; 0; 0]%Z;
                 h_in_buf_size := 8%nat;
                 h_out_buf := Some cookie_response;
                 h_out_buf_size := 8%nat;
                 h_na_send_op_id := 5%Z; h_na_recv_op_id := 4%Z;
                 h_ref_count := 2%Z |}).
  assert (Hlive : handles origin_received !! 3%nat = Some ho)
    by (vm_compute; reflexivity).
  assert (Hnext : next_na_status m = NA_SUCCESS)
    by (vm_compute; reflexivity).
  destruct (cookie_round_trip (codec := plain_codec) (user := user_code)
              m 3%nat h c {[ 2090214596%Z := info ]} info
              cookie_request cookie_request
              {| req_id := 2090214596%Z; req_cookie := 77%Z;
                 req_extra_in_handle := 0%nat |})
    as [(m0 & h0 & Hh0 & Hk & Hrun & Hresp) [_ Horigin]];
    [ apply plain_codec_cookie_survives | reflexivity
    | vm_compute; reflexivity | reflexivity | vm_compute; reflexivity
    | reflexivity | vm_compute; reflexivity | reflexivity
    | vm_compute; reflexivity | reflexivity | ].
  split.
  - exists m0, h0. split; [exact Hh0|]. split; [exact Hk|].
    split; [exact Hrun|]. intros cb arg.
    destruct (Hresp (hg_proc_buf_alloc 8) cb arg eq_refl eq_refl)
      as [m2 H2].
    rewrite Hnext in H2. exists m2. exact H2.
  - destruct (Horigin (hg_proc_buf_alloc 8) 8%nat origin_received 3%nat ho
                (nc_info (response_arrival 3%nat cookie_response))
                eq_refl Hlive eq_refl eq_refl eq_refl eq_refl)
      as (buf' & hdr' & Hd & Hc' & Hcb).
    exists ho, buf', hdr'.
    split; [exact Hlive|]. split; [exact Hd|]. split; [exact Hc'|].
    exact Hcb.
Defined.

(** The target of the scenarios end to end: the engine, run on the
    arrival of a request with cookie 77, sends a response that decodes
    with cookie 77 whatever the header held before, and the origin whose
    recv-output callback finds it queues the handle. *)
Example cookie_in_network_exchange :
  sent_message
    (events (target_exchange (bulk := bulk_ok) cookie_request (mem_empty 0)))
    = cookie_response /\
  (hg_proc_header_response (HeaderCodec := plain_codec)
     cookie_response 8 {| resp_cookie := 5%Z |} HG_DECODE).2
    = {| resp_cookie := 77%Z |} /\
  (final (hg_recv_output_cb (codec := plain_codec)
            (nc_info (response_arrival 3%nat cookie_response))
            origin_received) ≫= queue_at 2%nat) = Some [3%nat].
Proof. vm_compute. repeat split; reflexivity. Qed.

(** ** The bounded loops never stop for lack of rounds *)

Lemma bind_ext {A B} (c : M A) (k1 k2 : A -> M B) m :
  (forall a m1 e1, c m = Some (a, m1, e1) -> k1 a m1 = k2 a m1) ->
  bind c k1 m = bind c k2 m.
Proof.
  intros Hk. unfold bind.
  destruct (c m) as [[[a m1] e1]|] eqn:Hc; [|done].
  by rewrite (Hk a m1 e1).
Qed.

(** The wait of [HG_Trigger] ends: by a timeout. *)
Lemma hg_trigger_wait_returns m :
  exists m', hg_trigger_wait (length (wait_oracle m)) m = Some (tt, m', []).
Proof.
  remember (wait_oracle m) as l eqn:Hl. revert m Hl.
  induction l as [|b l IH]; intros m Hl; simpl.
  - unfold bind, hg_thread_cond_timedwait. rewrite <- Hl. simpl. eauto.
  - unfold bind at 1, hg_thread_cond_timedwait at 1. rewrite <- Hl.
    destruct b; cbn [negb].
    + destruct (IH (set_wait_oracle l m) eq_refl) as [m' Hm'].
      rewrite Hm'. eauto.
    + simpl. eauto.
Qed.

Section Fuel.
Context {hash : HashString} {codec : HeaderCodec} {bulk : BulkLayer}
  {user : UserCode}.

(** The loop of [hg_progress] does one round for each entry of the
    network queue: more rounds than that change nothing. *)
Lemma hg_progress_trigger_fuel cq : forall fuel m,
  (length cq <= fuel)%nat ->
  hg_progress_trigger fuel cq m = hg_progress_trigger (length cq) cq m.
Proof.
  induction cq as [|e cq IH]; intros fuel m Hfuel.
  - destruct fuel; reflexivity.
  - destruct fuel as [|fuel]; [simpl in Hfuel; lia|].
    simpl. apply bind_ext. intros a m1 e1 Ha.
    apply bind_Some in Ha as ([] & ? & ? & ? & _ & Ha & _).
    apply bind_Some in Ha as (? & ? & ? & ? & _ & [= <- _ _] & _).
    simpl. apply IH. simpl in Hfuel. lia.
Qed.

End Fuel.

(** *** The listen pump *)

Lemma keeps_oracle_load_class p : keeps mem_oracle (load_class p).
Proof.
  unfold load_class. intros m a m' ev.
  destruct (classes m !! p); [|done]. by intros [= <- <- <-].
Qed.

Lemma keeps_oracle_load_context p : keeps mem_oracle (load_context p).
Proof.
  unfold load_context. intros m a m' ev.
  destruct (contexts m !! p); [|done]. by intros [= <- <- <-].
Qed.

Lemma keeps_oracle_load_handle p : keeps mem_oracle (load_handle p).
Proof.
  unfold load_handle. intros m a m' ev.
  destruct (handles m !! p); [|done]. by intros [= <- <- <-].
Qed.

Lemma keeps_oracle_store_handle p h : keeps mem_oracle (store_handle p h).
Proof. by intros m a m' ev [= <- <- <-]. Qed.

Lemma keeps_oracle_store_context p c : keeps mem_oracle (store_context p c).
Proof. by intros m a m' ev [= <- <- <-]. Qed.

Lemma keeps_oracle_free_handle p : keeps mem_oracle (free_handle p).
Proof.
  unfold free_handle. intros m a m' ev.
  destruct (handles m !! p); [|done]. by intros [= <- <- <-].
Qed.

Lemma keeps_oracle_fresh : keeps mem_oracle fresh.
Proof. by intros m a m' ev [= <- <- <-]. Qed.

Lemma keeps_oracle_uninit : keeps mem_oracle uninit.
Proof. by intros m a m' ev [= <- <- <-]. Qed.

Lemma keeps_oracle_na_call op : keeps mem_oracle (na_call op).
Proof.
  unfold na_call. intros m a m' ev.
  destruct (na_oracle m); by intros [= <- <- <-].
Qed.

Lemma keeps_contexts_fresh : keeps contexts fresh.
Proof. by intros m a m' ev [= <- <- <-]. Qed.

#[global] Hint Resolve keeps_oracle_load_class keeps_oracle_load_context
  keeps_oracle_load_handle keeps_oracle_store_handle
  keeps_oracle_store_context keeps_oracle_free_handle keeps_oracle_fresh
  keeps_oracle_uninit keeps_oracle_na_call keeps_contexts_fresh : keeps.

Lemma keeps_oracle_modify_handle p f : keeps mem_oracle (modify_handle p f).
Proof. unfold modify_handle. keeps_auto. Qed.

Lemma keeps_contexts_modify_handle p f : keeps contexts (modify_handle p f).
Proof. unfold modify_handle. keeps_auto. Qed.

Lemma keeps_oracle_modify_context p f : keeps mem_oracle (modify_context p f).
Proof. unfold modify_context. keeps_auto. Qed.

Lemma keeps_oracle_na_post op : keeps mem_oracle (na_post op).
Proof. unfold na_post. keeps_auto. Qed.

Lemma keeps_contexts_na_post op : keeps contexts (na_post op).
Proof. unfold na_post. keeps_auto. Qed.

#[global] Hint Resolve keeps_oracle_modify_handle
  keeps_contexts_modify_handle keeps_oracle_modify_context
  keeps_oracle_na_post keeps_contexts_na_post : keeps.

Lemma keeps_oracle_hg_destroy p : keeps mem_oracle (hg_destroy p).
Proof. unfold hg_destroy. keeps_auto. Qed.

#[global] Hint Resolve keeps_oracle_hg_destroy : keeps.

Lemma keeps_shrinks {A} (c : M A) : keeps mem_oracle c -> shrinks c.
Proof. intros Hc m a m' ev Hrun. by rewrite (Hc _ _ _ _ Hrun). Qed.

Lemma shrinks_bind {A B} (c : M A) (k : A -> M B) :
  shrinks c -> (forall a, shrinks (k a)) -> shrinks (bind c k).
Proof.
  intros Hc Hk m b m2 ev Hb.
  apply bind_Some in Hb as (a & m1 & e1 & e2 & H1 & H2 & ->).
  etrans; [by eapply Hk | by eapply Hc].
Qed.

Lemma malloc_inv m ok m' ev :
  malloc m = Some (ok, m', ev) ->
  contexts m' = contexts m /\
  (length (mem_oracle m') <= length (mem_oracle m))%nat /\
  (ok = false -> (length (mem_oracle m') < length (mem_oracle m))%nat).
Proof.
  unfold malloc. destruct (mem_oracle m) as [|b l] eqn:Hl.
  - intros [= <- <- <-]. rewrite Hl. repeat split; [done|discriminate].
  - intros [= <- <- <-]. simpl. repeat split; lia.
Qed.

Lemma shrinks_malloc : shrinks malloc.
Proof. intros m a m' ev Hm. by apply malloc_inv in Hm as (_ & Hle & _). Qed.

Ltac shrinks_step :=
  match goal with
  | |- shrinks (bind _ _) => apply shrinks_bind; [|intros ?]
  | |- shrinks malloc => apply shrinks_malloc
  | |- shrinks (if ?b then _ else _) => destruct b
  | |- shrinks (match ?x with _ => _ end) => destruct x
  | |- shrinks _ => solve [apply keeps_shrinks; eauto with keeps]
  end.

Lemma shrinks_hg_create cp xp : shrinks (hg_create cp xp).
Proof. unfold hg_create. repeat shrinks_step. Qed.

Lemma modify_context_inv p f m a m' ev :
  modify_context p f m = Some (a, m', ev) ->
  exists c, contexts m !! p = Some c /\
            contexts m' !! p = Some (f c) /\
            mem_oracle m' = mem_oracle m.
Proof.
  unfold modify_context. intros Hrun.
  apply bind_Some in Hrun as (c & m1 & e1 & e2 & Hload & Hstore & _).
  apply load_context_inv in Hload as (Hc & -> & _).
  injection Hstore as _ <- _. exists c. simpl.
  by rewrite lookup_insert_eq.
Qed.

(** A round that goes on has either used up an entry of the allocation
    oracle or put a handle on the processing list. *)
Lemma hg_listen_round_ext (k1 k2 : hg_return_t -> M hg_return_t)
    cp xp r m :
  (forall r' m',
     (length (mem_oracle m') < length (mem_oracle m))%nat \/
     (exists c, contexts m' !! xp = Some c /\
                (1 <= length (processing_list c))%nat) ->
     k1 r' m' = k2 r' m') ->
  hg_listen_round k1 cp xp r m = hg_listen_round k2 cp xp r m.
Proof.
  intros Hk. unfold hg_listen_round.
  apply bind_ext. intros p m1 e1 Hcreate.
  apply shrinks_hg_create in Hcreate.
  destruct (is_null p); [done|].
  apply bind_ext. intros ok m2 e2 Hmalloc.
  apply malloc_inv in Hmalloc as (_ & Hle2 & Hlt2).
  apply bind_ext. intros r3 m3 e3 Happend.
  assert (H3 : mem_oracle m3 = mem_oracle m2 /\
               (ok = true ->
                exists c, contexts m3 !! xp = Some c /\
                          (1 <= length (processing_list c))%nat)).
  { destruct ok; cbn [negb] in Happend.
    - apply bind_Some in Happend as ([] & m' & ? & ? & Hmod & [= _ <- _] & _).
      apply modify_context_inv in Hmod as (c & _ & Hc' & Ho).
      split; [done|]. intros _. eexists. split; [exact Hc'|].
      simpl. rewrite length_app. simpl. lia.
    - injection Happend as _ <- _. split; [done | discriminate]. }
  destruct H3 as [Ho3 Hfull].
  apply bind_ext. intros c m4 e4 Hlc.
  pose proof (keeps_oracle_load_class _ _ _ _ _ Hlc) as Ho4.
  apply keeps_contexts_load_class in Hlc.
  apply bind_ext. intros h m5 e5 Hlh.
  pose proof (keeps_oracle_load_handle _ _ _ _ _ Hlh) as Ho5.
  apply keeps_contexts_load_handle in Hlh.
  apply bind_ext. intros post m6 e6 Hpost.
  pose proof (keeps_oracle_na_post _ _ _ _ _ Hpost) as Ho6.
  apply keeps_contexts_na_post in Hpost.
  apply bind_ext. intros [] m7 e7 Hmod.
  assert (H7 : mem_oracle m7 = mem_oracle m6 /\ contexts m7 = contexts m6).
  { destruct (snd post).
    - split; [by eapply keeps_oracle_modify_handle
             | by eapply keeps_contexts_modify_handle].
    - by injection Hmod as <- _. }
  destruct H7 as [Ho7 Hc7].
  destruct (negb (na_ok (fst post))); [done|].
  apply Hk. destruct ok.
  - right. rewrite Hc7, Hpost, Hlh, Hlc. by apply Hfull.
  - left. rewrite Ho7, Ho6, Ho5, Ho4, Ho3.
    specialize (Hlt2 eq_refl). lia.
Qed.

Lemma hg_listen_loop_full fuel cp xp r m c :
  contexts m !! xp = Some c ->
  (1 <= length (processing_list c))%nat ->
  hg_listen_loop fuel cp xp r m = Some (r, m, []).
Proof.
  intros Hc Hlen.
  assert (Htest : (length (processing_list c)
                     <? HG_MAX_PROCESSING_LIST_SIZE)%nat = false)
    by (apply Nat.ltb_ge; exact Hlen).
  destruct fuel; simpl; run_with load_context_run; by rewrite Htest.
Qed.

(** The rounds [hg_listen] allows are enough: with one round more than
    the allocation oracle has entries, a further round changes nothing. *)
Lemma hg_listen_loop_fuel fuel : forall cp xp r m,
  (length (mem_oracle m) < fuel)%nat ->
  hg_listen_loop (S fuel) cp xp r m = hg_listen_loop fuel cp xp r m.
Proof.
  induction fuel as [|fuel IH]; intros cp xp r m Hfuel; [lia|].
  change (hg_listen_loop (S (S fuel)) cp xp r m)
    with ((ctx <- load_context xp ;;
           if negb (length (processing_list ctx)
                      <? HG_MAX_PROCESSING_LIST_SIZE)%nat
           then ret r
           else hg_listen_round (hg_listen_loop (S fuel) cp xp) cp xp r) m).
  change (hg_listen_loop (S fuel) cp xp r m)
    with ((ctx <- load_context xp ;;
           if negb (length (processing_list ctx)
                      <? HG_MAX_PROCESSING_LIST_SIZE)%nat
           then ret r
           else hg_listen_round (hg_listen_loop fuel cp xp) cp xp r) m).
  apply bind_ext. intros ctx m0 e0 Hload.
  apply load_context_inv in Hload as (_ & -> & _).
  destruct (negb _); [done|].
  apply hg_listen_round_ext. intros r' m' [Hlt | (c & Hc & Hlen)].
  - apply IH. lia.
  - by rewrite !(hg_listen_loop_full _ _ _ _ _ c Hc Hlen).
Qed.

Lemma hg_listen_enough fuel cp xp m :
  (S (length (mem_oracle m)) < fuel)%nat ->
  hg_listen_loop fuel cp xp HG_SUCCESS m = hg_listen cp xp m.
Proof.
  unfold hg_listen. intros Hfuel.
  induction fuel as [|fuel IH]; [lia|].
  destruct (decide (fuel = S (length (mem_oracle m)))) as [->|Hne].
  - reflexivity.
  - rewrite hg_listen_loop_fuel by lia. apply IH. lia.
Qed.

(** ** Initialisation and the literal scenarios *)

(** [HG_Init] with memory available and a bulk class supplied by the
    caller: the class is new, its counter is 0 and its maximum tag is
    that of the network class. *)
Lemma HG_Init_run {bulk : BulkLayer} {user : UserCode} (m : Mem)
    (na : na_class_t) (nc b : ptr) :
  is_null nc = false ->
  is_null b = false ->
  mem_oracle m = [] ->
  HG_Init (Some na) nc b m =
    Some (S (brk m),
          set_classes
            (<[S (brk m) :=
                 {| na_class := na; na_context := nc; bulk_class := b;
                    bulk_class_external := true; func_map := Some ∅;
                    request_tag := 0%Z;
                    request_max_tag := na_max_tag na |}]> (classes m))
            (set_brk (S (brk m)) m),
          []).
Proof.
  intros Hnc Hb Hmem. unfold HG_Init. rewrite Hnc.
  run_with malloc_run. cbn [negb].
  rewrite (bind_log _ _ _ _ _ _ (fresh_run m)), log_nil.
  erewrite bind_log; [|reflexivity]. rewrite log_nil.
  run_store.
  run_with malloc_run. cbn [negb].
  run_with modify_class_run. rewrite Hb. cbn [negb].
  run_with modify_class_run.
  unfold ret. do 2 f_equal. f_equal.
  rewrite !insert_insert_eq. reflexivity.
Qed.

Lemma HG_Init_tag_in_range {bulk : BulkLayer} {user : UserCode} (m : Mem)
    (na : na_class_t) (nc b : ptr) :
  is_null nc = false ->
  is_null b = false ->
  mem_oracle m = [] ->
  is_uint32 (na_max_tag na) ->
  exists p m' c,
    HG_Init (Some na) nc b m = Some (p, m', []) /\
    classes m' !! p = Some c /\
    tag_in_range c.
Proof.
  intros Hnc Hb Hmem Hmax.
  eexists _, _, _. split; [by apply HG_Init_run|]. split.
  - simpl. apply lookup_insert_eq.
  - unfold tag_in_range. simpl. repeat split; try done.
    + apply Hmax.
    + apply Hmax.
    + change (wrap_uint32 0) with 0%Z. apply Hmax.
Qed.

(** Scenario 3 of the specification: with maximum tag 3, five forwards
    back to back get the tags 1, 2, 3, 0, 1. *)
Example five_forwards_tags :
  sent_tags (events (five_forwards (bulk := bulk_ok) (mem_empty 0)))
    = [1; 2; 3; 0; 1]%Z.
Proof. vm_compute. reflexivity. Qed.

Lemma malloc_run_cons m b rest :
  mem_oracle m = b :: rest -> malloc m = Some (b, set_mem_oracle rest m, []).
Proof. unfold malloc. by intros ->. Qed.

(** [hg_destroy] returns for a live handle that has no address. *)
Lemma hg_destroy_returns (m : Mem) (p : ptr) (h : hg_handle) :
  is_null p = false ->
  handles m !! p = Some h ->
  is_null (h_addr h) = true ->
  exists m' ev, hg_destroy p m = Some (tt, m', ev).
Proof.
  intros Hp Hh Haddr. unfold hg_destroy. rewrite Hp.
  run_with load_handle_run.
  run_store.
  destruct (hg_atomic_decr32 (h_ref_count h) =? 0)%Z; cbn [negb].
  2:{ simpl. eauto. }
  rewrite Haddr. cbn [negb andb]. rewrite bind_ret.
  assert (Hfree : forall mm : Mem,
            handles mm = <[p := set_ref_count
                                  (hg_atomic_decr32 (h_ref_count h)) h]>
                           (handles m) ->
            free_handle p mm
              = Some (tt, set_handles (delete p (handles mm)) mm,
                      [EvFree (ObjHandle p)])).
  { intros mm Hmm. unfold free_handle.
    rewrite Hmm, lookup_insert_eq. reflexivity. }
  destruct (h_in_buf h), (h_out_buf h);
    repeat (first [rewrite bind_emit | rewrite bind_ret]; cbv beta);
    rewrite Hfree by reflexivity; simpl; eauto.
Qed.

(** Whatever the fresh memory holds, the internal constructor returns
    the address of the handle, not the null pointer, when the allocation
    of the input buffer fails. *)
Lemma hg_create_input_failure (m : Mem) (cp xp : ptr) (c : hg_class)
    (rest : list bool) :
  classes m !! cp = Some c ->
  mem_oracle m = true :: false :: rest ->
  exists m' ev,
    hg_create cp xp m = Some (S (brk m), m', ev) /\
    is_null (S (brk m)) = false.
Proof.
  intros Hc Hmem. unfold hg_create.
  run_with load_class_run.
  run_with malloc_run_cons. cbn [negb].
  erewrite bind_log; [|apply fresh_run]. rewrite log_nil. fields.
  erewrite bind_log; [|reflexivity]. rewrite log_nil.
  run_store.
  erewrite bind_log; [|apply malloc_run_cons; reflexivity].
  rewrite log_nil. fields. cbn [negb].
  match goal with
  | |- context [bind (hg_destroy ?p) _ ?mm] =>
      destruct (hg_destroy_returns mm p
                  {| h_hg_class := cp; h_context := xp;
                     h_callback := NULL; h_arg := NULL; h_id := 0%Z;
                     h_cookie := 0%Z; h_tag := 0%Z; h_addr := NA_ADDR_NULL;
                     h_addr_mine := false; h_in_buf := None;
                     h_in_buf_size := na_max_expected_size (na_class c);
                     h_out_buf := None;
                     h_out_buf_size := na_max_expected_size (na_class c);
                     h_na_send_op_id := junk m; h_na_recv_op_id := junk m;
                     h_ref_count := wrap_int32 (junk m) |})
        as (m' & ev & Hd)
  end.
  - reflexivity.
  - fields. apply lookup_insert_eq.
  - reflexivity.
  - rewrite (bind_log _ _ _ _ _ _ Hd). simpl. eauto.
Qed.

(** ** The tag sequence in closed form *)

Lemma gen_request_tag_mod (c : hg_class) :
  tag_in_range c ->
  fst (hg_gen_request_tag c) =
    ((wrap_uint32 (request_tag c) + 1) mod (request_max_tag c + 1))%Z.
Proof.
  intros Hc. pose proof (gen_request_tag_step c Hc) as Hs.
  destruct (hg_gen_request_tag c) as [t c1]. simpl.
  destruct Hs as (Ht & _ & _ & _ & Hz & Hnz).
  destruct Hc as (_ & Hm & Hle).
  pose proof (wrap_uint32_range (request_tag c)) as Hr.
  unfold is_uint32 in Hm, Hr.
  destruct (decide (wrap_uint32 (request_tag c) = request_max_tag c)) as [E|E].
  - rewrite (Hz E), E. rewrite Z.mod_same; lia.
  - rewrite (Hnz E). rewrite Z.mod_small; lia.
Qed.

Lemma gen_request_tags_nth n : forall c i t,
  tag_in_range c ->
  fst (gen_request_tags n c) !! i = Some t ->
  t = ((wrap_uint32 (request_tag c) + Z.of_nat (S i))
         mod (request_max_tag c + 1))%Z.
Proof.
  induction n as [|n IH]; intros c i t Hc Hi.
  - simpl in Hi. by rewrite lookup_nil in Hi.
  - rewrite gen_request_tags_S in Hi.
    pose proof (gen_request_tag_mod c Hc) as Hm.
    pose proof (gen_request_tag_step c Hc) as Hs.
    destruct (hg_gen_request_tag c) as [t1 c1]. simpl in Hi, Hm.
    destruct Hs as (_ & Hc1 & Hm1 & Hv1 & _).
    destruct i as [|i]; simpl in Hi.
    + injection Hi as <-. rewrite Hm. f_equal.
    + apply (IH c1 i t Hc1) in Hi. rewrite Hi, Hm1, Hv1, Hm.
      rewrite Zplus_mod_idemp_l. f_equal. lia.
Qed.

(** X1.  From a counter in range that reads [u] as a tag, the allocation
    number [i + 1] of a run returns [(u + i + 1) mod (max + 1)]: the tags
    go round the interval from 0 to the maximum tag.  Hence two
    allocations of a run that are at most [max] allocations apart never
    return the same tag. *)
Theorem tag_sequence_closed_form (c : hg_class) (n : nat) :
  tag_in_range c ->
  (forall i t,
     fst (gen_request_tags n c) !! i = Some t ->
     t = ((wrap_uint32 (request_tag c) + Z.of_nat (S i))
            mod (request_max_tag c + 1))%Z) /\
  (forall i j ti tj,
     (i < j)%nat ->
     (Z.of_nat j - Z.of_nat i <= request_max_tag c)%Z ->
     fst (gen_request_tags n c) !! i = Some ti ->
     fst (gen_request_tags n c) !! j = Some tj ->
     ti <> tj).
Proof.
  intros Hc. split.
  - intros i t. by apply gen_request_tags_nth.
  - intros i j ti tj Hlt Hwin Hi Hj E.
    apply (gen_request_tags_nth n c i ti Hc) in Hi.
    apply (gen_request_tags_nth n c j tj Hc) in Hj.
    set (u := wrap_uint32 (request_tag c)) in *.
    set (M := (request_max_tag c + 1)%Z) in *.
    assert (HM : (Z.of_nat j - Z.of_nat i < M)%Z) by (unfold M; lia).
    assert (Hd : ((Z.of_nat j - Z.of_nat i) mod M = 0)%Z).
    { replace (Z.of_nat j - Z.of_nat i)%Z
        with ((u + Z.of_nat (S j)) - (u + Z.of_nat (S i)))%Z by lia.
      rewrite Zminus_mod, <- Hi, <- Hj, E, Z.sub_diag.
      apply Zmod_0_l. }
    rewrite Z.mod_small in Hd by lia. lia.
Qed.

Lemma tag_sequence_closed_form_witness :
  let c := {| na_class := na_demo 3 false; na_context := 5%nat;
              bulk_class := 1000%nat; bulk_class_external := false;
              func_map := Some ∅; request_tag := 2%Z;
              request_max_tag := 3%Z |} in
  fst (gen_request_tags 6 c) !! 4%nat = Some 3%Z /\
  3%Z = ((wrap_uint32 2 + Z.of_nat 5) mod (3 + 1))%Z.
Proof.
  intros c. split; [reflexivity|].
  assert (Hc : tag_in_range c).
  { unfold tag_in_range, is_int32, is_uint32. simpl. vm_compute.
    repeat split; discriminate. }
  exact (proj1 (tag_sequence_closed_form c 6 Hc) 4%nat 3%Z eq_refl).
Defined.

(** ** Error strings *)

(** X2.  [HG_Error_to_string] gives each of the eight codes it lists
    its own name, so that the names tell these codes apart, and gives
    [HG_NA_ERROR], which the engine returns but the function does not
    list, the text for an unrecognised error. *)
Theorem error_string_names (r : hg_return_t) :
  (HG_Error_to_string r = "UNDEFINED/UNRECOGNIZED NA ERROR"
   <-> r = HG_NA_ERROR) /\
  (forall r', HG_Error_to_string r = HG_Error_to_string r' -> r = r').
Proof.
  split.
  - destruct r; vm_compute; split; intros H; first [done | discriminate H].
  - intros r'. destruct r, r'; vm_compute; intros H;
      first [reflexivity | discriminate H].
Qed.

(** ** Registry queries *)

Section RegistryQueries.
Context {hash : HashString} {user : UserCode}.

Lemma registered_rpc_run (m : Mem) (cp : ptr) (c : hg_class)
    (fm : gmap Z hg_rpc_info) (name : string) (f0 : bool) (i0 : hg_id_t) :
  is_null cp = false ->
  classes m !! cp = Some c ->
  func_map c = Some fm ->
  HG_Registered_rpc cp name (Some f0) (Some i0) m =
    Some ((HG_SUCCESS,
           Some (match fm !! hg_hash_string name with
                 | Some _ => true
                 | None => false
                 end),
           Some (match fm !! hg_hash_string name with
                 | Some _ => hg_hash_string name
                 | None => 0%Z
                 end)), m, []).
Proof.
  intros Hnn Hc Hfm. unfold HG_Registered_rpc. rewrite Hnn.
  run_with load_class_run. rewrite Hfm. simpl deref. rewrite bind_ret.
  by destruct (fm !! hg_hash_string name).
Qed.

(** X3.  Once a name is registered, a query for any name answers by
    the id alone: the flag is set, and the id returned is the hash of
    the name asked for, exactly when that hash is the id just registered
    or an id the registry held before; otherwise the flag is clear and
    the id is 0.  In particular the name just registered is found, and
    so is every other name with the same hash. *)
Theorem register_then_registered (m : Mem) (cp : ptr) (c : hg_class)
    (fm : gmap Z hg_rpc_info) (name other : string) (cb : fnptr)
    (f0 : bool) (i0 : hg_id_t) :
  is_null cp = false ->
  classes m !! cp = Some c ->
  func_map c = Some fm ->
  mem_oracle m = [] ->
  (forall old, fm !! hg_hash_string name = Some old ->
               rpc_free_callback old = NULL) ->
  hg_hash_string name <> 0%Z ->
  let found :=
    if decide (hg_hash_string other = hg_hash_string name) then true
    else match fm !! hg_hash_string other with
         | Some _ => true
         | None => false
         end in
  exists m',
    (_ <- HG_Register_rpc cp name cb ;;
     HG_Registered_rpc cp other (Some f0) (Some i0)) m
      = Some ((HG_SUCCESS, Some found,
               Some (if found then hg_hash_string other else 0%Z)), m', []).
Proof.
  intros Hnn Hc Hfm Hmem Hold Hid found.
  erewrite bind_log; [|by apply (register_rpc_run m cp c fm name cb)].
  rewrite log_nil.
  erewrite registered_rpc_run; [|exact Hnn|fields; apply lookup_insert_eq|
                                  reflexivity].
  eexists. f_equal. f_equal. subst found.
  destruct (decide (hg_hash_string other = hg_hash_string name)) as [E|E].
  - by rewrite E, lookup_insert_eq.
  - rewrite lookup_insert_ne by done.
    by destruct (fm !! hg_hash_string other).
Qed.

Lemma register_data_run (m : Mem) (cp : ptr) (c : hg_class)
    (fm : gmap Z hg_rpc_info) (id : hg_id_t) (info : hg_rpc_info)
    (data : ptr) (fcb : fnptr) :
  is_null cp = false ->
  classes m !! cp = Some c ->
  func_map c = Some fm ->
  fm !! id = Some info ->
  HG_Register_data cp id data fcb m =
    Some (HG_SUCCESS,
          set_classes
            (<[cp := set_func_map
                       (Some (<[id := {| rpc_cb := rpc_cb info;
                                         rpc_data := data;
                                         rpc_free_callback := fcb |}]> fm))
                       c]> (classes m)) m,
          []).
Proof.
  intros Hnn Hc Hfm Hid. unfold HG_Register_data. rewrite Hnn.
  run_with load_class_run. rewrite Hfm. simpl deref. rewrite bind_ret.
  rewrite Hid. run_with modify_class_run. reflexivity.
Qed.

Lemma registered_data_run (m : Mem) (cp : ptr) (c : hg_class)
    (fm : gmap Z hg_rpc_info) (id : hg_id_t) :
  is_null cp = false ->
  classes m !! cp = Some c ->
  func_map c = Some fm ->
  HG_Registered_data cp id m =
    Some (match fm !! id with
          | Some info => rpc_data info
          | None => NULL
          end, m, []).
Proof.
  intros Hnn Hc Hfm. unfold HG_Registered_data. rewrite Hnn.
  run_with load_class_run. rewrite Hfm. simpl deref. rewrite bind_ret.
  by destruct (fm !! id).
Qed.

(** X4.  Data attached to a registered id is what a later query for
    that id returns; the callback registered for the id stays, the free
    callback of the data that was attached before is not called, and a
    query for any other id returns what it returned before.  For an id
    that is not registered the attachment fails with [HG_NO_MATCH] and
    changes nothing. *)
Theorem register_data_round_trip (m : Mem) (cp : ptr) (c : hg_class)
    (fm : gmap Z hg_rpc_info) (id id' : hg_id_t) (data : ptr)
    (fcb : fnptr) :
  is_null cp = false ->
  classes m !! cp = Some c ->
  func_map c = Some fm ->
  (forall info, fm !! id = Some info ->
     exists m',
       (r <- HG_Register_data cp id data fcb ;;
        d <- HG_Registered_data cp id' ;;
        ret (r, d)) m
         = Some ((HG_SUCCESS,
                  if decide (id' = id) then data
                  else match fm !! id' with
                       | Some info' => rpc_data info'
                       | None => NULL
                       end), m', []) /\
       registered_cb cp id m' = Some (rpc_cb info) /\
       registered_data_at cp id m' = Some (data, fcb)) /\
  (fm !! id = None ->
     HG_Register_data cp id data fcb m = Some (HG_NO_MATCH, m, []) /\
     HG_Registered_data cp id m = Some (NULL, m, [])).
Proof.
  intros Hnn Hc Hfm. split.
  - intros info Hid.
    erewrite bind_log; [|by apply (register_data_run m cp c fm id info)].
    rewrite log_nil.
    erewrite bind_log.
    2:{ eapply registered_data_run;
          [exact Hnn | fields; apply lookup_insert_eq | reflexivity]. }
    rewrite log_nil. eexists. split; [|split].
    + unfold ret. do 3 f_equal.
      destruct (decide (id' = id)) as [->|E].
      * by rewrite lookup_insert_eq.
      * by rewrite lookup_insert_ne.
    + unfold registered_cb. fields. rewrite lookup_insert_eq. simpl.
      by rewrite lookup_insert_eq.
    + unfold registered_data_at. fields. rewrite lookup_insert_eq. simpl.
      by rewrite lookup_insert_eq.
  - intros Hid. split.
    + unfold HG_Register_data. rewrite Hnn.
      run_with load_class_run. rewrite Hfm. simpl deref. rewrite bind_ret.
      by rewrite Hid.
    + erewrite registered_data_run by done. by rewrite Hid.
Qed.

End RegistryQueries.

Lemma register_then_registered_witness :
  exists m',
    (_ <- HG_Register_rpc (hash := djb2) (user := user_code)
            1%nat "az" RESPOND_CB ;;
     HG_Registered_rpc (hash := djb2) 1%nat "bY" (Some false) (Some 9%Z))
      (after (HG_Init (bulk := bulk_ok) (user := user_code)
                (Some (na_demo 3 false)) 5%nat NULL) (mem_empty 0))
      = Some ((HG_SUCCESS, Some true, Some 5863232%Z), m', []).
Proof.
  eapply (register_then_registered (hash := djb2) (user := user_code)
            _ 1%nat _ ∅ "az" "bY" RESPOND_CB false 9%Z);
    try reflexivity; try discriminate.
Defined.

Lemma register_data_round_trip_witness :
  exists m',
    (r <- HG_Register_data 1%nat 5863232%Z 44%nat 45%nat ;;
     d <- HG_Registered_data 1%nat 5863232%Z ;;
     ret (r, d))
      (after (register_colliding (bulk := bulk_ok)) (mem_empty 0))
      = Some ((HG_SUCCESS, 44%nat), m', []) /\
    registered_cb 1%nat 5863232%Z m' = Some QUIET_CB /\
    registered_data_at 1%nat 5863232%Z m' = Some (44%nat, 45%nat).
Proof.
  pose (info := {| rpc_cb := QUIET_CB; rpc_data := NULL;
                   rpc_free_callback := NULL |}).
  pose (fm := <[5863232%Z := info]> (∅ : gmap Z hg_rpc_info)).
  pose (c := {| na_class := na_demo 3 false; na_context := 5%nat;
                bulk_class := 1000%nat; bulk_class_external := false;
                func_map := Some fm; request_tag := 0%Z;
                request_max_tag := 3%Z |}).
  exact (proj1 (register_data_round_trip
                  (after (register_colliding (bulk := bulk_ok)) (mem_empty 0))
                  1%nat c fm 5863232%Z 5863232%Z 44%nat 45%nat
                  eq_refl eq_refl eq_refl) info eq_refl).
Defined.

(** ** Registration results and finalisation *)

Lemma malloc_classes m ok m' ev :
  malloc m = Some (ok, m', ev) -> classes m' = classes m /\ ev = [].
Proof.
  unfold malloc. destruct (mem_oracle m); by intros [= <- <- <-].
Qed.

Lemma load_class_inv p m a m' ev :
  load_class p m = Some (a, m', ev) ->
  classes m !! p = Some a /\ m' = m /\ ev = [].
Proof.
  unfold load_class. destruct (classes m !! p); [|done].
  by intros [= <- <- <-].
Qed.

Lemma deref_inv {A} (o : option A) m a m' ev :
  deref o m = Some (a, m', ev) -> o = Some a /\ m' = m /\ ev = [].
Proof. destruct o; [|done]. by intros [= <- <- <-]. Qed.

Lemma modify_class_inv p f m a m' ev :
  modify_class p f m = Some (a, m', ev) ->
  exists c, classes m !! p = Some c /\
            classes m' = <[p := f c]> (classes m) /\ ev = [].
Proof.
  unfold modify_class. intros Hrun.
  apply bind_Some in Hrun as (c & m1 & e1 & e2 & Hload & Hstore & ->).
  apply load_class_inv in Hload as (Hc & -> & ->).
  injection Hstore as _ <- <-. by exists c.
Qed.

Lemma omap_length_le {A B} (f : A -> option B) (l : list A) :
  length (omap f l) <= length l.
Proof.
  induction l as [|x l IH]; [done|].
  change (omap f (x :: l))
    with (match f x with Some y => y :: omap f l | None => omap f l end).
  destruct (f x); simpl; lia.
Qed.

Lemma free_class_run m p c :
  classes m !! p = Some c ->
  free_class p m =
    Some (tt, set_classes (delete p (classes m)) m, [EvFree (ObjClass p)]).
Proof. unfold free_class. by intros ->. Qed.

(** X5.  What the value [HG_Register_rpc] returns tells.  A value other
    than 0 is the hash of the name, and the registry then maps it to the
    callback given.  The value 0, for a name whose hash is not 0, means
    that nothing was registered: the classes are as they were, and the
    run has only freed the key and the value it had allocated.  For a
    name whose hash is 0 the value tells nothing.  With memory available
    the call returns the hash of the name, whatever it is, with the
    callback registered under it; when the hash is 0 it has then also
    freed the key and the value of the entry it leaves in the table. *)
Theorem register_rpc_result {hash : HashString} {user : UserCode}
    (m : Mem) (cp : ptr) (name : string) (cb : fnptr) :
  let h := hg_hash_string name in
  (forall id m' ev,
     HG_Register_rpc cp name cb m = Some (id, m', ev) ->
     (id <> 0%Z -> id = h /\ registered_cb cp id m' = Some cb) /\
     (id = 0%Z -> h <> 0%Z ->
      classes m' = classes m /\
      (ev = [] \/ ev = [EvFree (ObjRpcId h)] \/
       ev = [EvFree (ObjRpcId h); EvFree (ObjRpcInfo h)]))) /\
  (forall c fm,
     is_null cp = false ->
     classes m !! cp = Some c ->
     func_map c = Some fm ->
     mem_oracle m = [] ->
     (forall old, fm !! h = Some old -> rpc_free_callback old = NULL) ->
     exists m',
       HG_Register_rpc cp name cb m =
         Some (h, m',
               if (h =? 0)%Z
               then [EvFree (ObjRpcId h); EvFree (ObjRpcInfo h)] else []) /\
       registered_cb cp h m' = Some cb).
Proof.
  intros h. split.
  - intros id m' ev. unfold HG_Register_rpc. fold h. intros Hrun.
    assert (Hzero : forall (P : Prop), (0 <> 0)%Z -> P)
      by (intros P H0; by destruct H0).
    destruct (is_null cp);
      [injection Hrun as <- <- <-; split; [apply Hzero | auto]|].
    apply bind_Some in Hrun as (ok1 & m1 & e1 & e1' & H1 & Hrun & ->).
    apply malloc_classes in H1 as [Hc1 ->].
    destruct ok1; cbn [negb] in Hrun;
      [|injection Hrun as <- <- <-; rewrite Hc1;
        split; [apply Hzero | auto]].
    apply bind_Some in Hrun as (ok2 & m2 & e2 & e2' & H2 & Hrun & ->).
    apply malloc_classes in H2 as [Hc2 ->].
    destruct ok2; cbn [negb] in Hrun.
    2:{ rewrite bind_emit in Hrun. injection Hrun as <- <- <-.
        rewrite Hc2, Hc1. split; [apply Hzero | auto]. }
    apply bind_Some in Hrun as (ins & m3 & e3 & e3' & Hins & Hrun & ->).
    unfold hg_hash_table_insert in Hins.
    apply bind_Some in Hins as (c & m4 & e4 & e4' & Hl & Hins & ->).
    apply load_class_inv in Hl as (Hc & -> & ->).
    apply bind_Some in Hins as (fm & m5 & e5 & e5' & Hd & Hins & ->).
    apply deref_inv in Hd as (Hfm & -> & ->).
    apply bind_Some in Hins as (ok3 & m6 & e6 & e6' & H3 & Hins & ->).
    apply malloc_classes in H3 as [Hc3 ->].
    destruct ok3; cbn [negb] in Hins.
    2:{ injection Hins as <- <- <-. cbn [negb orb] in Hrun.
        rewrite !bind_emit in Hrun. injection Hrun as <- <- <-.
        rewrite Hc3, Hc2, Hc1. split; [apply Hzero | auto]. }
    apply bind_Some in Hins as ([] & m7 & e7 & e7' & _ & Hins & ->).
    apply bind_Some in Hins as ([] & m8 & e8 & e8' & Hmod & Hins & ->).
    injection Hins as <- <- <-. cbn [negb orb] in Hrun.
    destruct (h =? 0)%Z eqn:E.
    + rewrite !bind_emit in Hrun. injection Hrun as <- <- <-.
      apply Z.eqb_eq in E. split; [apply Hzero|]. intros _ Hh.
      contradiction.
    + injection Hrun as <- <- <-.
      apply Z.eqb_neq in E. split; [|done]. intros _. split; [done|].
      apply modify_class_inv in Hmod as (c' & _ & Hc' & _).
      unfold registered_cb. rewrite Hc', lookup_insert_eq. simpl.
      by rewrite lookup_insert_eq.
  - intros c fm Hnn Hc Hfm Hmem Hold.
    exists (set_classes
              (<[cp := set_func_map
                         (Some (<[h := {| rpc_cb := cb; rpc_data := NULL;
                                          rpc_free_callback := NULL |}]> fm))
                         c]> (classes m)) m).
    split.
    + unfold HG_Register_rpc. fold h. rewrite Hnn.
      run_with malloc_run. cbn [negb].
      run_with malloc_run. cbn [negb].
      unfold hg_hash_table_insert.
      erewrite bind_log.
      2:{ run_with load_class_run. rewrite Hfm. simpl deref.
          rewrite bind_ret.
          run_with malloc_run. cbn [negb].
          erewrite bind_log.
          2:{ destruct (fm !! h) as [old|] eqn:Hlook.
              - unfold hg_func_map_value_free. rewrite (Hold old eq_refl).
                reflexivity.
              - reflexivity. }
          rewrite log_nil.
          run_with modify_class_run. reflexivity. }
      rewrite log_nil. cbn [negb orb].
      destruct (h =? 0)%Z eqn:E; [|reflexivity].
      apply Z.eqb_eq in E. rewrite !bind_emit. simpl. by rewrite E.
    + unfold registered_cb. simpl. rewrite lookup_insert_eq. simpl.
      by rewrite lookup_insert_eq.
Qed.

Lemma register_rpc_result_witness :
  let m := after (HG_Init (bulk := bulk_ok) (user := user_code)
                    (Some (na_demo 3 false)) 5%nat NULL) (mem_empty 0) in
  hg_hash_string (HashString := djb2) "glidphc" = 0%Z /\
  (exists m',
     HG_Register_rpc (hash := djb2) (user := user_code)
       1%nat "glidphc" RESPOND_CB m =
       Some (0%Z, m', [EvFree (ObjRpcId 0%Z); EvFree (ObjRpcInfo 0%Z)]) /\
     registered_cb 1%nat 0%Z m' = Some RESPOND_CB) /\
  (exists m',
     HG_Register_rpc (hash := djb2) (user := user_code)
       1%nat "echo" RESPOND_CB (set_mem_oracle [true; false] m) =
       Some (0%Z, m', [EvFree (ObjRpcId 2090214596%Z)]) /\
     classes m' = classes m).
Proof.
  intros m. split; [vm_compute; reflexivity|]. split.
  - pose (c := {| na_class := na_demo 3 false; na_context := 5%nat;
                  bulk_class := 1000%nat; bulk_class_external := false;
                  func_map := Some ∅; request_tag := 0%Z;
                  request_max_tag := 3%Z |}).
    refine (proj2 (register_rpc_result (hash := djb2) (user := user_code)
                     m 1%nat "glidphc" RESPOND_CB) c ∅ _ _ _ _ _).
    + reflexivity.
    + vm_compute; reflexivity.
    + reflexivity.
    + vm_compute; reflexivity.
    + intros old Hold. by rewrite lookup_empty in Hold.
  - destruct (HG_Register_rpc (hash := djb2) (user := user_code)
                1%nat "echo" RESPOND_CB (set_mem_oracle [true; false] m))
      as [[[id m'] ev]|] eqn:Hrun; [|vm_compute in Hrun; discriminate Hrun].
    assert (Hid : result (HG_Register_rpc (hash := djb2) (user := user_code)
                            1%nat "echo" RESPOND_CB
                            (set_mem_oracle [true; false] m)) = Some 0%Z)
      by (vm_compute; reflexivity).
    assert (Hev : events (HG_Register_rpc (hash := djb2) (user := user_code)
                            1%nat "echo" RESPOND_CB
                            (set_mem_oracle [true; false] m))
                  = [EvFree (ObjRpcId 2090214596%Z)])
      by (vm_compute; reflexivity).
    rewrite Hrun in Hid, Hev. simpl in Hid, Hev.
    injection Hid as ->. subst ev.
    exists m'. split; [reflexivity|].
    refine (proj1 (proj2 (proj1 (register_rpc_result (hash := djb2)
                                   (user := user_code)
                                   (set_mem_oracle [true; false] m)
                                   1%nat "echo" RESPOND_CB)
                            0%Z m' _ Hrun) eq_refl _)).
    vm_compute. discriminate.
Defined.

Section Finalize.
Context {bulk : BulkLayer} {user : UserCode}.

(** The free callbacks return, call nothing and leave the classes
    alone. *)
Hypothesis free_cb_returns : forall fn d m,
  exists m', free_cb_sem fn d m = Some (tt, m', []) /\
             classes m' = classes m.

Lemma hash_table_free_run l : forall m,
  exists m',
    hg_hash_table_free l m = Some (tt, m', data_frees l) /\
    classes m' = classes m.
Proof.
  induction l as [|[k info] l IH]; intros m.
  - simpl. eauto.
  - simpl. unfold hg_func_map_value_free, data_frees. simpl.
    destruct (is_null (rpc_free_callback info)); cbn [negb].
    + rewrite bind_ret. apply IH.
    + destruct (free_cb_returns (rpc_free_callback info) (rpc_data info) m)
        as (m1 & Hf & Hc1).
      erewrite bind_log; [|by rewrite bind_emit, Hf].
      destruct (IH m1) as (m2 & Hrest & Hc2).
      rewrite Hrest. simpl. eexists. split; [reflexivity|].
      by rewrite Hc2.
Qed.

(** X6.  [HG_Finalize] of a class that owns its bulk class asks the
    bulk layer first, and when that fails returns the failure with
    nothing freed and no callback called.  Otherwise it hands the data
    of every registry entry that has a free callback to that callback,
    once, then frees the class and returns [HG_SUCCESS]. *)
Theorem finalize_frees_registry (m : Mem) (cp : ptr) (c : hg_class)
    (fm : gmap Z hg_rpc_info) :
  is_null cp = false ->
  classes m !! cp = Some c ->
  func_map c = Some fm ->
  let r := if bulk_class_external c then HG_SUCCESS
           else HG_Bulk_finalize (bulk_class c) in
  if hg_ok r then
    exists m',
      HG_Finalize cp m =
        Some (HG_SUCCESS, m',
              data_frees (map_to_list fm) ++ [EvFree (ObjClass cp)]) /\
      classes m' = delete cp (classes m) /\
      (forall id info,
         fm !! id = Some info ->
         is_null (rpc_free_callback info) = false ->
         EvDataFree (rpc_free_callback info) (rpc_data info)
           ∈ data_frees (map_to_list fm)) /\
      length (data_frees (map_to_list fm)) <= size fm
  else HG_Finalize cp m = Some (r, m, []).
Proof.
  intros Hnn Hc Hfm r. unfold HG_Finalize. rewrite Hnn.
  run_with load_class_run.
  assert (Hr : (if negb (bulk_class_external c)
                then HG_Bulk_finalize (bulk_class c) else HG_SUCCESS) = r).
  { subst r. by destruct (bulk_class_external c). }
  rewrite Hr. destruct (hg_ok r) eqn:Hok; cbn [negb]; [|reflexivity].
  rewrite Hfm. simpl deref. rewrite bind_ret.
  destruct (hash_table_free_run (map_to_list fm) m) as (m1 & Hfree & Hc1).
  rewrite (bind_log _ _ _ _ _ _ Hfree).
  erewrite bind_log; [|eapply free_class_run; rewrite Hc1; exact Hc].
  simpl. eexists. split; [reflexivity|]. split; [by rewrite Hc1|]. split.
  - intros id info Hid Hcb. unfold data_frees.
    apply list_elem_of_omap. exists (id, info). split.
    + by apply elem_of_map_to_list.
    + simpl. by rewrite Hcb.
  - unfold data_frees. rewrite <- (length_map_to_list fm).
    apply omap_length_le.
Qed.

End Finalize.

Lemma user_code_free_returns : forall fn d m,
  exists m', free_cb_sem (UserCode := user_code) fn d m = Some (tt, m', []) /\
             classes m' = classes m.
Proof. intros fn d m. by exists m. Qed.

Lemma finalize_frees_registry_witness :
  let m := after (HG_Register_data 1%nat 5863232%Z 44%nat 45%nat)
             (after (register_colliding (bulk := bulk_ok)) (mem_empty 0)) in
  exists m',
    HG_Finalize (bulk := bulk_ok) (user := user_code) 1%nat m =
      Some (HG_SUCCESS, m',
            [EvDataFree 45%nat 44%nat; EvFree (ObjClass 1%nat)]) /\
    classes m' = delete 1%nat (classes m).
Proof.
  intros m.
  pose (info := {| rpc_cb := QUIET_CB; rpc_data := 44%nat;
                   rpc_free_callback := 45%nat |}).
  pose (fm := <[5863232%Z := info]> (∅ : gmap Z hg_rpc_info)).
  pose (c := {| na_class := na_demo 3 false; na_context := 5%nat;
                bulk_class := 1000%nat; bulk_class_external := false;
                func_map := Some fm; request_tag := 0%Z;
                request_max_tag := 3%Z |}).
  destruct (finalize_frees_registry (bulk := bulk_ok) (user := user_code)
              user_code_free_returns m 1%nat c fm eq_refl eq_refl eq_refl)
    as (m' & Hrun & Hcl & _).
  exists m'. split; [exact Hrun | exact Hcl].
Defined.

(** ** The life of a handle *)

Lemma decr32_zero n : is_int32 n -> hg_atomic_decr32 n = 0%Z <-> n = 1%Z.
Proof.
  unfold is_int32, hg_atomic_decr32, wrap_int32. intros Hn. split.
  - intros E.
    destruct (decide (n = - 2 ^ 31)%Z) as [->|Hne]; [by vm_compute in E|].
    rewrite Z.mod_small in E by lia. lia.
  - intros ->. reflexivity.
Qed.

Lemma decr32_int32 n :
  is_int32 n -> n <> (- 2 ^ 31)%Z -> hg_atomic_decr32 n = (n - 1)%Z.
Proof.
  unfold is_int32, hg_atomic_decr32, wrap_int32. intros Hn Hne.
  rewrite Z.mod_small by lia. lia.
Qed.

Lemma free_handle_run m p h :
  handles m !! p = Some h ->
  free_handle p m =
    Some (tt, set_handles (delete p (handles m)) m, [EvFree (ObjHandle p)]).
Proof. unfold free_handle. by intros ->. Qed.

Lemma na_call_next op m :
  exists m1,
    na_call op m = Some (next_na_status m, m1, [EvNa op (next_na_status m)]) /\
    handles m1 = handles m /\ classes m1 = classes m /\
    contexts m1 = contexts m /\ brk m1 = brk m /\
    mem_oracle m1 = mem_oracle m.
Proof.
  unfold na_call, next_na_status.
  destruct (na_oracle m) as [|r rest]; eauto 10.
Qed.

(** [hg_destroy] on a live handle: the count goes down by one, and the
    handle goes when it reaches 0. *)
Lemma hg_destroy_run (m : Mem) (p : ptr) (h : hg_handle) :
  is_null p = false ->
  handles m !! p = Some h ->
  is_int32 (h_ref_count h) ->
  (h_ref_count h = 1%Z -> is_null (h_addr h) = false ->
   h_addr_mine h = true -> is_Some (classes m !! h_hg_class h)) ->
  if decide (h_ref_count h = 1%Z) then
    exists m',
      hg_destroy p m =
        Some (tt, m', release_events p h (next_na_status m)) /\
      handles m' = delete p (handles m) /\
      contexts m' = contexts m /\ classes m' = classes m /\
      brk m' = brk m /\ mem_oracle m' = mem_oracle m
  else
    hg_destroy p m =
      Some (tt,
            set_handles
              (<[p := set_ref_count (hg_atomic_decr32 (h_ref_count h)) h]>
                 (handles m)) m,
            []).
Proof.
  intros Hp Hh Hn Hcl. unfold hg_destroy. rewrite Hp.
  run_with load_handle_run. run_store.
  pose proof (decr32_zero (h_ref_count h) Hn) as Hz.
  destruct (decide (h_ref_count h = 1%Z)) as [E|E].
  - rewrite (proj2 Hz E). cbn [Z.eqb negb]. unfold release_events.
    remember (set_handles (<[p := set_ref_count 0 h]> (handles m)) m)
      as m0 eqn:Hm0.
    assert (Hfree : forall mm : Mem,
              handles mm = handles m0 ->
              free_handle p mm
                = Some (tt, set_handles (delete p (handles mm)) mm,
                        [EvFree (ObjHandle p)])).
    { intros mm Hmm. eapply free_handle_run.
      rewrite Hmm, Hm0. apply lookup_insert_eq. }
    assert (Hdel : delete p (handles m0) = delete p (handles m)).
    { rewrite Hm0. apply delete_insert_eq. }
    assert (Hnext : next_na_status m0 = next_na_status m) by by rewrite Hm0.
    assert (Hrest : forall m1 : Mem,
              handles m1 = handles m0 -> contexts m1 = contexts m ->
              classes m1 = classes m -> brk m1 = brk m ->
              mem_oracle m1 = mem_oracle m ->
              exists m',
                ((match h_in_buf h with
                  | Some _ => emit (EvFree (ObjInBuf p))
                  | None => ret tt
                  end) ;;
                 (match h_out_buf h with
                  | Some _ => emit (EvFree (ObjOutBuf p))
                  | None => ret tt
                  end) ;;
                 free_handle p) m1
                  = Some (tt, m',
                          match h_in_buf h with
                          | Some _ => [EvFree (ObjInBuf p)]
                          | None => []
                          end ++
                          match h_out_buf h with
                          | Some _ => [EvFree (ObjOutBuf p)]
                          | None => []
                          end ++ [EvFree (ObjHandle p)]) /\
                handles m' = delete p (handles m) /\
                contexts m' = contexts m /\ classes m' = classes m /\
                brk m' = brk m /\ mem_oracle m' = mem_oracle m).
    { intros m1 Hh1 Hx1 Hc1 Hb1 Ho1.
      destruct (h_in_buf h), (h_out_buf h);
        repeat (first [rewrite bind_emit | rewrite bind_ret]; cbv beta);
        rewrite (Hfree m1 Hh1); simpl; eexists;
        (split; [reflexivity|]); fields; rewrite Hh1, Hdel; done. }
    destruct (negb (is_null (h_addr h)) && h_addr_mine h) eqn:Haddr.
    + apply andb_prop in Haddr as [Ha Hmine].
      apply negb_true_iff in Ha.
      destruct (Hcl E Ha Hmine) as [c Hc].
      destruct (na_call_next (NA_Addr_free (h_addr h)) m0)
        as (m1 & Hcall & Hh1 & Hc1 & Hx1 & Hb1 & Ho1).
      erewrite bind_log.
      2:{ erewrite bind_log;
            [|apply (load_class_run _ _ c); by rewrite Hm0].
        rewrite log_nil. erewrite bind_log; [|exact Hcall].
        reflexivity. }
      rewrite Hm0 in Hx1, Hc1, Hb1, Ho1. fields in Hx1. fields in Hc1.
      fields in Hb1. fields in Ho1.
      destruct (Hrest m1 Hh1 Hx1 Hc1 Hb1 Ho1) as (m' & Hrun & Hfin).
      rewrite Hrun. simpl. rewrite Hnext. eauto.
    + rewrite bind_ret.
      destruct (Hrest m0) as (m' & Hrun & Hfin); try by rewrite Hm0.
      rewrite Hrun. eauto.
  - destruct (hg_atomic_decr32 (h_ref_count h) =? 0)%Z eqn:Hd.
    + apply Z.eqb_eq in Hd. apply Hz in Hd. contradiction.
    + reflexivity.
Qed.

(** X7.  [hg_destroy] on a live handle takes one reference away.  When
    that was not the last one, nothing else happens.  When it was, the
    handle is freed together with the buffers it has, after the address
    if the handle owns one, and nothing else in the memory changes: the
    contexts, and so the queues that may still name the handle, stay as
    they are. *)
Theorem destroy_frees_on_last_reference (m : Mem) (p : ptr) (h : hg_handle) :
  is_null p = false ->
  handles m !! p = Some h ->
  is_int32 (h_ref_count h) ->
  (h_ref_count h = 1%Z -> is_null (h_addr h) = false ->
   h_addr_mine h = true -> is_Some (classes m !! h_hg_class h)) ->
  exists m' ev,
    hg_destroy p m = Some (tt, m', ev) /\
    contexts m' = contexts m /\ classes m' = classes m /\
    (h_ref_count h = 1%Z ->
     handles m' = delete p (handles m) /\
     ev = release_events p h (next_na_status m)) /\
    (h_ref_count h <> 1%Z ->
     handles m' =
       <[p := set_ref_count (hg_atomic_decr32 (h_ref_count h)) h]>
         (handles m) /\
     hg_atomic_decr32 (h_ref_count h) <> 0%Z /\
     ev = []).
Proof.
  intros Hp Hh Hn Hcl.
  pose proof (hg_destroy_run m p h Hp Hh Hn Hcl) as Hrun.
  destruct (decide (h_ref_count h = 1%Z)) as [E|E].
  - destruct Hrun as (m' & Hrun & Hh' & Hx' & Hc' & _).
    exists m', (release_events p h (next_na_status m)).
    repeat split; try done.
  - eexists _, _. split; [exact Hrun|]. repeat split; try done.
    intros Hz. by apply decr32_zero in Hz.
Qed.

Lemma destroy_frees_on_last_reference_witness :
  let m := after (create_echo (bulk := bulk_ok) PEER) (mem_empty 0) in
  exists m' ev,
    hg_destroy 3%nat m = Some (tt, m', ev) /\ ev = [].
Proof.
  intros m.
  destruct (destroy_frees_on_last_reference m 3%nat
              (created_handle 1%nat 2%nat 8 PEER 2090214596%Z 2%Z))
    as (m' & ev & Hrun & _ & _ & _ & Hkeep).
  - reflexivity.
  - reflexivity.
  - unfold is_int32. simpl. lia.
  - discriminate.
  - exists m', ev. split; [exact Hrun|]. apply Hkeep. discriminate.
Defined.

Lemma hg_create_run (m : Mem) (cp xp : ptr) (c : hg_class) :
  classes m !! cp = Some c ->
  mem_oracle m = [] ->
  hg_create cp xp m =
    Some (S (brk m),
          set_handles
            (<[S (brk m) :=
                 created_handle cp xp (na_max_expected_size (na_class c))
                   NA_ADDR_NULL 0%Z 1%Z]> (handles m))
            (set_brk (S (brk m)) m),
          []).
Proof.
  intros Hc Hmem. unfold hg_create.
  run_with load_class_run.
  run_with malloc_run. cbn [negb].
  erewrite bind_log; [|apply fresh_run]. rewrite log_nil. fields.
  erewrite bind_log; [|reflexivity]. rewrite log_nil.
  run_store.
  run_with malloc_run. cbn [negb].
  run_with modify_handle_run.
  run_with malloc_run. cbn [negb].
  run_with modify_handle_run.
  run_with modify_handle_run.
  run_with modify_handle_run.
  run_with modify_handle_run.
  unfold ret. do 2 f_equal. f_equal.
  rewrite !insert_insert_eq. reflexivity.
Qed.

Lemma HG_Create_run (m : Mem) (cp xp : ptr) (c : hg_class)
    (ctx : hg_context) (addr : na_addr_t) (id : hg_id_t) (h0 : ptr) :
  is_null cp = false ->
  is_null xp = false ->
  is_null addr = false ->
  classes m !! cp = Some c ->
  contexts m !! xp = Some ctx ->
  ctx_hg_class ctx = cp ->
  mem_oracle m = [] ->
  HG_Create cp xp addr id (Some h0) m =
    Some ((HG_SUCCESS, Some (S (brk m))),
          set_handles
            (<[S (brk m) :=
                 created_handle cp xp (na_max_expected_size (na_class c))
                   addr id 2%Z]> (handles m))
            (set_brk (S (brk m)) m),
          []).
Proof.
  intros Hcp Hxp Haddr Hc Hctx Hcls Hmem. unfold HG_Create.
  rewrite Hcp, Hxp.
  run_with load_context_run. rewrite Hcls, Nat.eqb_refl. cbn [negb].
  rewrite Haddr.
  erewrite bind_log; [|by apply (hg_create_run m cp xp c)].
  rewrite log_nil. change (is_null (S (brk m))) with false. cbv iota.
  run_with modify_handle_run.
  run_with modify_handle_run.
  run_with modify_handle_run.
  unfold ret. do 2 f_equal. f_equal.
  rewrite !insert_insert_eq. reflexivity.
Qed.

(** *** Creation *)

(** Take the first action off a run that returned. *)
Tactic Notation "peel" hyp(H) "as" simple_intropattern(a) ident(Hs) :=
  let m := fresh "m" in
  apply bind_Some in H as (a & m & ? & ? & Hs & H & ->).

Tactic Notation "peel" hyp(H) :=
  let m := fresh "m" in
  apply bind_Some in H as (? & m & ? & ? & _ & H & ->).

Lemma malloc_frame m ok m' ev :
  malloc m = Some (ok, m', ev) ->
  handles m' = handles m /\ contexts m' = contexts m /\
  classes m' = classes m /\ brk m' = brk m /\ ev = [].
Proof.
  unfold malloc. destruct (mem_oracle m); by intros [= <- <- <-].
Qed.

(** The internal constructor returns the null pointer only when the
    allocation of the handle itself fails, and has then done nothing. *)
Lemma hg_create_null (m m' : Mem) (cp xp p : ptr) (ev : list event) :
  hg_create cp xp m = Some (p, m', ev) ->
  is_null p = true ->
  handles m' = handles m /\ contexts m' = contexts m /\ ev = [].
Proof.
  unfold hg_create. intros Hrun Hp.
  peel Hrun as c Hl. apply load_class_inv in Hl as (_ & -> & ->).
  peel Hrun as ok Hm. apply malloc_frame in Hm as (Hh & Hx & _ & _ & ->).
  destruct ok; cbn [negb] in Hrun.
  2:{ by injection Hrun as <- <- <-. }
  exfalso.
  peel Hrun as p0 Hf. injection Hf as <- _ _.
  peel Hrun. peel Hrun. peel Hrun as ok_in Hm.
  destruct ok_in; cbn [negb] in Hrun.
  2:{ peel Hrun. injection Hrun as <- _ _. discriminate Hp. }
  peel Hrun. peel Hrun as ok_out Hm'.
  destruct ok_out; cbn [negb] in Hrun.
  2:{ peel Hrun. injection Hrun as <- _ _. discriminate Hp. }
  peel Hrun. peel Hrun. peel Hrun. peel Hrun.
  injection Hrun as <- _ _. discriminate Hp.
Qed.

(** X8.  Whenever [HG_Create] returns a status other than
    [HG_SUCCESS], that status is [HG_INVALID_PARAM] or
    [HG_NOMEM_ERROR], the caller's handle variable holds what it held,
    no handle has been allocated or changed, and nothing has been
    called. *)
Theorem create_failure_leaves_nothing (m m' : Mem) (cp xp : ptr)
    (addr : na_addr_t) (id : hg_id_t)
    (handle out : option ptr) (r : hg_return_t) (ev : list event) :
  HG_Create cp xp addr id handle m = Some ((r, out), m', ev) ->
  r <> HG_SUCCESS ->
  out = handle /\ handles m' = handles m /\ contexts m' = contexts m /\
  ev = [] /\ (r = HG_INVALID_PARAM \/ r = HG_NOMEM_ERROR).
Proof.
  unfold HG_Create. intros Hrun Hr.
  destruct (is_null cp); [injection Hrun as <- <- <- <-; eauto 10|].
  destruct (is_null xp); [injection Hrun as <- <- <- <-; eauto 10|].
  peel Hrun as ctx Hl. apply load_context_inv in Hl as (_ & -> & ->).
  destruct (negb (ctx_hg_class ctx =? cp)%nat);
    [injection Hrun as <- <- <- <-; eauto 10|].
  destruct (is_null addr); [injection Hrun as <- <- <- <-; eauto 10|].
  destruct handle as [h0|]; [|injection Hrun as <- <- <- <-; eauto 10].
  peel Hrun as p Hcreate. destruct (is_null p) eqn:Hnull.
  - apply (hg_create_null _ _ _ _ _ _ Hcreate) in Hnull as (Hh & Hx & ->).
    injection Hrun as <- <- <- <-. eauto 10.
  - peel Hrun. peel Hrun. peel Hrun. injection Hrun as <- _ _ _.
    contradiction.
Qed.

Lemma create_failure_leaves_nothing_witness :
  let m := set_mem_oracle [false]
             (after (setup (bulk := bulk_ok) false) (mem_empty 0)) in
  Some 0%nat = Some 0%nat /\ handles (set_mem_oracle [] m) = handles m /\
  contexts (set_mem_oracle [] m) = contexts m /\ @nil event = [] /\
  (HG_NOMEM_ERROR = HG_INVALID_PARAM \/ HG_NOMEM_ERROR = HG_NOMEM_ERROR).
Proof.
  intros m.
  apply (create_failure_leaves_nothing m (set_mem_oracle [] m)
           1%nat 2%nat PEER 5%Z (Some 0%nat)
           (Some 0%nat) HG_NOMEM_ERROR []).
  - reflexivity.
  - discriminate.
Defined.

Section HandleLife.
Variables (m : Mem) (cp xp : ptr) (c : hg_class) (ctx : hg_context)
  (addr : na_addr_t) (id : hg_id_t) (h0 : ptr).
Hypothesis class_not_null : is_null cp = false.
Hypothesis context_not_null : is_null xp = false.
Hypothesis addr_not_null : is_null addr = false.
Hypothesis class_live : classes m !! cp = Some c.
Hypothesis context_live : contexts m !! xp = Some ctx.
Hypothesis context_of_class : ctx_hg_class ctx = cp.
Hypothesis memory_available : mem_oracle m = [].

(** X9.  With valid arguments and memory available, [HG_Create] returns
    a new handle that holds two references, and what [HG_Get_info] and
    [HG_Get_addr] then report for it is the class, the context, the
    address and the id it was created with. *)
Theorem create_then_get_info (i0 : hg_info) :
  exists p m',
    HG_Create cp xp addr id (Some h0) m
      = Some ((HG_SUCCESS, Some p), m', []) /\
    is_null p = false /\
    HG_Get_info p (Some i0) m' =
      Some ((HG_SUCCESS,
             Some {| info_hg_class := cp; info_context := xp;
                     info_addr := addr; info_id := id |}), m', []) /\
    HG_Get_addr p m' = Some (addr, m', []) /\
    ref_count_at p m' = Some 2%Z.
Proof.
  eexists _, _. split; [by eapply HG_Create_run|].
  split; [reflexivity|]. split; [|split].
  - unfold HG_Get_info. change (is_null (S (brk m))) with false. cbv iota.
    run_with load_handle_run. reflexivity.
  - unfold HG_Get_addr. change (is_null (S (brk m))) with false. cbv iota.
    run_with load_handle_run. reflexivity.
  - unfold ref_count_at. fields. by rewrite lookup_insert_eq.
Qed.

(** X10.  The handle [HG_Create] returns is released by two calls of
    [HG_Destroy]: the first one only takes a reference away, the second
    one frees the two buffers and the handle, and does not free the
    address, which stays the caller's. *)
Theorem create_release_release :
  exists p m1 m2 m3,
    HG_Create cp xp addr id (Some h0) m
      = Some ((HG_SUCCESS, Some p), m1, []) /\
    HG_Destroy p m1 = Some (HG_SUCCESS, m2, []) /\
    ref_count_at p m2 = Some 1%Z /\
    HG_Destroy p m2 =
      Some (HG_SUCCESS, m3,
            [EvFree (ObjInBuf p); EvFree (ObjOutBuf p);
             EvFree (ObjHandle p)]) /\
    handles m3 !! p = None /\
    contexts m3 = contexts m /\ classes m3 = classes m.
Proof.
  set (size := na_max_expected_size (na_class c)).
  set (p := S (brk m)).
  set (m1 := set_handles
               (<[p := created_handle cp xp size addr id 2%Z]> (handles m))
               (set_brk p m)).
  set (m2 := set_handles
               (<[p := created_handle cp xp size addr id 1%Z]> (handles m1))
               m1).
  assert (H1 : hg_destroy p m1 = Some (tt, m2, [])).
  { pose proof (hg_destroy_run m1 p (created_handle cp xp size addr id 2%Z))
      as Hrun.
    destruct (decide _) as [E|_] in Hrun; [discriminate E|].
    apply Hrun;
      [done | apply lookup_insert_eq | unfold is_int32; simpl; lia
      | discriminate]. }
  pose proof (hg_destroy_run m2 p (created_handle cp xp size addr id 1%Z))
    as H2.
  destruct (decide _) as [_|E] in H2; [|by destruct E].
  destruct H2 as (m3 & H2 & Hh3 & Hx3 & Hc3 & _);
    [done | apply lookup_insert_eq | unfold is_int32; simpl; lia
    | discriminate |].
  unfold release_events, created_handle in H2. fields in H2.
  rewrite addr_not_null in H2. simpl in H2.
  exists p, m1, m2, m3. split; [by eapply HG_Create_run|].
  unfold HG_Destroy. change (is_null p) with false. cbv iota.
  rewrite (bind_log _ _ _ _ _ _ H1), (bind_log _ _ _ _ _ _ H2).
  split; [reflexivity|]. split.
  { unfold ref_count_at. simpl. by rewrite lookup_insert_eq. }
  split; [reflexivity|]. split.
  { rewrite Hh3. apply lookup_delete_eq. }
  by rewrite Hx3, Hc3.
Qed.

End HandleLife.

Lemma create_then_get_info_witness :
  let m := after (setup (bulk := bulk_ok) false) (mem_empty 0) in
  exists p m',
    HG_Create 1%nat 2%nat PEER 5%Z (Some 0%nat) m
      = Some ((HG_SUCCESS, Some p), m', []) /\
    is_null p = false /\
    HG_Get_info p (Some {| info_hg_class := 0; info_context := 0;
                           info_addr := 0; info_id := 0%Z |}) m' =
      Some ((HG_SUCCESS,
             Some {| info_hg_class := 1%nat; info_context := 2%nat;
                     info_addr := PEER; info_id := 5%Z |}), m', []) /\
    HG_Get_addr p m' = Some (PEER, m', []) /\
    ref_count_at p m' = Some 2%Z.
Proof.
  intros m.
  eapply (create_then_get_info m 1%nat 2%nat _ _ PEER 5%Z 0%nat);
    reflexivity.
Defined.

Lemma create_release_release_witness :
  let m := after (setup (bulk := bulk_ok) false) (mem_empty 0) in
  exists p m1 m2 m3,
    HG_Create 1%nat 2%nat PEER 5%Z (Some 0%nat) m
      = Some ((HG_SUCCESS, Some p), m1, []) /\
    HG_Destroy p m1 = Some (HG_SUCCESS, m2, []) /\
    ref_count_at p m2 = Some 1%Z /\
    HG_Destroy p m2 =
      Some (HG_SUCCESS, m3,
            [EvFree (ObjInBuf p); EvFree (ObjOutBuf p);
             EvFree (ObjHandle p)]) /\
    handles m3 !! p = None /\
    contexts m3 = contexts m /\ classes m3 = classes m.
Proof.
  intros m.
  eapply (create_release_release m 1%nat 2%nat _ _ PEER 5%Z 0%nat);
    reflexivity.
Defined.

(** ** Delivery of completions *)

Lemma log_Some {A} e (r : option (A * Mem * list event)) a m ev :
  log e r = Some (a, m, ev) ->
  exists ev', r = Some (a, m, ev') /\ ev = e ++ ev'.
Proof.
  destruct r as [[[a' m0] ev0]|]; [|done].
  intros [= <- <- <-]. eauto.
Qed.

Lemma trigger_loop_end_count {user : UserCode} n :
  forall xp count m k m' ev,
    hg_trigger_loop n xp count m = Some (LoopEnd k, m', ev) ->
    k = (count + n)%nat.
Proof.
  induction n as [|n IH]; intros xp count m k m' ev Hrun.
  - injection Hrun as <- _ _. lia.
  - simpl in Hrun.
    peel Hrun as c0 Hl.
    destruct (completion_queue c0) as [|q0 q].
    { peel Hrun. discriminate Hrun. }
    peel Hrun.
    destruct (is_null _); [discriminate Hrun|].
    peel Hrun as ok Hm.
    destruct ok; cbn [negb] in Hrun; [|discriminate Hrun].
    peel Hrun. peel Hrun. peel Hrun. peel Hrun.
    apply IH in Hrun. lia.
Qed.

Lemma hg_destroy_handles p m m' ev :
  hg_destroy p m = Some (tt, m', ev) ->
  handles m' = handles m \/
  exists h,
    handles m !! p = Some h /\
    (handles m' =
       <[p := set_ref_count (hg_atomic_decr32 (h_ref_count h)) h]>
         (handles m) \/
     handles m' =
       delete p
         (<[p := set_ref_count (hg_atomic_decr32 (h_ref_count h)) h]>
            (handles m))).
Proof.
  unfold hg_destroy. intros Hrun.
  destruct (is_null p); [injection Hrun as <- _; by left|].
  right.
  apply bind_Some in Hrun as (h & m1 & e1 & e1' & Hl & Hrun & ->).
  unfold load_handle in Hl.
  destruct (handles m !! p) as [h0|] eqn:Hh; [|done].
  injection Hl as <- <- <-. exists h0. split; [done|].
  apply bind_Some in Hrun as ([] & m2 & e2 & e2' & Hs & Hrun & ->).
  injection Hs as <- <-.
  destruct (negb (hg_atomic_decr32 (h_ref_count h0) =? 0)%Z).
  { injection Hrun as <- _. by left. }
  right.
  apply bind_Some in Hrun as ([] & m3 & e3 & e3' & Haddr & Hrun & ->).
  match type of Haddr with
  | _ ?mm = _ => assert (H3 : handles m3 = handles mm)
  end.
  { destruct (negb (is_null (h_addr h0)) && h_addr_mine h0).
    - apply bind_Some in Haddr as (c & m4 & e4 & e4' & Hc & Haddr & _).
      apply load_class_inv in Hc as (_ & -> & _).
      apply bind_Some in Haddr as (r & m5 & e5 & e5' & Hna & Haddr & _).
      injection Haddr as <- _.
      unfold na_call in Hna.
      destruct (na_oracle _); by injection Hna as _ <- _.
    - by injection Haddr as <- _. }
  apply bind_Some in Hrun as ([] & m4 & e4 & e4' & Hin & Hrun & ->).
  assert (H4 : handles m4 = handles m3)
    by (destruct (h_in_buf h0); by injection Hin as <- _).
  apply bind_Some in Hrun as ([] & m5 & e5 & e5' & Hout & Hrun & ->).
  assert (H5 : handles m5 = handles m4)
    by (destruct (h_out_buf h0); by injection Hout as <- _).
  unfold free_handle in Hrun.
  destruct (handles m5 !! p); [|done].
  injection Hrun as <- _. simpl. by rewrite H5, H4, H3.
Qed.

Lemma same_deliveries_refl m : same_deliveries m m.
Proof. split; eauto 10. Qed.

Lemma same_deliveries_trans m1 m2 m3 :
  same_deliveries m1 m2 -> same_deliveries m2 m3 -> same_deliveries m1 m3.
Proof.
  intros [Hh12 Hc12] [Hh23 Hc23]. split.
  - intros p h3 H3. destruct (Hh23 p h3 H3) as (h2 & H2 & E1 & E2 & E3).
    destruct (Hh12 p h2 H2) as (h1 & H1 & F1 & F2 & F3).
    exists h1. repeat split; congruence.
  - intros x c3 H3. destruct (Hc23 x c3 H3) as (c2 & H2 & E).
    destruct (Hc12 x c2 H2) as (c1 & H1 & F).
    exists c1. split; congruence.
Qed.

Lemma same_deliveries_eq m m' :
  handles m' = handles m -> contexts m' = contexts m -> same_deliveries m m'.
Proof.
  intros Hh Hc. split.
  - intros p h'. rewrite Hh. eauto 10.
  - intros x c'. rewrite Hc. eauto.
Qed.

Lemma same_deliveries_hg_destroy p m m' ev :
  hg_destroy p m = Some (tt, m', ev) -> same_deliveries m m'.
Proof.
  intros Hrun. pose proof (keeps_contexts_hg_destroy p _ _ _ _ Hrun) as Hc.
  apply hg_destroy_handles in Hrun.
  split; [|intros x c'; rewrite Hc; eauto].
  intros q h' Hq.
  destruct Hrun as [E|(h & Hh & [E|E])]; rewrite E in Hq.
  - eauto 10.
  - destruct (decide (q = p)) as [->|Hne].
    + rewrite lookup_insert_eq in Hq. injection Hq as <-. eauto 10.
    + rewrite lookup_insert_ne in Hq by done. eauto 10.
  - destruct (decide (q = p)) as [->|Hne].
    + by rewrite lookup_delete_eq in Hq.
    + rewrite lookup_delete_ne, lookup_insert_ne in Hq by done. eauto 10.
Qed.

Lemma quiet_completion_calls ev :
  Forall (fun e => is_completion_cb e = false) ev -> completion_calls ev = [].
Proof.
  induction 1 as [|e ev He _ IH]; [done|].
  unfold completion_calls in *.
  change (omap ?f (e :: ev)) with
    (match f e with Some y => y :: omap f ev | None => omap f ev end).
  by destruct e.
Qed.

Lemma completion_calls_app ev1 ev2 :
  completion_calls (ev1 ++ ev2) = completion_calls ev1 ++ completion_calls ev2.
Proof. apply omap_app. Qed.

Section Calls.
Context {user : UserCode}.

(** The completion callbacks leave the contexts and the handles as they
    find them, and do not themselves call completion callbacks. *)
Hypothesis cb_keeps : forall fn info, keeps contexts (cb_sem fn info).
Hypothesis cb_keeps_handles : forall fn info, keeps handles (cb_sem fn info).
Hypothesis cb_quiet : forall fn info, quiet (cb_sem fn info).

Lemma trigger_loop_calls (m0 : Mem) n : forall xp count m c k m' ev,
  same_deliveries m0 m ->
  contexts m !! xp = Some c ->
  hg_trigger_loop n xp count m = Some (LoopEnd k, m', ev) ->
  completion_calls ev =
    omap (delivery m0)
      (rev (drop (length (completion_queue c) - n) (completion_queue c))).
Proof.
  induction n as [|n IH]; intros xp count m c k m' ev Hsame Hc Hrun.
  - simpl in Hrun. injection Hrun as _ _ <-.
    by rewrite Nat.sub_0_r, drop_all.
  - pose proof (trigger_loop_pops cb_keeps _ _ _ _ _ _ _ _ Hc Hrun)
      as [Hle _].
    simpl in Hrun.
    apply bind_Some in Hrun as (c0 & m1 & e0 & e0' & Hload & Hrun & ->).
    apply load_context_inv in Hload as (Hc0 & -> & ->).
    rewrite Hc in Hc0. injection Hc0 as <-.
    destruct (completion_queue c) as [|q0 q] eqn:Hq.
    { simpl in Hle. lia. }
    rewrite <- Hq in *.
    apply bind_Some in Hrun as ([] & m2 & e1 & e1' & Hstore & Hrun & ->).
    injection Hstore as <- <-.
    set (p := List.last (completion_queue c) NULL) in *.
    destruct (is_null p); [discriminate Hrun|].
    apply bind_Some in Hrun as (ok & m3 & e2 & e2' & Hmalloc & Hrun & ->).
    apply malloc_frame in Hmalloc as (Hh3 & Hx3 & _ & _ & ->).
    destruct ok; cbn [negb] in Hrun; [|discriminate Hrun].
    apply bind_Some in Hrun as (h & m4 & e3 & e3' & Hh & Hrun & ->).
    unfold load_handle in Hh.
    destruct (handles m3 !! p) as [h1|] eqn:Hp; [|done].
    injection Hh as <- <- <-.
    apply bind_Some in Hrun as (hc & m5 & e4 & e4' & Hhc & Hrun & ->).
    apply load_context_inv in Hhc as (Hhc & -> & ->).
    apply bind_Some in Hrun as ([] & m6 & e5 & e5' & Hcb & Hrun & ->).
    apply bind_Some in Hrun as ([] & m7 & e6 & e6' & Hd & Hrun & ->).
    pose (c1 := set_completion_queue (removelast (completion_queue c)) c).
    (* the memory at the callback is the one at the call, but for the
       queue *)
    assert (Hsame3 : same_deliveries m0 m3).
    { eapply same_deliveries_trans; [exact Hsame|]. split.
      - intros x h'. rewrite Hh3. simpl. eauto 10.
      - intros x c'. rewrite Hx3. simpl.
        destruct (decide (x = xp)) as [->|Hne].
        + rewrite lookup_insert_eq. intros [= <-]. eauto.
        + rewrite lookup_insert_ne by done. eauto. }
    assert (Hcalls : completion_calls e5 = from_option (fun d => [d]) []
                                            (delivery m0 p) /\
                     handles m6 = handles m3 /\ contexts m6 = contexts m3).
    { destruct Hsame3 as [Hsh Hsc].
      destruct (Hsh p h1 Hp) as (h0 & Hp0 & Ecb & Earg & Ectx).
      destruct (Hsc _ hc Hhc) as (hc0 & Hhc0 & Ecls).
      unfold delivery. rewrite Hp0. simpl. rewrite <- Ectx, Hhc0. simpl.
      rewrite <- Ecb, <- Earg, <- Ecls.
      destruct (is_null (h_callback h1)); cbn [negb] in Hcb.
      - by injection Hcb as <- <-.
      - apply bind_Some in Hcb as ([] & m8 & e7 & e7' & Hemit & Hcb & ->).
        injection Hemit as <- <-.
        apply bind_Some in Hcb as (r & m9 & e8 & e8' & Hcb & Hret & ->).
        injection Hret as <- <-.
        split; [|split; [by eapply cb_keeps_handles
                        | by eapply cb_keeps]].
        rewrite app_nil_r. simpl.
        change (completion_calls (?e :: e8)) with
          (match e with
           | EvCb fn i => (fn, i) :: completion_calls e8
           | _ => completion_calls e8
           end).
        simpl.
        by rewrite (quiet_completion_calls _ (cb_quiet _ _ _ _ _ _ Hcb)). }
    destruct Hcalls as (Hcalls & Hh6 & Hx6).
    assert (Hsame7 : same_deliveries m0 m7).
    { eapply same_deliveries_trans;
        [|exact (same_deliveries_hg_destroy _ _ _ _ Hd)].
      eapply same_deliveries_trans; [exact Hsame3|].
      by apply same_deliveries_eq. }
    assert (Hc1 : contexts m7 !! xp = Some c1).
    { rewrite (keeps_contexts_hg_destroy _ _ _ _ _ Hd), Hx6, Hx3. simpl.
      apply lookup_insert_eq. }
    pose proof (IH xp (S count) m7 c1 k m' _ Hsame7 Hc1 Hrun) as Hrest.
    rewrite !completion_calls_app. simpl.
    rewrite Hcalls, Hrest.
    rewrite (quiet_completion_calls _ (quiet_hg_destroy _ _ _ _ _ Hd)).
    simpl.
    assert (Hsplit : completion_queue c =
                       removelast (completion_queue c) ++ [p]).
    { apply app_removelast_last. by rewrite Hq. }
    subst c1. simpl.
    set (q1 := removelast (completion_queue c)) in *.
    rewrite Hsplit. rewrite length_app. simpl.
    rewrite Hsplit, length_app in Hle. simpl in Hle.
    replace (length q1 + 1 - S n)%nat with (length q1 - n)%nat by lia.
    rewrite drop_app_le by lia. rewrite rev_unit.
    change (omap ?f (p :: ?l)) with
      (match f p with Some y => y :: omap f l | None => omap f l end).
    by destruct (delivery m0 p).
Qed.

(** X11.  [HG_Trigger] returns [HG_SUCCESS] only when it has delivered
    exactly [max_count] completions.  With completion callbacks that
    leave the contexts and the handles alone and call no completion
    callback themselves: the completion queue held at least [max_count]
    handles, the count written through a non-null [actual_count] is
    [max_count], never less, and the completion callbacks the run has
    called are those of the [max_count] handles at the tail of the
    queue, the oldest first, each with the argument stored with it, its
    context, the class of that context and the handle, and none for a
    handle that has no callback. *)
Theorem trigger_success_counts_max
    (m m' : Mem) (cp xp : ptr) (ctx : hg_context) (timeout : Z)
    (max_count : nat) (actual_count out : option nat) (ev : list event) :
  contexts m !! xp = Some ctx ->
  HG_Trigger cp xp timeout max_count actual_count m
    = Some ((HG_SUCCESS, out), m', ev) ->
  out = match actual_count with
        | Some _ => Some max_count
        | None => None
        end /\
  is_null cp = false /\ is_null xp = false /\
  (max_count <= length (completion_queue ctx))%nat /\
  completion_calls ev =
    omap (delivery m)
      (rev (drop (length (completion_queue ctx) - max_count)
              (completion_queue ctx))).
Proof.
  unfold HG_Trigger. intros Hctx Hrun.
  destruct (is_null cp); [discriminate Hrun|].
  destruct (is_null xp); [discriminate Hrun|].
  apply bind_Some in Hrun as (e & m1 & e1 & e1' & Hloop & Hrun & ->).
  destruct e as [k|r k].
  - pose proof (trigger_loop_end_count _ _ _ _ _ _ _ Hloop) as Hk.
    simpl in Hk. subst k.
    injection Hrun as <- <- <-.
    destruct (trigger_loop_pops cb_keeps _ _ _ _ _ _ _ _ Hctx Hloop)
      as [Hle _].
    repeat split; [exact Hle|].
    rewrite app_nil_r.
    exact (trigger_loop_calls m _ _ _ _ _ _ _ _
             (same_deliveries_refl m) Hctx Hloop).
  - apply trigger_loop_goto_fails in Hloop.
    injection Hrun as -> _ _ _. contradiction.
Qed.

End Calls.

Lemma user_code_cb_keeps_handles fn info :
  keeps handles (cb_sem (UserCode := user_code) fn info).
Proof. simpl. apply keeps_ret. Qed.

Lemma user_code_cb_quiet fn info :
  quiet (cb_sem (UserCode := user_code) fn info).
Proof. simpl. apply quiet_ret. Qed.

Lemma trigger_success_counts_max_witness :
  let m := after two_self_forwards (mem_empty 0) in
  let called p :=
    (ON_RESPONDED,
     {| cbi_arg := NULL; cbi_ret := HG_SUCCESS; cbi_hg_class := 1%nat;
        cbi_context := 2%nat; cbi_handle := p |}) in
  queue_at 2%nat m = Some [4%nat; 3%nat] /\
  exists m' ev,
    HG_Trigger (user := user_code) 1%nat 2%nat 0%Z 2 (Some 9%nat) m
      = Some ((HG_SUCCESS, Some 2%nat), m', ev) /\
    completion_calls ev = [called 3%nat; called 4%nat].
Proof.
  intros m called. split; [vm_compute; reflexivity|].
  destruct (HG_Trigger (user := user_code) 1%nat 2%nat 0%Z 2 (Some 9%nat) m)
    as [[[[r out] m'] ev]|] eqn:Hrun; [|vm_compute in Hrun; discriminate Hrun].
  assert (Hr : result (HG_Trigger (user := user_code) 1%nat 2%nat 0%Z 2
                         (Some 9%nat) m) = Some (HG_SUCCESS, Some 2%nat))
    by (vm_compute; reflexivity).
  rewrite Hrun in Hr. injection Hr as -> ->.
  exists m', ev. split; [reflexivity|].
  pose (ctx := {| ctx_hg_class := 1%nat; bulk_context := 1001%nat;
                  completion_queue := [4%nat; 3%nat];
                  processing_list := [] |}).
  destruct (trigger_success_counts_max (user := user_code)
              user_code_cb_keeps user_code_cb_keeps_handles
              user_code_cb_quiet m m' 1%nat 2%nat ctx 0%Z 2%nat
              (Some 9%nat) (Some 2%nat) ev)
    as (_ & _ & _ & _ & Hcalls);
    [vm_compute; reflexivity | exact Hrun |].
  rewrite Hcalls. vm_compute. reflexivity.
Defined.

Section Delivery.
Context {user : UserCode}.

(** The completion callbacks do not touch the contexts. *)
Hypothesis cb_keeps : forall fn info, keeps contexts (cb_sem fn info).

(** X12.  When [HG_Trigger] returns [HG_SUCCESS], the completion queue
    held at least [max_count] handles, and what it has lost is exactly
    the [max_count] handles at its tail, the ones completed first; the
    handles completed later are still queued, in their order. *)
Theorem trigger_success_takes_oldest (m m' : Mem) (cp xp : ptr)
    (ctx : hg_context) (timeout : Z) (max_count : nat)
    (actual_count out : option nat) (ev : list event) :
  contexts m !! xp = Some ctx ->
  HG_Trigger cp xp timeout max_count actual_count m
    = Some ((HG_SUCCESS, out), m', ev) ->
  (max_count <= length (completion_queue ctx))%nat /\
  queue_at xp m' =
    Some (take (length (completion_queue ctx) - max_count)
            (completion_queue ctx)).
Proof.
  unfold HG_Trigger. intros Hctx Hrun.
  destruct (is_null cp); [discriminate Hrun|].
  destruct (is_null xp); [discriminate Hrun|].
  peel Hrun as e Hloop.
  destruct e as [k|r k].
  - injection Hrun as _ <- _.
    destruct (trigger_loop_pops cb_keeps _ _ _ _ _ _ _ _ Hctx Hloop)
      as [Hle Hq].
    split; [exact Hle|]. unfold queue_at. by rewrite Hq.
  - apply trigger_loop_goto_fails in Hloop.
    injection Hrun as -> _ _ _. contradiction.
Qed.

End Delivery.

Lemma trigger_success_takes_oldest_witness :
  let m := after (forward_echo (bulk := bulk_ok) SELF) (mem_empty 0) in
  exists m',
    final (HG_Trigger (user := user_code) 1%nat 2%nat 0%Z 1 (Some 9%nat) m)
      = Some m' /\
    (1 <= 1)%nat /\ queue_at 2%nat m' = Some [].
Proof.
  intros m. eexists. split; [vm_compute; reflexivity|].
  eapply (trigger_success_takes_oldest (user := user_code) user_code_cb_keeps
            m _ 1%nat 2%nat
            {| ctx_hg_class := 1%nat; bulk_context := 1001%nat;
               completion_queue := [3%nat]; processing_list := [] |}
            0%Z 1%nat (Some 9%nat) (Some 1%nat) _).
  - vm_compute. reflexivity.
  - vm_compute. reflexivity.
Defined.

Lemma last_cons_snoc {A} (x : A) (l : list A) (y d : A) :
  List.last (x :: l ++ [y]) d = y.
Proof.
  change (x :: l ++ [y]) with ((x :: l) ++ [y]). apply last_last.
Qed.

Section Order.
Context {user : UserCode}.

(** The first round of the loop of [HG_Trigger] on a queue that ends
    with [p]: the callback of [p] is the first thing called. *)
Lemma trigger_loop_head (m : Mem) (xp : ptr) (ctx : hg_context)
    (q : list ptr) (p : ptr) (h : hg_handle) (hctx : hg_context)
    (n count : nat) :
  contexts m !! xp = Some ctx ->
  completion_queue ctx = q ++ [p] ->
  is_null p = false ->
  handles m !! p = Some h ->
  contexts m !! h_context h = Some hctx ->
  is_null (h_callback h) = false ->
  mem_oracle m = [] ->
  exists rest,
    hg_trigger_loop (S n) xp count m =
      log [EvCb (h_callback h)
             {| cbi_arg := h_arg h; cbi_ret := HG_SUCCESS;
                cbi_hg_class := ctx_hg_class hctx;
                cbi_context := h_context h; cbi_handle := p |}] rest.
Proof.
  intros Hctx Hq Hp Hh Hhctx Hcb Hmem.
  change (hg_trigger_loop (S n) xp count m) with
    ((ctx <- load_context xp ;;
      match completion_queue ctx with
      | [] =>
          (fun m => hg_trigger_wait (length (wait_oracle m)) m) ;;
          ret (GotoDone HG_TIMEOUT count)
      | _ :: _ =>
          let hg_handle := List.last (completion_queue ctx) NULL in
          store_context xp
            (set_completion_queue (removelast (completion_queue ctx)) ctx) ;;
          if is_null hg_handle then ret (GotoDone HG_INVALID_PARAM count) else
          ok <- malloc ;;
          if negb ok then ret (GotoDone HG_NOMEM_ERROR count) else
          h <- load_handle hg_handle ;;
          hctx <- load_context (h_context h) ;;
          let hg_cb_info :=
            {| cbi_arg := h_arg h; cbi_ret := HG_SUCCESS;
               cbi_hg_class := ctx_hg_class hctx;
               cbi_context := h_context h; cbi_handle := hg_handle |} in
          (if negb (is_null (h_callback h)) then
             emit (EvCb (h_callback h) hg_cb_info) ;;
             _ <- cb_sem (h_callback h) hg_cb_info ;; ret tt
           else ret tt) ;;
          hg_destroy hg_handle ;;
          hg_trigger_loop n xp (S count)
      end) m).
  run_with load_context_run.
  assert (Hlast : List.last (completion_queue ctx) NULL = p).
  { rewrite Hq. apply last_last. }
  destruct (completion_queue ctx) as [|q0 q1] eqn:Hcq.
  { destruct q; discriminate Hq. }
  cbv zeta. rewrite Hlast.
  run_store. rewrite Hp.
  run_with malloc_run. cbn [negb].
  run_with load_handle_run.
  assert (Hx : exists hctx',
             (<[xp := set_completion_queue (removelast (q0 :: q1)) ctx]>
                (contexts m)) !! h_context h = Some hctx' /\
             ctx_hg_class hctx' = ctx_hg_class hctx).
  { destruct (decide (h_context h = xp)) as [E|E].
    - rewrite E, lookup_insert_eq. eexists. split; [reflexivity|].
      rewrite E, Hctx in Hhctx. by injection Hhctx as <-.
    - rewrite lookup_insert_ne by done. eauto. }
  destruct Hx as (hctx' & Hx & Hcls).
  erewrite bind_log; [|apply load_context_run; fields; exact Hx].
  rewrite log_nil. rewrite Hcb. cbn [negb]. rewrite Hcls.
  unfold bind at 1. unfold bind at 1. unfold emit at 1.
  match goal with
  | |- context [bind (cb_sem ?f ?i) ?k ?mm] =>
      destruct (bind (cb_sem f i) k mm) as [[[[] m1] e1]|]
  end.
  - match goal with
    | |- context [bind (hg_destroy p) ?k m1] =>
        destruct (bind (hg_destroy p) k m1) as [[[e' m2] e2]|]
    end.
    + eexists (Some (_, _, _)). simpl. reflexivity.
    + by exists None.
  - by exists None.
Qed.

(** X13.  Completions are delivered oldest first.  For a context whose
    completion queue ends with the handle [p], one more completion,
    of any handle, followed by [HG_Trigger]: whatever that run goes on
    to do, the first user function it calls is the completion callback
    of [p], with the argument stored with it, the class of its context,
    its context, the handle itself and the status [HG_SUCCESS]. *)
Theorem trigger_delivers_oldest_first (m m' : Mem) (cp xp : ptr)
    (ctx : hg_context) (q : list ptr) (p p' : ptr) (h h' : hg_handle)
    (hctx : hg_context) (timeout : Z) (n : nat)
    (actual_count : option nat) (res : hg_return_t * option nat)
    (ev : list event) :
  is_null cp = false ->
  is_null xp = false ->
  contexts m !! xp = Some ctx ->
  completion_queue ctx = q ++ [p] ->
  is_null p = false ->
  handles m !! p = Some h ->
  contexts m !! h_context h = Some hctx ->
  is_null (h_callback h) = false ->
  handles m !! p' = Some h' ->
  h_context h' = xp ->
  mem_oracle m = [] ->
  (_ <- hg_complete p' ;;
   HG_Trigger cp xp timeout (S n) actual_count) m = Some (res, m', ev) ->
  exists ev',
    ev = EvCb (h_callback h)
           {| cbi_arg := h_arg h; cbi_ret := HG_SUCCESS;
              cbi_hg_class := ctx_hg_class hctx;
              cbi_context := h_context h; cbi_handle := p |} :: ev'.
Proof.
  intros Hcp Hxp Hctx Hq Hp Hh Hhctx Hcb Hh' Hx' Hmem Hrun.
  assert (Hcomplete :
            hg_complete p' m =
              Some (HG_SUCCESS,
                    set_contexts
                      (<[xp := set_completion_queue
                                 (p' :: completion_queue ctx) ctx]>
                         (contexts m)) m, [])).
  { unfold hg_complete. run_with load_handle_run. rewrite Hx'.
    run_with load_context_run. run_with malloc_run. cbn [negb].
    run_store. reflexivity. }
  rewrite (bind_log _ _ _ _ _ _ Hcomplete), log_nil in Hrun.
  unfold HG_Trigger in Hrun. rewrite Hcp, Hxp in Hrun.
  peel Hrun as e Hloop.
  set (ctx1 := set_completion_queue (p' :: completion_queue ctx) ctx)
    in Hloop.
  set (m1 := set_contexts (<[xp := ctx1]> (contexts m)) m) in Hloop.
  assert (Hx : exists hctx1,
             contexts m1 !! h_context h = Some hctx1 /\
             ctx_hg_class hctx1 = ctx_hg_class hctx).
  { subst m1. fields. destruct (decide (h_context h = xp)) as [E|E].
    - rewrite E, lookup_insert_eq. eexists. split; [reflexivity|].
      rewrite E, Hctx in Hhctx. by injection Hhctx as <-.
    - rewrite lookup_insert_ne by done. eauto. }
  destruct Hx as (hctx1 & Hhctx1 & Hcls).
  destruct (trigger_loop_head m1 xp ctx1 (p' :: q) p h hctx1 n 0%nat)
    as (rest & Hhead); try done.
  - subst m1. fields. apply lookup_insert_eq.
  - subst ctx1. fields. by rewrite Hq.
  - rewrite Hhead, Hcls in Hloop.
    apply log_Some in Hloop as (ev' & _ & ->).
    by eexists.
Qed.

End Order.


Lemma trigger_delivers_oldest_first_witness :
  let m := after (forward_echo (bulk := bulk_ok) SELF) (mem_empty 0) in
  exists res m' ev',
    (_ <- hg_complete 3%nat ;;
     HG_Trigger (user := user_code) 1%nat 2%nat 0%Z 1 (Some 9%nat)) m
      = Some (res, m',
              EvCb ON_RESPONDED
                {| cbi_arg := NULL; cbi_ret := HG_SUCCESS;
                   cbi_hg_class := 1%nat; cbi_context := 2%nat;
                   cbi_handle := 3%nat |} :: ev').
Proof.
  intros m.
  destruct ((_ <- hg_complete 3%nat ;;
             HG_Trigger (user := user_code) 1%nat 2%nat 0%Z 1 (Some 9%nat)) m)
    as [[[res m'] ev]|] eqn:Hrun; [|vm_compute in Hrun; discriminate Hrun].
  pose (h := {| h_hg_class := 1%nat; h_context := 2%nat;
                h_callback := ON_RESPONDED; h_arg := NULL;
                h_id := 2090214596%Z; h_cookie := 0%Z; h_tag := 0%Z;
                h_addr := SELF; h_addr_mine := false;
                h_in_buf := Some [2090214596; 0; 0; 0; 0; 0; 0; 0]%Z;
                h_in_buf_size := 8;
                h_out_buf := Some [0; 0; 0; 0; 0; 0; 0; 0]%Z;
                h_out_buf_size := 8; h_na_send_op_id := 0%Z;
                h_na_recv_op_id := 0%Z; h_ref_count := 2%Z |}).
  pose (ctx := {| ctx_hg_class := 1%nat; bulk_context := 1001%nat;
                  completion_queue := [3%nat]; processing_list := [] |}).
  destruct (trigger_delivers_oldest_first (user := user_code)
              m m' 1%nat 2%nat ctx [] 3%nat 3%nat h h ctx 0%Z 0%nat
              (Some 9%nat) res ev) as [ev' ->];
    try (vm_compute; reflexivity).
  - exact Hrun.
  - by exists res, m', ev'.
Defined.

(** ** The listen pump *)

Lemma na_call_ok op m :
  na_oracle m = [] -> na_call op m = Some (NA_SUCCESS, m, [EvNa op NA_SUCCESS]).
Proof. unfold na_call. by intros ->. Qed.

Lemma na_post_ok op m :
  na_oracle m = [] ->
  na_post op m =
    Some ((NA_SUCCESS, Some (Z.of_nat (S (brk m)))), set_brk (S (brk m)) m,
          [EvNa op NA_SUCCESS]).
Proof.
  intros Hna. unfold na_post.
  rewrite (bind_log _ _ _ _ _ _ (na_call_ok op m Hna)). cbn [na_ok].
  rewrite (bind_log _ _ _ _ _ _ (fresh_run m)). reflexivity.
Qed.

Section Listen.
Variables (m : Mem) (cp xp : ptr) (c : hg_class) (ctx : hg_context).
Hypothesis class_live : classes m !! cp = Some c.
Hypothesis context_live : contexts m !! xp = Some ctx.
Hypothesis memory_available : mem_oracle m = [].
Hypothesis network_accepts : na_oracle m = [].

(** X14.  [hg_listen] keeps one receive posted.  On an empty processing
    list, with memory available and a network layer that accepts the
    post, it creates one handle with one reference, puts it on the list
    and posts one unexpected receive for it, with the maximum message
    size and [hg_recv_input_cb]; on a list that holds a handle, and so
    on the list it has just filled, it posts nothing and changes
    nothing. *)
Theorem listen_keeps_one_receive_posted :
  let p := S (brk m) in
  let size := na_max_expected_size (na_class c) in
  (processing_list ctx = [] ->
   exists m',
     hg_listen cp xp m =
       Some (HG_SUCCESS, m',
             [EvNa (NA_Msg_recv_unexpected CB_recv_input p size)
                NA_SUCCESS]) /\
     processing_at xp m' = Some [p] /\
     handles m' !! p =
       Some (set_na_recv_op_id (Z.of_nat (S p))
               (created_handle cp xp size NA_ADDR_NULL 0%Z 1%Z)) /\
     hg_listen cp xp m' = Some (HG_SUCCESS, m', [])) /\
  (processing_list ctx <> [] ->
   hg_listen cp xp m = Some (HG_SUCCESS, m, [])).
Proof.
  intros p size. split.
  - intros Hlist.
    unfold hg_listen at 1. rewrite memory_available. simpl length.
    cbn [hg_listen_loop].
    run_with load_context_run. rewrite Hlist.
    cbn [length Nat.ltb Nat.leb negb HG_MAX_PROCESSING_LIST_SIZE].
    unfold hg_listen_round.
    erewrite bind_log; [|by eapply hg_create_run].
    rewrite log_nil. change (is_null (S (brk m))) with false. cbv iota.
    run_with malloc_run. cbn [negb].
    erewrite bind_log; [|run_with modify_context_run; reflexivity].
    rewrite log_nil. fields.
    run_with load_class_run.
    run_with load_handle_run.
    cbn [created_handle h_in_buf_size].
    erewrite bind_log; [|apply na_post_ok; fields; exact network_accepts].
    fields.
    erewrite (bind_log (modify_handle _ _));
      [|apply modify_handle_run; run_lookup].
    rewrite log_nil. fields. cbn [na_ok negb].
    erewrite (bind_log (load_context _));
      [|apply load_context_run; run_lookup].
    rewrite log_nil. fields. rewrite Hlist.
    cbn [app length Nat.leb negb].
    eexists. split; [reflexivity|]. split; [|split].
    + unfold processing_at. fields. by rewrite lookup_insert_eq.
    + fields. by rewrite lookup_insert_eq.
    + unfold hg_listen.
      eapply hg_listen_loop_full; [fields; apply lookup_insert_eq|].
      simpl. lia.
  - intros Hlist. unfold hg_listen.
    eapply hg_listen_loop_full; [exact context_live|].
    destruct (processing_list ctx); [done | simpl; lia].
Qed.

End Listen.


Lemma na_post_fail op m r rest :
  na_oracle m = r :: rest ->
  na_ok r = false ->
  na_post op m = Some ((r, None), set_na_oracle rest m, [EvNa op r]).
Proof.
  intros Hna Hr. unfold na_post, na_call, bind. rewrite Hna, Hr.
  reflexivity.
Qed.

(** X25.  When the network layer refuses the post of the receive,
    [hg_listen] returns [HG_NA_ERROR] and leaves the handle it has
    created on the processing list.  The list being full, a later
    [hg_listen] posts nothing, whatever the network layer would answer:
    the context stays without a posted receive. *)
Theorem listen_post_failure_is_final (m : Mem) (cp xp : ptr)
    (c : hg_class) (ctx : hg_context) (r : na_return_t)
    (rest : list na_return_t) :
  classes m !! cp = Some c ->
  contexts m !! xp = Some ctx ->
  processing_list ctx = [] ->
  mem_oracle m = [] ->
  na_oracle m = r :: rest ->
  na_ok r = false ->
  let p := S (brk m) in
  let size := na_max_expected_size (na_class c) in
  exists m',
    hg_listen cp xp m =
      Some (HG_NA_ERROR, m',
            [EvNa (NA_Msg_recv_unexpected CB_recv_input p size) r]) /\
    processing_at xp m' = Some [p] /\
    handles m' !! p =
      Some (created_handle cp xp size NA_ADDR_NULL 0%Z 1%Z) /\
    forall answers,
      hg_listen cp xp (set_na_oracle answers m')
        = Some (HG_SUCCESS, set_na_oracle answers m', []).
Proof.
  intros Hc Hctx Hlist Hmem Hna Hr p size.
  unfold hg_listen at 1. rewrite Hmem. simpl length.
  cbn [hg_listen_loop].
  run_with load_context_run. rewrite Hlist.
  cbn [length Nat.ltb Nat.leb negb HG_MAX_PROCESSING_LIST_SIZE].
  unfold hg_listen_round.
  erewrite bind_log; [|by eapply hg_create_run].
  rewrite log_nil. change (is_null (S (brk m))) with false. cbv iota.
  run_with malloc_run. cbn [negb].
  erewrite bind_log; [|run_with modify_context_run; reflexivity].
  rewrite log_nil. fields.
  run_with load_class_run.
  run_with load_handle_run.
  cbn [created_handle h_in_buf_size].
  erewrite bind_log; [|eapply na_post_fail; [fields; exact Hna|exact Hr]].
  fields. rewrite bind_ret. rewrite Hr. cbn [negb].
  eexists. split; [reflexivity|]. split; [|split].
  - unfold processing_at. fields. rewrite lookup_insert_eq. simpl.
    by rewrite Hlist.
  - fields. by rewrite lookup_insert_eq.
  - intros answers. unfold hg_listen.
    eapply hg_listen_loop_full; [fields; apply lookup_insert_eq|].
    simpl. rewrite Hlist. simpl. lia.
Qed.

Lemma listen_keeps_one_receive_posted_witness :
  let m := after (setup (bulk := bulk_ok) true) (mem_empty 0) in
  exists m',
    hg_listen 1%nat 2%nat m =
      Some (HG_SUCCESS, m',
            [EvNa (NA_Msg_recv_unexpected CB_recv_input 3%nat 8) NA_SUCCESS])
    /\ processing_at 2%nat m' = Some [3%nat]
    /\ handles m' !! 3%nat =
         Some (set_na_recv_op_id 4%Z
                 (created_handle 1%nat 2%nat 8 NA_ADDR_NULL 0%Z 1%Z))
    /\ hg_listen 1%nat 2%nat m' = Some (HG_SUCCESS, m', []).
Proof.
  intros m.
  pose (c := {| na_class := na_demo 3 true; na_context := 5%nat;
                bulk_class := 1000%nat; bulk_class_external := false;
                func_map :=
                  Some (<[2090214596%Z :=
                            {| rpc_cb := RESPOND_CB; rpc_data := NULL;
                               rpc_free_callback := NULL |}]> ∅);
                request_tag := 0%Z; request_max_tag := 3%Z |}).
  pose (ctx := {| ctx_hg_class := 1%nat; bulk_context := 1001%nat;
                  completion_queue := []; processing_list := [] |}).
  assert (Hc : classes m !! 1%nat = Some c) by (vm_compute; reflexivity).
  assert (Hx : contexts m !! 2%nat = Some ctx) by (vm_compute; reflexivity).
  exact (proj1 (listen_keeps_one_receive_posted m 1%nat 2%nat c ctx
                  Hc Hx eq_refl eq_refl) eq_refl).
Defined.

Lemma listen_post_failure_is_final_witness :
  let m := set_na_oracle [NA_PROTOCOL_ERROR]
             (after (setup (bulk := bulk_ok) true) (mem_empty 0)) in
  exists m',
    hg_listen 1%nat 2%nat m =
      Some (HG_NA_ERROR, m',
            [EvNa (NA_Msg_recv_unexpected CB_recv_input 3%nat 8)
               NA_PROTOCOL_ERROR]) /\
    processing_at 2%nat m' = Some [3%nat] /\
    hg_listen 1%nat 2%nat (set_na_oracle [] m')
      = Some (HG_SUCCESS, set_na_oracle [] m', []).
Proof.
  intros m.
  pose (c := {| na_class := na_demo 3 true; na_context := 5%nat;
                bulk_class := 1000%nat; bulk_class_external := false;
                func_map :=
                  Some (<[2090214596%Z :=
                            {| rpc_cb := RESPOND_CB; rpc_data := NULL;
                               rpc_free_callback := NULL |}]> ∅);
                request_tag := 0%Z; request_max_tag := 3%Z |}).
  pose (ctx := {| ctx_hg_class := 1%nat; bulk_context := 1001%nat;
                  completion_queue := []; processing_list := [] |}).
  assert (Hc : classes m !! 1%nat = Some c) by (vm_compute; reflexivity).
  assert (Hx : contexts m !! 2%nat = Some ctx) by (vm_compute; reflexivity).
  destruct (listen_post_failure_is_final m 1%nat 2%nat c ctx
              NA_PROTOCOL_ERROR [] Hc Hx eq_refl eq_refl eq_refl eq_refl)
    as (m' & Hrun & Hlist & _ & Hnext).
  exists m'. split; [exact Hrun|]. split; [exact Hlist|]. apply Hnext.
Defined.

(** ** Arrival of a request *)

Section Arrival.
Context {codec : HeaderCodec} {user : UserCode}.

Lemma bind_of_log {A B} (c c' : M A) (k : A -> M B) m m' e :
  c m = log e (c' m') -> bind c k m = log e (bind c' k m').
Proof.
  unfold bind, log. intros ->.
  destruct (c' m') as [[[a m1] e1]|]; [|done].
  destruct (k a m1) as [[[b m2] e2]|]; [|done].
  by rewrite app_assoc.
Qed.

(** The processor on a request that decodes, verifies and names a
    registered callback. *)
Lemma hg_process_dispatch (m : Mem) (p : ptr) (h : hg_handle)
    (c : hg_class) (fm : gmap Z hg_rpc_info) (rinfo : hg_rpc_info)
    (msg msg' : buffer) (rh : hg_header_request) :
  handles m !! p = Some h ->
  h_in_buf h = Some msg ->
  hg_proc_header_request msg (h_in_buf_size h)
    (hg_proc_header_request_init 0%Z HG_BULK_NULL) HG_DECODE
    = (HG_SUCCESS, msg', rh) ->
  hg_proc_header_request_verify rh = HG_SUCCESS ->
  classes m !! h_hg_class h = Some c ->
  func_map c = Some fm ->
  fm !! req_id rh = Some rinfo ->
  is_null (rpc_cb rinfo) = false ->
  hg_process p m =
    log [EvRpcCb (rpc_cb rinfo) p]
      (rpc_cb_sem (rpc_cb rinfo) p
         (set_handles
            (<[p := set_ref_count (hg_atomic_incr32 (h_ref_count h))
                      (set_cookie (req_cookie rh)
                         (set_id (req_id rh)
                            (set_in_buf (Some msg') h)))]> (handles m))
            m)).
Proof.
  intros Hh Hin Hdec Hver Hc Hfm Hlook Hcb.
  unfold hg_process.
  run_with load_handle_run. rewrite Hin. simpl deref. rewrite bind_ret.
  rewrite Hdec.
  run_with modify_handle_run. cbn [hg_ok negb].
  rewrite Hver. cbn [hg_ok negb].
  run_with modify_handle_run.
  run_with modify_handle_run.
  run_with load_class_run. rewrite Hfm. simpl deref. rewrite bind_ret.
  rewrite Hlook, Hcb.
  run_with modify_handle_run.
  rewrite bind_emit. rewrite !insert_insert_eq. reflexivity.
Qed.

(** X15.  A request that arrives with the size of the input buffer on
    a handle of the processing list, whose header decodes and verifies,
    for an id registered with a callback: the RPC callback is the first
    thing called, and it is entered with the handle off the processing
    list, holding one reference more, owning the address of the sender,
    and carrying the tag of the message and the id and the cookie of
    its header; the network layer is told [NA_SUCCESS] whatever the
    callback returns. *)
Theorem request_arrival_dispatch (m : Mem) (info : na_cb_info)
    (h : hg_handle) (ctx : hg_context) (c : hg_class)
    (fm : gmap Z hg_rpc_info) (rinfo : hg_rpc_info) (msg msg' : buffer)
    (rh : hg_header_request) :
  let p := nci_arg info in
  nci_ret info = NA_SUCCESS ->
  handles m !! p = Some h ->
  nci_actual_buf_size info = h_in_buf_size h ->
  contexts m !! h_context h = Some ctx ->
  p ∈ processing_list ctx ->
  h_in_buf h = Some msg ->
  hg_proc_header_request msg (h_in_buf_size h)
    (hg_proc_header_request_init 0%Z HG_BULK_NULL) HG_DECODE
    = (HG_SUCCESS, msg', rh) ->
  hg_proc_header_request_verify rh = HG_SUCCESS ->
  classes m !! h_hg_class h = Some c ->
  func_map c = Some fm ->
  fm !! req_id rh = Some rinfo ->
  is_null (rpc_cb rinfo) = false ->
  let h1 :=
    set_ref_count (hg_atomic_incr32 (h_ref_count h))
      (set_cookie (req_cookie rh)
         (set_id (req_id rh)
            (set_in_buf (Some msg')
               (set_tag (nci_tag info)
                  (set_addr_mine true (set_addr (nci_source info) h)))))) in
  let m1 :=
    set_handles (<[p := h1]> (handles m))
      (set_contexts
         (<[h_context h :=
              set_processing_list
                (filter (fun q => q <> p) (processing_list ctx)) ctx]>
            (contexts m)) m) in
  hg_recv_input_cb info m =
    log [EvRpcCb (rpc_cb rinfo) p]
      ((_ <- rpc_cb_sem (rpc_cb rinfo) p ;; ret NA_SUCCESS) m1) /\
  (forall q, processing_at (h_context h) m1 = Some q -> p ∉ q).
Proof.
  intros p Hret Hh Hsize Hctx Hin Hbuf Hdec Hver Hc Hfm Hlook Hcb h1 m1.
  split.
  - unfold hg_recv_input_cb. fold p. rewrite Hret. cbn [na_ok negb].
    run_with modify_handle_run.
    run_with modify_handle_run.
    run_with modify_handle_run.
    run_with load_handle_run.
    rewrite Hsize, Nat.eqb_refl. cbn [negb].
    run_with load_context_run.
    run_store.
    assert (Hrem : (length (filter (fun q => q = p) (processing_list ctx))
                      =? 0)%nat = false).
    { apply Nat.eqb_neq. intros Hz. apply length_zero_iff_nil in Hz.
      assert (Hp : p ∈ filter (fun q => q = p) (processing_list ctx))
        by (by apply list_elem_of_filter).
      rewrite Hz in Hp. by apply not_elem_of_nil in Hp. }
    rewrite Hrem.
    eapply bind_of_log.
    erewrite (hg_process_dispatch _ p
                (set_tag (nci_tag info)
                   (set_addr_mine true (set_addr (nci_source info) h)))
                c fm rinfo msg msg' rh);
      [|fields; apply lookup_insert_eq|exact Hbuf|exact Hdec|exact Hver
       |exact Hc|exact Hfm|exact Hlook|exact Hcb].
    subst m1 h1. fields. rewrite !insert_insert_eq. reflexivity.
  - intros q. subst m1. unfold processing_at. fields.
    rewrite lookup_insert_eq. intros [= <-].
    rewrite list_elem_of_filter. tauto.
Qed.

(** X16.  A request that arrives with a size other than that of the
    input buffer is not dispatched: no user function is called, and the
    handle, now marked as owning the sender's address, keeps its place
    on the processing list.  The list being full, the listen pump that
    runs next posts no receive: the one that has just completed is not
    replaced. *)
Theorem size_mismatch_stops_listening (m : Mem) (info : na_cb_info)
    (h : hg_handle) (ctx : hg_context) (cp : ptr) :
  let p := nci_arg info in
  nci_ret info = NA_SUCCESS ->
  handles m !! p = Some h ->
  nci_actual_buf_size info <> h_in_buf_size h ->
  contexts m !! h_context h = Some ctx ->
  p ∈ processing_list ctx ->
  (_ <- hg_recv_input_cb info ;; hg_listen cp (h_context h)) m =
    Some (HG_SUCCESS,
          set_handles
            (<[p := set_tag (nci_tag info)
                      (set_addr_mine true (set_addr (nci_source info) h))]>
               (handles m)) m,
          []).
Proof.
  intros p Hret Hh Hsize Hctx Hin.
  erewrite bind_log.
  2:{ unfold hg_recv_input_cb. fold p. rewrite Hret. cbn [na_ok negb].
      run_with modify_handle_run.
      run_with modify_handle_run.
      run_with modify_handle_run.
      run_with load_handle_run.
      apply Nat.eqb_neq in Hsize. rewrite Hsize. cbn [negb].
      rewrite !insert_insert_eq. reflexivity. }
  rewrite log_nil. unfold hg_listen.
  eapply hg_listen_loop_full; [fields; exact Hctx|].
  destruct (processing_list ctx); [by apply not_elem_of_nil in Hin|].
  simpl. lia.
Qed.

End Arrival.

Lemma request_arrival_dispatch_witness :
  let m := target_received (bulk := bulk_ok) in
  let info := nc_info (request_arrival 3%nat 8%nat 1%Z cookie_request) in
  exists m1,
    hg_recv_input_cb (codec := plain_codec) (user := user_code) info m =
      log [EvRpcCb RESPOND_CB 3%nat]
        ((_ <- rpc_cb_sem (UserCode := user_code) RESPOND_CB 3%nat ;;
          ret NA_SUCCESS) m1) /\
    ref_count_at 3%nat m1 = Some 2%Z /\
    forall q, processing_at 2%nat m1 = Some q -> 3%nat ∉ q.
Proof.
  intros m info.
  pose (rinfo := {| rpc_cb := RESPOND_CB; rpc_data := NULL;
                    rpc_free_callback := NULL |}).
  pose (c := {| na_class := na_demo 3 true; na_context := 5%nat;
                bulk_class := 1000%nat; bulk_class_external := false;
                func_map := Some {[ 2090214596%Z := rinfo ]};
                request_tag := 0%Z; request_max_tag := 3%Z |}).
  pose (h := {| h_hg_class := 1%nat; h_context := 2%nat;
                h_callback := NULL; h_arg := NULL;
                h_id := 0%Z; h_cookie := 0%Z; h_tag := 0%Z;
                h_addr := NA_ADDR_NULL; h_addr_mine := false;
                h_in_buf := Some cookie_request;
                h_in_buf_size := 8%nat;
                h_out_buf := Some (hg_proc_buf_alloc 8);
                h_out_buf_size := 8%nat;
                h_na_send_op_id := 0%Z; h_na_recv_op_id := 4%Z;
                h_ref_count := 1%Z |}).
  pose (ctx := {| ctx_hg_class := 1%nat; bulk_context := 1001%nat;
                  completion_queue := []; processing_list := [3%nat] |}).
  destruct (request_arrival_dispatch (codec := plain_codec)
              (user := user_code) m info h ctx c
              {[ 2090214596%Z := rinfo ]} rinfo
              cookie_request cookie_request
              {| req_id := 2090214596%Z; req_cookie := 77%Z;
                 req_extra_in_handle := 0%nat |}) as [Hrun Hoff];
    [reflexivity | vm_compute; reflexivity | reflexivity
    | vm_compute; reflexivity | apply list_elem_of_here | reflexivity
    | vm_compute; reflexivity | reflexivity | vm_compute; reflexivity
    | reflexivity | vm_compute; reflexivity | reflexivity |].
  eexists. split; [exact Hrun|]. split; [vm_compute; reflexivity|].
  exact Hoff.
Defined.

Lemma size_mismatch_stops_listening_witness :
  let m := target_received (bulk := bulk_ok) in
  let info := nc_info (request_arrival 3%nat 8%nat 1%Z [1; 2; 3]%Z) in
  exists m',
    (_ <- hg_recv_input_cb (codec := plain_codec) (user := user_code) info ;;
     hg_listen 1%nat 2%nat) m = Some (HG_SUCCESS, m', []) /\
    processing_at 2%nat m' = Some [3%nat].
Proof.
  intros m info.
  pose (h := {| h_hg_class := 1%nat; h_context := 2%nat;
                h_callback := NULL; h_arg := NULL;
                h_id := 0%Z; h_cookie := 0%Z; h_tag := 0%Z;
                h_addr := NA_ADDR_NULL; h_addr_mine := false;
                h_in_buf := Some cookie_request;
                h_in_buf_size := 8%nat;
                h_out_buf := Some (hg_proc_buf_alloc 8);
                h_out_buf_size := 8%nat;
                h_na_send_op_id := 0%Z; h_na_recv_op_id := 4%Z;
                h_ref_count := 1%Z |}).
  pose (ctx := {| ctx_hg_class := 1%nat; bulk_context := 1001%nat;
                  completion_queue := []; processing_list := [3%nat] |}).
  eexists. split.
  - apply (size_mismatch_stops_listening (codec := plain_codec)
             (user := user_code) m info h ctx 1%nat);
      [reflexivity | vm_compute; reflexivity | simpl; lia
      | vm_compute; reflexivity | apply list_elem_of_here].
  - vm_compute. reflexivity.
Defined.

(** ** Completion of an operation *)

Lemma hg_complete_run (m : Mem) (p : ptr) (h : hg_handle)
    (ctx : hg_context) :
  handles m !! p = Some h ->
  contexts m !! h_context h = Some ctx ->
  mem_oracle m = [] ->
  hg_complete p m =
    Some (HG_SUCCESS,
          set_contexts
            (<[h_context h :=
                 set_completion_queue (p :: completion_queue ctx) ctx]>
               (contexts m)) m,
          []).
Proof.
  intros Hh Hctx Hmem. unfold hg_complete.
  run_with load_handle_run. run_with load_context_run.
  run_with malloc_run. cbn [negb]. run_store. reflexivity.
Qed.

Section Completion.
Context {codec : HeaderCodec}.

(** X17.  The response that arrives for a forwarded handle completes
    it, that is, puts it at the head of the completion queue of its
    context, exactly when the header decodes and verifies; a response
    whose header does not is dropped without a trace: the handle is not
    queued, nothing is called and the network layer is told
    [NA_SUCCESS].  The end of the send of a response completes its
    handle in the same way. *)
Theorem response_arrival_completes (m : Mem) (info : na_cb_info)
    (h : hg_handle) (ctx : hg_context) (buf : buffer) :
  let p := nci_arg info in
  nci_ret info = NA_SUCCESS ->
  handles m !! p = Some h ->
  h_out_buf h = Some buf ->
  contexts m !! h_context h = Some ctx ->
  mem_oracle m = [] ->
  let decoded :=
    hg_proc_header_response buf (h_out_buf_size h)
      {| resp_cookie := junk m |} HG_DECODE in
  let accepted :=
    hg_ok (fst (fst decoded)) &&
    hg_ok (hg_proc_header_response_verify (snd decoded)) in
  (exists m',
     hg_recv_output_cb info m = Some (NA_SUCCESS, m', []) /\
     queue_at (h_context h) m' =
       Some (if accepted then p :: completion_queue ctx
             else completion_queue ctx) /\
     handles m' = <[p := set_out_buf (Some (snd (fst decoded))) h]>
                    (handles m)) /\
  (exists m',
     hg_send_output_cb info m = Some (NA_SUCCESS, m', []) /\
     queue_at (h_context h) m' = Some (p :: completion_queue ctx) /\
     handles m' = handles m).
Proof.
  intros p Hret Hh Hout Hctx Hmem decoded accepted. split.
  - unfold hg_recv_output_cb. fold p. rewrite Hret. cbn [na_ok negb].
    run_with load_handle_run.
    erewrite bind_log; [|reflexivity]. rewrite log_nil.
    rewrite Hout. simpl deref. rewrite bind_ret.
    subst accepted. fold decoded.
    destruct decoded as [[r buf'] hdr]. cbn [fst snd].
    run_with modify_handle_run.
    destruct (hg_ok r); cbn [negb andb].
    2:{ eexists. split; [reflexivity|]. split; [|reflexivity].
        unfold queue_at. fields. by rewrite Hctx. }
    destruct (hg_ok (hg_proc_header_response_verify hdr)); cbn [negb].
    2:{ eexists. split; [reflexivity|]. split; [|reflexivity].
        unfold queue_at. fields. by rewrite Hctx. }
    erewrite bind_log.
    2:{ eapply (hg_complete_run _ p (set_out_buf (Some buf') h) ctx).
        - fields. apply lookup_insert_eq.
        - exact Hctx.
        - exact Hmem. }
    rewrite log_nil. eexists. split; [reflexivity|].
    split; [|reflexivity].
    unfold queue_at. fields. by rewrite lookup_insert_eq.
  - unfold hg_send_output_cb. fold p. rewrite Hret. cbn [na_ok negb].
    erewrite bind_log; [|by eapply (hg_complete_run m p h ctx)].
    rewrite log_nil. eexists. split; [reflexivity|].
    split; [|reflexivity].
    unfold queue_at. fields. by rewrite lookup_insert_eq.
Qed.

End Completion.

Lemma response_arrival_completes_witness :
  let m := after (modify_handle 3%nat (set_out_buf (Some [5; 0; 0]%Z)))
             (after (forward_echo (bulk := bulk_ok) PEER) (mem_empty 0)) in
  let info := nc_info (response_arrival 3%nat [5; 0; 0]%Z) in
  exists m',
    hg_recv_output_cb (codec := plain_codec) info m
      = Some (NA_SUCCESS, m', []) /\
    queue_at 2%nat m' = Some [3%nat].
Proof.
  intros m info.
  pose (h := set_out_buf (Some [5; 0; 0]%Z)
               (set_na_send_op_id 5%Z
                  (set_na_recv_op_id 4%Z
                     (set_tag 1%Z
                        (set_in_buf
                           (Some [2090214596; 0; 0; 0; 0; 0; 0; 0]%Z)
                           (set_callback ON_FORWARDED NULL
                              (created_handle 1%nat 2%nat 8 PEER
                                 2090214596%Z 2%Z))))))).
  pose (ctx := {| ctx_hg_class := 1%nat; bulk_context := 1001%nat;
                  completion_queue := []; processing_list := [] |}).
  destruct (response_arrival_completes (codec := plain_codec)
              m info h ctx [5; 0; 0]%Z) as [(m' & Hrun & Hq & _) _];
    [reflexivity | vm_compute; reflexivity | reflexivity
    | vm_compute; reflexivity | vm_compute; reflexivity |].
  exists m'. split; [exact Hrun | exact Hq].
Defined.

(** ** Progress *)

(** The monad laws the loops are read with. *)
Lemma bind_assoc {A B C} (c : M A) (k : A -> M B) (k' : B -> M C) m :
  bind (bind c k) k' m = bind c (fun a => bind (k a) k') m.
Proof.
  unfold bind.
  destruct (c m) as [[[a m1] e1]|]; [|done].
  destruct (k a m1) as [[[b m2] e2]|]; [|done].
  destruct (k' b m2) as [[[x m3] e3]|]; [|done].
  by rewrite app_assoc.
Qed.

Lemma bind_first {A B} (c c' : M A) (k : A -> M B) m :
  c m = c' m -> bind c k m = bind c' k m.
Proof. unfold bind. by intros ->. Qed.

Section Progress.
Context {codec : HeaderCodec} {user : UserCode}.

Lemma hg_progress_trigger_drains fuel : forall cq m cq' m' ev,
  hg_progress_trigger fuel cq m = Some (cq', m', ev) -> cq' = [].
Proof.
  induction fuel as [|fuel IH]; intros cq m cq' m' ev Hrun.
  - cbn [hg_progress_trigger] in Hrun.
    peel Hrun as t Ht. destruct cq as [|e rest].
    + injection Ht as <- _ _. by injection Hrun as <- _ _.
    + simpl in Ht. peel Ht. peel Ht. injection Ht as <- _ _.
      discriminate Hrun.
  - cbn [hg_progress_trigger] in Hrun.
    peel Hrun as t Ht. destruct cq as [|e rest].
    + injection Ht as <- _ _. by injection Hrun as <- _ _.
    + simpl in Ht. peel Ht. peel Ht. injection Ht as <- _ _.
      simpl in Hrun. by eapply IH.
Qed.

(** The loop of [hg_progress] takes the entries of the network
    completion queue one after the other and leaves the queue empty. *)
Lemma hg_progress_trigger_run cq : forall fuel m,
  length cq <= fuel ->
  hg_progress_trigger fuel cq m = (na_drain cq ;; ret []) m.
Proof.
  induction cq as [|e rest IH]; intros fuel m Hfuel.
  - destruct fuel; cbn [hg_progress_trigger NA_Trigger na_drain];
      by rewrite !bind_ret.
  - destruct fuel as [|fuel]; [simpl in Hfuel; lia|].
    cbn [hg_progress_trigger NA_Trigger na_drain].
    rewrite !bind_assoc. apply bind_ext. intros [] m1 e1 _.
    rewrite !bind_assoc. apply bind_ext. intros r2 m2 e2 _.
    rewrite bind_ret. cbn [na_ok andb Nat.eqb negb].
    apply IH. simpl in Hfuel. lia.
Qed.

(** X18.  [HG_Progress] on a context: after the listen pump, whose
    status it drops, it takes every entry the network completion queue
    holds, oldest first, delivers it and runs its callback, each one
    once.  If the completion queue of the context is then not empty it
    returns [HG_SUCCESS] without asking the network layer for progress;
    otherwise it asks, and returns [HG_SUCCESS], [HG_TIMEOUT] or
    [HG_NA_ERROR] as the network layer answers success, timeout or
    anything else, with what has arrived as the new network queue. *)
Theorem progress_drains_network_queue (m : Mem)
    (net : na_return_t * list na_completion) (cq : list na_completion)
    (cp xp : ptr) (timeout : Z) :
  is_null xp = false ->
  HG_Progress net cq cp xp timeout m =
    (c <- load_class cp ;;
     (if na_is_listening (na_class c)
      then _ <- hg_listen cp xp ;; ret tt else ret tt) ;;
     _ <- load_class cp ;;
     na_drain cq ;;
     ctx <- load_context xp ;;
     match completion_queue ctx with
     | _ :: _ => ret (HG_SUCCESS, [])
     | [] =>
         ret (match fst net with
              | NA_SUCCESS => HG_SUCCESS
              | NA_TIMEOUT => HG_TIMEOUT
              | _ => HG_NA_ERROR
              end, snd net)
     end) m /\
  forall r cq' m' ev,
    HG_Progress net cq cp xp timeout m = Some ((r, cq'), m', ev) ->
    exists q,
      queue_at xp m' = Some q /\
      match q with
      | [] =>
          cq' = snd net /\
          r = match fst net with
              | NA_SUCCESS => HG_SUCCESS
              | NA_TIMEOUT => HG_TIMEOUT
              | _ => HG_NA_ERROR
              end
      | _ :: _ => cq' = [] /\ r = HG_SUCCESS
      end.
Proof.
  intros Hxp. split.
  - unfold HG_Progress. rewrite Hxp.
    apply bind_ext. intros c m1 e1 _.
    apply bind_ext. intros [] m2 e2 _.
    unfold hg_progress.
    apply bind_ext. intros c' m3 e3 _.
    rewrite (bind_first _ _ _ _ (hg_progress_trigger_run cq _ m3 (le_n _))).
    rewrite bind_assoc. apply bind_ext. intros [] m4 e4 _.
    rewrite bind_ret.
    apply bind_ext. intros ctx m5 e5 _.
    destruct (completion_queue ctx); cbn [negb]; [|reflexivity].
    destruct net as [[] arrived]; reflexivity.
  - intros r cq' m' ev Hrun.
    unfold HG_Progress in Hrun. rewrite Hxp in Hrun.
    peel Hrun. peel Hrun. unfold hg_progress in Hrun.
    peel Hrun. peel Hrun as cq1 Htrig.
    apply hg_progress_trigger_drains in Htrig. subst cq1.
    peel Hrun as ctx Hl. apply load_context_inv in Hl as (Hctx & -> & ->).
    exists (completion_queue ctx).
    destruct (completion_queue ctx) as [|q0 q] eqn:Hq; cbn [negb] in Hrun.
    + destruct net as [na_ret arrived].
      destruct na_ret; injection Hrun as <- <- <- <-;
        (split; [unfold queue_at; rewrite Hctx; simpl; by rewrite Hq|done]).
    + injection Hrun as <- <- <- <-.
      split; [unfold queue_at; rewrite Hctx; simpl; by rewrite Hq|done].
Qed.

End Progress.

Lemma progress_drains_network_queue_witness :
  let m := after (target_listening (bulk := bulk_ok) cookie_request)
             (mem_empty 0) in
  let run :=
    HG_Progress (codec := plain_codec) (user := user_code) (NA_TIMEOUT, [])
      [request_arrival 3%nat 8%nat 1%Z cookie_request]
      1%nat 2%nat 0%Z m in
  result run = Some (HG_TIMEOUT, []) /\
  events run =
    [EvRpcCb RESPOND_CB 3%nat;
     EvNa (NA_Msg_send_expected CB_send_output 3%nat (Some cookie_response)
             8%nat 8%nat 1%Z) NA_SUCCESS] /\
  (final run ≫= queue_at 2%nat) = Some [].
Proof.
  intros m run. unfold run.
  rewrite (proj1 (progress_drains_network_queue (codec := plain_codec)
                    (user := user_code) m (NA_TIMEOUT, [])
                    [request_arrival 3%nat 8%nat 1%Z cookie_request]
                    1%nat 2%nat 0%Z eq_refl)).
  vm_compute. repeat split; reflexivity.
Defined.

(** ** Contexts *)

Lemma free_context_run m p c :
  contexts m !! p = Some c ->
  free_context p m =
    Some (tt, set_contexts (delete p (contexts m)) m,
          [EvFree (ObjContext p)]).
Proof. unfold free_context. by intros ->. Qed.

Lemma bind_load_context_none {B} p (k : hg_context -> M B) m :
  contexts m !! p = None -> bind (load_context p) k m = None.
Proof. unfold bind, load_context. by intros ->. Qed.

Section Contexts.
Context {bulk : BulkLayer}.

Lemma HG_Context_create_run (m : Mem) (cp : ptr) (c : hg_class) :
  is_null cp = false ->
  classes m !! cp = Some c ->
  mem_oracle m = [] ->
  is_null (HG_Bulk_context_create (bulk_class c)) = false ->
  HG_Context_create cp m =
    Some (S (brk m),
          set_contexts
            (<[S (brk m) :=
                 {| ctx_hg_class := cp;
                    bulk_context := HG_Bulk_context_create (bulk_class c);
                    completion_queue := []; processing_list := [] |}]>
               (contexts m))
            (set_brk (S (brk m)) m),
          []).
Proof.
  intros Hcp Hc Hmem Hb. unfold HG_Context_create. rewrite Hcp.
  run_with malloc_run. cbn [negb].
  erewrite bind_log; [|apply fresh_run]. rewrite log_nil. fields.
  run_store.
  run_with malloc_run. cbn [negb].
  run_with load_class_run.
  run_with modify_context_run. rewrite Hb.
  unfold ret. do 2 f_equal. f_equal.
  rewrite insert_insert_eq. reflexivity.
Qed.

(** X19.  With memory available and a bulk layer that gives a bulk
    context and agrees to destroy it, [HG_Context_create] returns a new
    context of the class with an empty completion queue and an empty
    processing list, and [HG_Context_destroy] on it returns [HG_SUCCESS]
    and frees it. *)
Theorem context_create_destroy_round_trip (m : Mem) (cp : ptr)
    (c : hg_class) :
  is_null cp = false ->
  classes m !! cp = Some c ->
  mem_oracle m = [] ->
  is_null (HG_Bulk_context_create (bulk_class c)) = false ->
  HG_Bulk_context_destroy (HG_Bulk_context_create (bulk_class c))
    = HG_SUCCESS ->
  exists p m1 m2,
    HG_Context_create cp m = Some (p, m1, []) /\
    is_null p = false /\
    contexts m1 !! p =
      Some {| ctx_hg_class := cp;
              bulk_context := HG_Bulk_context_create (bulk_class c);
              completion_queue := []; processing_list := [] |} /\
    HG_Context_destroy p m1 =
      Some (HG_SUCCESS, m2, [EvFree (ObjContext p)]) /\
    contexts m2 !! p = None /\
    classes m2 = classes m /\ handles m2 = handles m.
Proof.
  intros Hcp Hc Hmem Hb Hd.
  eexists _, _, _. split; [by apply HG_Context_create_run|].
  split; [reflexivity|]. split; [fields; apply lookup_insert_eq|].
  split; [|split].
  - unfold HG_Context_destroy. change (is_null (S (brk m))) with false.
    cbv iota. run_with load_context_run. rewrite Hd. cbn [hg_ok negb].
    run_with modify_context_run.
    erewrite bind_log;
      [|eapply free_context_run; fields; apply lookup_insert_eq].
    reflexivity.
  - fields. apply lookup_delete_eq.
  - done.
Qed.

(** X20.  The failures of [HG_Context_create].  When the context
    itself cannot be allocated it returns the null pointer.  When the
    completion queue cannot be allocated, the exit path hands the null
    queue to [hg_queue_free]: the run is undefined.  When the bulk layer
    gives no bulk context, it frees the context it has allocated and
    still returns its address: the caller gets a pointer that is not
    null and designates no context, and a later [HG_Context_destroy] on
    it reads freed memory. *)
Theorem context_create_failure_returns_freed (m : Mem) (cp : ptr)
    (c : hg_class) :
  is_null cp = false ->
  classes m !! cp = Some c ->
  (forall rest, mem_oracle m = false :: rest ->
     HG_Context_create cp m = Some (NULL, set_mem_oracle rest m, [])) /\
  (forall rest, mem_oracle m = true :: false :: rest ->
     HG_Context_create cp m = None) /\
  (mem_oracle m = [] ->
   is_null (HG_Bulk_context_create (bulk_class c)) = true ->
   exists m',
     HG_Context_create cp m =
       Some (S (brk m), m', [EvFree (ObjContext (S (brk m)))]) /\
     is_null (S (brk m)) = false /\
     contexts m' !! S (brk m) = None /\
     HG_Context_destroy (S (brk m)) m' = None).
Proof.
  intros Hcp Hc.
  assert (Hgone : forall m' : Mem,
            contexts m' !! S (brk m) = None ->
            HG_Context_destroy (S (brk m)) m' = None).
  { intros m' Hm'. unfold HG_Context_destroy.
    change (is_null (S (brk m))) with false. cbv iota.
    by apply bind_load_context_none. }
  unfold HG_Context_create. rewrite Hcp.
  split; [|split].
  - intros rest Hmem. run_with malloc_run_cons. reflexivity.
  - intros rest Hmem. run_with malloc_run_cons. cbn [negb].
    erewrite bind_log; [|apply fresh_run]. rewrite log_nil. fields.
    run_store.
    erewrite bind_log; [|apply malloc_run_cons; reflexivity].
    reflexivity.
  - intros Hmem Hb. run_with malloc_run. cbn [negb].
    erewrite bind_log; [|apply fresh_run]. rewrite log_nil. fields.
    run_store.
    run_with malloc_run. cbn [negb].
    run_with load_class_run.
    run_with modify_context_run. rewrite Hb.
    erewrite bind_log;
      [|eapply free_context_run; fields; apply lookup_insert_eq].
    eexists. split; [reflexivity|]. split; [reflexivity|].
    split; [fields; apply lookup_delete_eq|].
    apply Hgone. fields. apply lookup_delete_eq.
Qed.

End Contexts.

Section PostedHandle.
Context {codec : HeaderCodec} {bulk : BulkLayer} {user : UserCode}.

(** X21.  [HG_Context_destroy] looks at the completion queue only.  On
    a context whose completion queue is empty it returns [HG_SUCCESS]
    and frees the context even when a handle still names it, as the
    handle that the listen pump has posted does; that handle stays
    allocated, and the arrival of a request on it reads freed memory. *)
Theorem context_destroy_leaves_posted_handle (m : Mem) (xp p : ptr)
    (ctx : hg_context) (h : hg_handle) :
  is_null xp = false ->
  contexts m !! xp = Some ctx ->
  completion_queue ctx = [] ->
  handles m !! p = Some h ->
  h_context h = xp ->
  HG_Bulk_context_destroy (bulk_context ctx) = HG_SUCCESS ->
  exists m',
    HG_Context_destroy xp m = Some (HG_SUCCESS, m', [EvFree (ObjContext xp)])
    /\ contexts m' !! xp = None
    /\ handles m' !! p = Some h
    /\ forall info,
         nci_arg info = p ->
         nci_ret info = NA_SUCCESS ->
         nci_actual_buf_size info = h_in_buf_size h ->
         hg_recv_input_cb info m' = None.
Proof.
  intros Hxp Hctx Hq Hh Hhx Hd.
  unfold HG_Context_destroy. rewrite Hxp.
  run_with load_context_run. rewrite Hd. cbn [hg_ok negb].
  run_with modify_context_run. rewrite Hq.
  erewrite bind_log;
    [|eapply free_context_run; fields; apply lookup_insert_eq].
  eexists. split; [reflexivity|]. split; [fields; apply lookup_delete_eq|].
  split; [exact Hh|].
  intros info Harg Hret Hsize.
  unfold hg_recv_input_cb. rewrite Harg, Hret. cbn [na_ok negb].
  run_with modify_handle_run.
  run_with modify_handle_run.
  run_with modify_handle_run.
  run_with load_handle_run.
  rewrite Hsize, Nat.eqb_refl. cbn [negb].
  apply bind_load_context_none. fields.
  by rewrite Hhx, lookup_delete_eq.
Qed.

End PostedHandle.

Lemma context_create_destroy_round_trip_witness :
  let m := after (HG_Init (bulk := bulk_ok) (user := user_code)
                    (Some (na_demo 3 false)) 5%nat NULL) (mem_empty 0) in
  exists p m1 m2,
    HG_Context_create (bulk := bulk_ok) 1%nat m = Some (p, m1, []) /\
    is_null p = false /\
    contexts m1 !! p =
      Some {| ctx_hg_class := 1%nat; bulk_context := 1001%nat;
              completion_queue := []; processing_list := [] |} /\
    HG_Context_destroy (bulk := bulk_ok) p m1 =
      Some (HG_SUCCESS, m2, [EvFree (ObjContext p)]) /\
    contexts m2 !! p = None /\
    classes m2 = classes m /\ handles m2 = handles m.
Proof.
  intros m.
  pose (c := {| na_class := na_demo 3 false; na_context := 5%nat;
                bulk_class := 1000%nat; bulk_class_external := false;
                func_map := Some ∅; request_tag := 0%Z;
                request_max_tag := 3%Z |}).
  exact (context_create_destroy_round_trip (bulk := bulk_ok) m 1%nat c
           eq_refl eq_refl eq_refl eq_refl eq_refl).
Defined.

Lemma context_create_failure_returns_freed_witness :
  let m := after (HG_Init (bulk := bulk_no_context) (user := user_code)
                    (Some (na_demo 3 false)) 5%nat NULL) (mem_empty 0) in
  HG_Context_create (bulk := bulk_no_context) 1%nat
    (set_mem_oracle [false] m) = Some (NULL, m, []) /\
  HG_Context_create (bulk := bulk_no_context) 1%nat
    (set_mem_oracle [true; false] m) = None /\
  exists m',
    HG_Context_create (bulk := bulk_no_context) 1%nat m =
      Some (2%nat, m', [EvFree (ObjContext 2%nat)]) /\
    is_null 2%nat = false /\
    contexts m' !! 2%nat = None /\
    HG_Context_destroy (bulk := bulk_no_context) 2%nat m' = None.
Proof.
  intros m.
  pose (c := {| na_class := na_demo 3 false; na_context := 5%nat;
                bulk_class := 1000%nat; bulk_class_external := false;
                func_map := Some ∅; request_tag := 0%Z;
                request_max_tag := 3%Z |}).
  split; [|split].
  - exact (proj1 (context_create_failure_returns_freed
                    (bulk := bulk_no_context) (set_mem_oracle [false] m)
                    1%nat c eq_refl eq_refl) [] eq_refl).
  - exact (proj1 (proj2 (context_create_failure_returns_freed
                           (bulk := bulk_no_context)
                           (set_mem_oracle [true; false] m)
                           1%nat c eq_refl eq_refl)) [] eq_refl).
  - exact (proj2 (proj2 (context_create_failure_returns_freed
                           (bulk := bulk_no_context) m 1%nat c
                           eq_refl eq_refl)) eq_refl eq_refl).
Defined.

Lemma context_destroy_leaves_posted_handle_witness :
  let m := target_received (bulk := bulk_ok) in
  exists m',
    HG_Context_destroy (bulk := bulk_ok) 2%nat m
      = Some (HG_SUCCESS, m', [EvFree (ObjContext 2%nat)]) /\
    contexts m' !! 2%nat = None /\
    hg_recv_input_cb (codec := plain_codec) (user := user_code)
      (nc_info (request_arrival 3%nat 8%nat 1%Z cookie_request)) m' = None.
Proof.
  intros m.
  pose (h := {| h_hg_class := 1%nat; h_context := 2%nat;
                h_callback := NULL; h_arg := NULL;
                h_id := 0%Z; h_cookie := 0%Z; h_tag := 0%Z;
                h_addr := NA_ADDR_NULL; h_addr_mine := false;
                h_in_buf := Some cookie_request;
                h_in_buf_size := 8%nat;
                h_out_buf := Some (hg_proc_buf_alloc 8);
                h_out_buf_size := 8%nat;
                h_na_send_op_id := 0%Z; h_na_recv_op_id := 4%Z;
                h_ref_count := 1%Z |}).
  pose (ctx := {| ctx_hg_class := 1%nat; bulk_context := 1001%nat;
                  completion_queue := []; processing_list := [3%nat] |}).
  destruct (context_destroy_leaves_posted_handle (codec := plain_codec)
              (bulk := bulk_ok) (user := user_code) m 2%nat 3%nat ctx h)
    as (m' & Hrun & Hgone & _ & Hub);
    [reflexivity | vm_compute; reflexivity | reflexivity
    | vm_compute; reflexivity | reflexivity | reflexivity |].
  exists m'. split; [exact Hrun|]. split; [exact Hgone|].
  apply Hub; reflexivity.
Defined.

(** ** Initialisation and finalisation *)

Section InitFinalize.
Context {bulk : BulkLayer} {user : UserCode}.

(** X22.  With memory available, [HG_Init] returns a new class with an
    empty registry, whose bulk class is the one the caller supplied or,
    when the caller supplied none, the one the bulk layer gives.
    [HG_Finalize] on that class frees it and returns [HG_SUCCESS]; the
    bulk layer is asked to finalise the bulk class only if the class
    created it, so that a bulk class of the caller is left alone. *)
Theorem init_finalize_round_trip (m : Mem) (na : na_class_t)
    (nc b : ptr) :
  is_null nc = false ->
  mem_oracle m = [] ->
  let bc := if is_null b then HG_Bulk_init na nc else b in
  is_null bc = false ->
  (is_null b = true -> HG_Bulk_finalize bc = HG_SUCCESS) ->
  exists p m1 m2,
    HG_Init (Some na) nc b m = Some (p, m1, []) /\
    is_null p = false /\
    classes m1 !! p =
      Some {| na_class := na; na_context := nc; bulk_class := bc;
              bulk_class_external := negb (is_null b);
              func_map := Some ∅; request_tag := 0%Z;
              request_max_tag := na_max_tag na |} /\
    HG_Finalize p m1 = Some (HG_SUCCESS, m2, [EvFree (ObjClass p)]) /\
    classes m2 !! p = None /\
    contexts m2 = contexts m /\ handles m2 = handles m.
Proof.
  intros Hnc Hmem bc Hbc Hfin.
  assert (Hinit :
            HG_Init (Some na) nc b m =
              Some (S (brk m),
                    set_classes
                      (<[S (brk m) :=
                           {| na_class := na; na_context := nc;
                              bulk_class := bc;
                              bulk_class_external := negb (is_null b);
                              func_map := Some ∅; request_tag := 0%Z;
                              request_max_tag := na_max_tag na |}]>
                         (classes m))
                      (set_brk (S (brk m)) m), [])).
  { unfold HG_Init. rewrite Hnc.
    run_with malloc_run. cbn [negb].
    rewrite (bind_log _ _ _ _ _ _ (fresh_run m)), log_nil.
    erewrite bind_log; [|reflexivity]. rewrite log_nil.
    run_store.
    run_with malloc_run. cbn [negb].
    run_with modify_class_run.
    subst bc. destruct (is_null b) eqn:Hb; cbn [negb].
    - run_with modify_class_run. rewrite Hbc.
      unfold ret. do 2 f_equal. f_equal.
      rewrite !insert_insert_eq. reflexivity.
    - run_with modify_class_run.
      unfold ret. do 2 f_equal. f_equal.
      rewrite !insert_insert_eq. reflexivity. }
  eexists _, _, _. split; [exact Hinit|]. split; [reflexivity|].
  split; [fields; apply lookup_insert_eq|]. split; [|split].
  - unfold HG_Finalize. change (is_null (S (brk m))) with false. cbv iota.
    run_with load_class_run.
    assert (Hok : (if negb (negb (is_null b)) then HG_Bulk_finalize bc
                   else HG_SUCCESS) = HG_SUCCESS).
    { destruct (is_null b); cbn [negb]; [by apply Hfin | reflexivity]. }
    rewrite Hok. cbn [hg_ok negb]. simpl deref. rewrite bind_ret.
    rewrite map_to_list_empty. cbn [hg_hash_table_free]. rewrite bind_ret.
    erewrite bind_log;
      [|eapply free_class_run; fields; apply lookup_insert_eq].
    reflexivity.
  - fields. apply lookup_delete_eq.
  - done.
Qed.

End InitFinalize.

Lemma init_finalize_round_trip_witness :
  exists p m1 m2,
    HG_Init (bulk := bulk_busy) (user := user_code)
      (Some (na_demo 3 false)) 5%nat 77%nat (mem_empty 0)
      = Some (p, m1, []) /\
    is_null p = false /\
    classes m1 !! p =
      Some {| na_class := na_demo 3 false; na_context := 5%nat;
              bulk_class := 77%nat; bulk_class_external := true;
              func_map := Some ∅; request_tag := 0%Z;
              request_max_tag := 3%Z |} /\
    HG_Finalize (bulk := bulk_busy) (user := user_code) p m1
      = Some (HG_SUCCESS, m2, [EvFree (ObjClass p)]) /\
    classes m2 !! p = None /\
    contexts m2 = contexts (mem_empty 0) /\
    handles m2 = handles (mem_empty 0).
Proof.
  apply (init_finalize_round_trip (bulk := bulk_busy) (user := user_code)
           (mem_empty 0) (na_demo 3 false) 5%nat 77%nat eq_refl eq_refl
           eq_refl).
  discriminate.
Defined.

(** ** Forward and respond on the own address *)

Section SelfDispatch.
Context {codec : HeaderCodec} {user : UserCode}.

(** X23.  A forward to the own address of an id that nobody
    registered: the request is encoded and decoded in place, no network
    call is made and no user function is called, and [HG_Forward_buf]
    itself returns [HG_NO_MATCH]; the completion callback it has stored
    on the handle will not be called for this forward, the handle not
    being queued. *)
Theorem self_forward_unknown_id (m : Mem) (p : ptr) (h : hg_handle)
    (c : hg_class) (fm : gmap Z hg_rpc_info) (cb : fnptr) (arg bulk_h : ptr)
    (buf sent rcvd : buffer) (hdr rh : hg_header_request) :
  is_null p = false ->
  handles m !! p = Some h ->
  h_in_buf h = Some buf ->
  hg_proc_header_request buf (h_in_buf_size h)
    (hg_proc_header_request_init (h_id h) bulk_h) HG_ENCODE
    = (HG_SUCCESS, sent, hdr) ->
  hg_proc_header_request sent (h_in_buf_size h)
    (hg_proc_header_request_init 0%Z HG_BULK_NULL) HG_DECODE
    = (HG_SUCCESS, rcvd, rh) ->
  hg_proc_header_request_verify rh = HG_SUCCESS ->
  classes m !! h_hg_class h = Some c ->
  na_addr_is_self (na_class c) (h_addr h) = true ->
  func_map c = Some fm ->
  fm !! req_id rh = None ->
  exists m',
    HG_Forward_buf p cb arg bulk_h m = Some (HG_NO_MATCH, m', []) /\
    contexts m' = contexts m /\ classes m' = classes m /\
    handles m' =
      <[p := set_cookie (req_cookie rh)
               (set_id (req_id rh)
                  (set_in_buf (Some rcvd) (set_callback cb arg h)))]>
        (handles m).
Proof.
  intros Hp Hh Hbuf Henc Hdec Hver Hc Hself Hfm Hlook.
  unfold HG_Forward_buf. rewrite Hp.
  run_with modify_handle_run.
  run_with load_handle_run. rewrite Hbuf. simpl deref. rewrite bind_ret.
  rewrite Henc.
  run_with modify_handle_run. cbn [hg_ok negb].
  run_with load_class_run. rewrite Hself.
  unfold hg_process.
  run_with load_handle_run. simpl deref. rewrite bind_ret.
  rewrite Hdec.
  run_with modify_handle_run. cbn [hg_ok negb].
  rewrite Hver. cbn [hg_ok negb].
  run_with modify_handle_run.
  run_with modify_handle_run.
  run_with load_class_run. rewrite Hfm. simpl deref. rewrite bind_ret.
  rewrite Hlook.
  eexists. split; [reflexivity|]. fields.
  rewrite !insert_insert_eq. done.
Qed.

(** X24.  A response on a handle whose address is the own address
    makes no network call: with memory available, [HG_Respond_buf]
    stores the callback, encodes the header with the cookie of the
    handle into the output buffer and puts the handle at the head of
    the completion queue of its context. *)
Theorem respond_self_enqueues (m : Mem) (p : ptr) (h : hg_handle)
    (c : hg_class) (ctx : hg_context) (cb : fnptr) (arg : ptr)
    (buf sent : buffer) (hdr : hg_header_response) :
  is_null p = false ->
  handles m !! p = Some h ->
  h_out_buf h = Some buf ->
  hg_proc_header_response buf (h_out_buf_size h)
    (set_resp_cookie (h_cookie h) hg_proc_header_response_init) HG_ENCODE
    = (HG_SUCCESS, sent, hdr) ->
  classes m !! h_hg_class h = Some c ->
  na_addr_is_self (na_class c) (h_addr h) = true ->
  contexts m !! h_context h = Some ctx ->
  mem_oracle m = [] ->
  exists m',
    HG_Respond_buf p cb arg m = Some (HG_SUCCESS, m', []) /\
    queue_at (h_context h) m' = Some (p :: completion_queue ctx) /\
    handles m' =
      <[p := set_out_buf (Some sent) (set_callback cb arg h)]> (handles m).
Proof.
  intros Hp Hh Hbuf Henc Hc Hself Hctx Hmem.
  unfold HG_Respond_buf. rewrite Hp.
  run_with modify_handle_run.
  run_with load_handle_run. rewrite Hbuf. simpl deref. rewrite bind_ret.
  rewrite Henc.
  run_with modify_handle_run. cbn [hg_ok negb].
  run_with load_class_run. rewrite Hself.
  erewrite (hg_complete_run _ p
              (set_out_buf (Some sent) (set_callback cb arg h)) ctx);
    [|fields; apply lookup_insert_eq|exact Hctx|exact Hmem].
  eexists. split; [reflexivity|]. split.
  - unfold queue_at. fields. by rewrite lookup_insert_eq.
  - fields. by rewrite insert_insert_eq.
Qed.

End SelfDispatch.

Lemma self_forward_unknown_id_witness :
  let m := after (HG_Create 1%nat 2%nat SELF 12345%Z
                    (Some NULL))
             (after (setup (bulk := bulk_ok) false) (mem_empty 0)) in
  exists m',
    HG_Forward_buf (codec := plain_codec) (user := user_code)
      3%nat ON_FORWARDED NULL HG_BULK_NULL m
      = Some (HG_NO_MATCH, m', []) /\
    queue_at 2%nat m' = Some [].
Proof.
  intros m.
  pose (rinfo := {| rpc_cb := RESPOND_CB; rpc_data := NULL;
                    rpc_free_callback := NULL |}).
  pose (c := {| na_class := na_demo 3 false; na_context := 5%nat;
                bulk_class := 1000%nat; bulk_class_external := false;
                func_map := Some {[ 2090214596%Z := rinfo ]};
                request_tag := 0%Z; request_max_tag := 3%Z |}).
  pose (sent := [12345; 0; 0; 0; 0; 0; 0; 0]%Z).
  destruct (self_forward_unknown_id (codec := plain_codec)
              (user := user_code) m 3%nat
              (created_handle 1%nat 2%nat 8 SELF 12345%Z 2%Z)
              c {[ 2090214596%Z := rinfo ]} ON_FORWARDED NULL HG_BULK_NULL
              (hg_proc_buf_alloc 8) sent sent
              {| req_id := 12345%Z; req_cookie := 0%Z;
                 req_extra_in_handle := 0%nat |}
              {| req_id := 12345%Z; req_cookie := 0%Z;
                 req_extra_in_handle := 0%nat |})
    as (m' & Hrun & Hx & _);
    [reflexivity | vm_compute; reflexivity | reflexivity
    | vm_compute; reflexivity | vm_compute; reflexivity | reflexivity
    | vm_compute; reflexivity | reflexivity | reflexivity
    | vm_compute; reflexivity |].
  exists m'. split; [exact Hrun|].
  unfold queue_at. rewrite Hx. vm_compute. reflexivity.
Defined.

Lemma respond_self_enqueues_witness :
  let m := after (create_echo (bulk := bulk_ok) SELF) (mem_empty 0) in
  exists m',
    HG_Respond_buf (codec := plain_codec) 3%nat ON_RESPONDED NULL m
      = Some (HG_SUCCESS, m', []) /\
    queue_at 2%nat m' = Some [3%nat].
Proof.
  intros m.
  pose (rinfo := {| rpc_cb := RESPOND_CB; rpc_data := NULL;
                    rpc_free_callback := NULL |}).
  pose (c := {| na_class := na_demo 3 false; na_context := 5%nat;
                bulk_class := 1000%nat; bulk_class_external := false;
                func_map := Some {[ 2090214596%Z := rinfo ]};
                request_tag := 0%Z; request_max_tag := 3%Z |}).
  pose (ctx := {| ctx_hg_class := 1%nat; bulk_context := 1001%nat;
                  completion_queue := []; processing_list := [] |}).
  destruct (respond_self_enqueues (codec := plain_codec) m 3%nat
              (created_handle 1%nat 2%nat 8 SELF 2090214596%Z 2%Z)
              c ctx ON_RESPONDED NULL
              (hg_proc_buf_alloc 8) (hg_proc_buf_alloc 8)
              {| resp_cookie := 0%Z |})
    as (m' & Hrun & Hq & _);
    [reflexivity | vm_compute; reflexivity | reflexivity
    | vm_compute; reflexivity | vm_compute; reflexivity | reflexivity
    | vm_compute; reflexivity | reflexivity |].
  exists m'. split; [exact Hrun | exact Hq].
Defined.

(** ** Requests that are not dispatched *)

Section Dropped.
Context {codec : HeaderCodec} {user : UserCode}.

(** The processor on a request that cannot be dispatched: it fails
    without a call, and the handle keeps its references, its address and
    its context. *)
Lemma hg_process_drops (m : Mem) (p : ptr) (h : hg_handle) (c : hg_class)
    (fm : gmap Z hg_rpc_info) (msg : buffer) :
  let decoded :=
    hg_proc_header_request msg (h_in_buf_size h)
      (hg_proc_header_request_init 0%Z HG_BULK_NULL) HG_DECODE in
  handles m !! p = Some h ->
  h_in_buf h = Some msg ->
  classes m !! h_hg_class h = Some c ->
  func_map c = Some fm ->
  hg_ok (fst (fst decoded)) &&
    hg_ok (hg_proc_header_request_verify (snd decoded)) &&
    match fm !! req_id (snd decoded) with
    | Some rinfo => negb (is_null (rpc_cb rinfo))
    | None => false
    end = false ->
  exists r h1,
    hg_process p m =
      Some (r, set_handles (<[p := h1]> (handles m)) m, []) /\
    r <> HG_SUCCESS /\
    h_ref_count h1 = h_ref_count h /\
    h_addr_mine h1 = h_addr_mine h /\ h_addr h1 = h_addr h.
Proof.
  intros decoded Hh Hbuf Hc Hfm Hno.
  unfold hg_process.
  run_with load_handle_run. rewrite Hbuf. simpl deref. rewrite bind_ret.
  fold decoded. destruct decoded as [[r msg'] rh]. cbn [fst snd] in Hno.
  run_with modify_handle_run.
  destruct (hg_ok r) eqn:Hr; cbn [negb andb] in Hno |- *.
  2:{ eexists _, _. split; [reflexivity|]. split; [|done].
      intros ->. discriminate Hr. }
  destruct (hg_ok (hg_proc_header_request_verify rh)) eqn:Hv;
    cbn [negb andb] in Hno |- *.
  2:{ eexists _, _. split; [reflexivity|]. split; [|done].
      intros E. rewrite E in Hv. discriminate Hv. }
  run_with modify_handle_run.
  run_with modify_handle_run.
  run_with load_class_run. rewrite Hfm. simpl deref. rewrite bind_ret.
  rewrite !insert_insert_eq.
  destruct (fm !! req_id rh) as [rinfo|].
  - apply negb_false_iff in Hno. rewrite Hno.
    eexists _, _. split; [reflexivity|]. done.
  - eexists _, _. split; [reflexivity|]. done.
Qed.

(** X26.  A request of the right size whose header does not decode or
    does not verify, or whose id is not registered, or is registered
    with a null callback, is dropped: no user function is called, no
    response is queued or sent, and the network layer is told
    [NA_SUCCESS].  The handle has left the processing list and the
    completion queue is as it was; the handle stays allocated with the
    references it had, now owning the address of the sender. *)
Theorem unmatched_request_is_dropped (m : Mem) (info : na_cb_info)
    (h : hg_handle) (ctx : hg_context) (c : hg_class)
    (fm : gmap Z hg_rpc_info) (msg : buffer) :
  let p := nci_arg info in
  let decoded :=
    hg_proc_header_request msg (h_in_buf_size h)
      (hg_proc_header_request_init 0%Z HG_BULK_NULL) HG_DECODE in
  let dispatchable :=
    hg_ok (fst (fst decoded)) &&
    hg_ok (hg_proc_header_request_verify (snd decoded)) &&
    match fm !! req_id (snd decoded) with
    | Some rinfo => negb (is_null (rpc_cb rinfo))
    | None => false
    end in
  nci_ret info = NA_SUCCESS ->
  handles m !! p = Some h ->
  nci_actual_buf_size info = h_in_buf_size h ->
  contexts m !! h_context h = Some ctx ->
  p ∈ processing_list ctx ->
  h_in_buf h = Some msg ->
  classes m !! h_hg_class h = Some c ->
  func_map c = Some fm ->
  dispatchable = false ->
  exists m1 h1,
    hg_recv_input_cb info m = Some (NA_SUCCESS, m1, []) /\
    handles m1 !! p = Some h1 /\
    h_ref_count h1 = h_ref_count h /\
    h_addr_mine h1 = true /\ h_addr h1 = nci_source info /\
    contexts m1 =
      <[h_context h :=
          set_processing_list
            (filter (fun q => q <> p) (processing_list ctx)) ctx]>
        (contexts m) /\
    classes m1 = classes m /\
    (forall q, processing_at (h_context h) m1 = Some q -> p ∉ q) /\
    queue_at (h_context h) m1 = Some (completion_queue ctx).
Proof.
  intros p decoded dispatchable Hret Hh Hsize Hctx Hin Hbuf Hc Hfm Hno.
  assert (Hlist : forall m1 : Mem,
            contexts m1 =
              <[h_context h :=
                  set_processing_list
                    (filter (fun q => q <> p) (processing_list ctx)) ctx]>
                (contexts m) ->
            (forall q, processing_at (h_context h) m1 = Some q -> p ∉ q) /\
            queue_at (h_context h) m1 = Some (completion_queue ctx)).
  { intros m1 Hm1. unfold processing_at, queue_at.
    rewrite Hm1, lookup_insert_eq. simpl. split; [|done].
    intros q [= <-]. rewrite list_elem_of_filter. tauto. }
  unfold hg_recv_input_cb. fold p. rewrite Hret. cbn [na_ok negb].
  run_with modify_handle_run.
  run_with modify_handle_run.
  run_with modify_handle_run.
  run_with load_handle_run.
  rewrite Hsize, Nat.eqb_refl. cbn [negb].
  run_with load_context_run.
  run_store.
  assert (Hrem : (length (filter (fun q => q = p) (processing_list ctx))
                    =? 0)%nat = false).
  { apply Nat.eqb_neq. intros Hz. apply length_zero_iff_nil in Hz.
    assert (Hp : p ∈ filter (fun q => q = p) (processing_list ctx))
      by (by apply list_elem_of_filter).
    rewrite Hz in Hp. by apply not_elem_of_nil in Hp. }
  rewrite Hrem.
  rewrite !insert_insert_eq.
  edestruct (hg_process_drops
               (set_handles
                  (<[p := set_tag (nci_tag info)
                            (set_addr_mine true
                               (set_addr (nci_source info) h))]>
                     (handles m))
                  (set_contexts
                     (<[h_context h :=
                          set_processing_list
                            (filter (fun q => q <> p) (processing_list ctx))
                            ctx]> (contexts m)) m))
               p
               (set_tag (nci_tag info)
                  (set_addr_mine true (set_addr (nci_source info) h)))
               c fm msg)
    as (r & h1 & Hrun & _ & Hcount & Hmine & Haddr);
    [fields; apply lookup_insert_eq | exact Hbuf | exact Hc | exact Hfm
    | exact Hno |].
  fields in Hrun. fields in Hcount. fields in Hmine. fields in Haddr.
  rewrite (bind_log _ _ _ _ _ _ Hrun), log_nil.
  eexists _, h1. split; [reflexivity|].
  split; [fields; apply lookup_insert_eq|].
  split; [exact Hcount|]. split; [exact Hmine|]. split; [exact Haddr|].
  split; [reflexivity|]. split; [reflexivity|].
  apply Hlist. reflexivity.
Qed.

End Dropped.

Lemma unmatched_request_is_dropped_witness :
  let m := after (modify_handle 3%nat
                    (set_in_buf (Some [12345; 0; 0; 0; 0; 0; 0; 0]%Z)))
             (target_received (bulk := bulk_ok)) in
  let info :=
    nc_info (request_arrival 3%nat 8%nat 1%Z
               [12345; 0; 0; 0; 0; 0; 0; 0]%Z) in
  exists m1,
    hg_recv_input_cb (codec := plain_codec) (user := user_code) info m
      = Some (NA_SUCCESS, m1, []) /\
    ref_count_at 3%nat m1 = Some 1%Z /\
    processing_at 2%nat m1 = Some [] /\
    queue_at 2%nat m1 = Some [].
Proof.
  intros m info.
  pose (rinfo := {| rpc_cb := RESPOND_CB; rpc_data := NULL;
                    rpc_free_callback := NULL |}).
  pose (c := {| na_class := na_demo 3 true; na_context := 5%nat;
                bulk_class := 1000%nat; bulk_class_external := false;
                func_map := Some {[ 2090214596%Z := rinfo ]};
                request_tag := 0%Z; request_max_tag := 3%Z |}).
  pose (h := {| h_hg_class := 1%nat; h_context := 2%nat;
                h_callback := NULL; h_arg := NULL;
                h_id := 0%Z; h_cookie := 0%Z; h_tag := 0%Z;
                h_addr := NA_ADDR_NULL; h_addr_mine := false;
                h_in_buf := Some [12345; 0; 0; 0; 0; 0; 0; 0]%Z;
                h_in_buf_size := 8%nat;
                h_out_buf := Some (hg_proc_buf_alloc 8);
                h_out_buf_size := 8%nat;
                h_na_send_op_id := 0%Z; h_na_recv_op_id := 4%Z;
                h_ref_count := 1%Z |}).
  pose (ctx := {| ctx_hg_class := 1%nat; bulk_context := 1001%nat;
                  completion_queue := []; processing_list := [3%nat] |}).
  destruct (unmatched_request_is_dropped (codec := plain_codec)
              (user := user_code) m info h ctx c
              {[ 2090214596%Z := rinfo ]} [12345; 0; 0; 0; 0; 0; 0; 0]%Z)
    as (m1 & h1 & Hrun & Hh1 & Hcount & _ & _ & Hx & _ & _ & Hq);
    [reflexivity | vm_compute; reflexivity | reflexivity
    | vm_compute; reflexivity | apply list_elem_of_here | reflexivity
    | vm_compute; reflexivity | reflexivity | vm_compute; reflexivity |].
  exists m1. split; [exact Hrun|]. split; [|split; [|exact Hq]].
  - pose proof (f_equal (fun o => o ≫= fun x => Some (h_ref_count x)) Hh1)
      as H.
    simpl in H. rewrite Hcount in H. exact H.
  - unfold processing_at. rewrite Hx. vm_compute. reflexivity.
Defined.

(** ** The reference of the completion queue *)

Section Release.
Context {user : UserCode}.

(** X27.  One round of [HG_Trigger] on a queue that ends with the
    handle [p]: the handle is taken off the queue, its callback runs,
    and whatever status the callback returns [HG_Trigger] then gives up
    one reference on the handle and returns [HG_SUCCESS] with count 1.
    If the callback has left the handle with a single reference, the
    handle is freed with its buffers, and with the address of the
    sender if it owns one; otherwise it stays, with one reference
    less. *)
Theorem trigger_releases_reference (m m1 : Mem) (cp xp : ptr)
    (ctx : hg_context) (q : list ptr) (p : ptr) (h h1 : hg_handle)
    (hctx : hg_context) (timeout : Z) (actual_count : option nat)
    (r1 : hg_return_t) (e1 : list event) :
  is_null cp = false ->
  is_null xp = false ->
  contexts m !! xp = Some ctx ->
  completion_queue ctx = q ++ [p] ->
  is_null p = false ->
  handles m !! p = Some h ->
  contexts m !! h_context h = Some hctx ->
  is_null (h_callback h) = false ->
  mem_oracle m = [] ->
  let info :=
    {| cbi_arg := h_arg h; cbi_ret := HG_SUCCESS;
       cbi_hg_class := ctx_hg_class hctx; cbi_context := h_context h;
       cbi_handle := p |} in
  cb_sem (h_callback h) info
    (set_contexts (<[xp := set_completion_queue q ctx]> (contexts m)) m)
    = Some (r1, m1, e1) ->
  handles m1 !! p = Some h1 ->
  is_int32 (h_ref_count h1) ->
  (h_ref_count h1 = 1%Z -> is_null (h_addr h1) = false ->
   h_addr_mine h1 = true -> is_Some (classes m1 !! h_hg_class h1)) ->
  exists m' ev',
    HG_Trigger cp xp timeout 1 actual_count m =
      Some ((HG_SUCCESS,
             match actual_count with Some _ => Some 1%nat | None => None end),
            m', EvCb (h_callback h) info :: e1 ++ ev') /\
    contexts m' = contexts m1 /\ classes m' = classes m1 /\
    (h_ref_count h1 = 1%Z ->
     handles m' = delete p (handles m1) /\
     ev' = release_events p h1 (next_na_status m1)) /\
    (h_ref_count h1 <> 1%Z ->
     handles m' =
       <[p := set_ref_count (hg_atomic_decr32 (h_ref_count h1)) h1]>
         (handles m1) /\
     ev' = []).
Proof.
  intros Hcp Hxp Hctx Hq Hp Hh Hhctx Hcb Hmem info Hrun Hh1 Hn1 Hcl1.
  assert (Hd : exists m' ev',
             hg_destroy p m1 = Some (tt, m', ev') /\
             contexts m' = contexts m1 /\ classes m' = classes m1 /\
             (h_ref_count h1 = 1%Z ->
              handles m' = delete p (handles m1) /\
              ev' = release_events p h1 (next_na_status m1)) /\
             (h_ref_count h1 <> 1%Z ->
              handles m' =
                <[p := set_ref_count (hg_atomic_decr32 (h_ref_count h1)) h1]>
                  (handles m1) /\
              ev' = [])).
  { pose proof (hg_destroy_run m1 p h1 Hp Hh1 Hn1 Hcl1) as Hrun1.
    destruct (decide (h_ref_count h1 = 1%Z)) as [E|E].
    - destruct Hrun1 as (m' & Hrun1 & Hh' & Hx' & Hc' & _).
      exists m', (release_events p h1 (next_na_status m1)).
      repeat split; try done.
    - eexists _, _. split; [exact Hrun1|]. repeat split; try done. }
  destruct Hd as (m' & ev' & Hdestroy & Hx' & Hc' & Hone & Hmore).
  exists m', ev'. split; [|done].
  unfold HG_Trigger. rewrite Hcp, Hxp.
  erewrite bind_log.
  2:{ cbn [hg_trigger_loop].
      run_with load_context_run.
      assert (Hlast : List.last (completion_queue ctx) NULL = p)
        by (rewrite Hq; apply last_last).
      assert (Hfront : removelast (completion_queue ctx) = q)
        by (rewrite Hq; apply removelast_last).
      destruct (completion_queue ctx) as [|q0 q1] eqn:Hcq.
      { destruct q; discriminate Hq. }
      cbv zeta. rewrite Hlast, Hfront.
      run_store. rewrite Hp.
      run_with malloc_run. cbn [negb].
      run_with load_handle_run.
      assert (Hx : exists hctx',
                 (<[xp := set_completion_queue q ctx]> (contexts m))
                   !! h_context h = Some hctx' /\
                 ctx_hg_class hctx' = ctx_hg_class hctx).
      { destruct (decide (h_context h = xp)) as [E|E].
        - rewrite E, lookup_insert_eq. eexists. split; [reflexivity|].
          rewrite E, Hctx in Hhctx. by injection Hhctx as <-.
        - rewrite lookup_insert_ne by done. eauto. }
      destruct Hx as (hctx' & Hx & Hcls).
      erewrite bind_log; [|apply load_context_run; fields; exact Hx].
      rewrite log_nil. rewrite Hcb. cbn [negb]. rewrite Hcls.
      erewrite bind_log.
      2:{ rewrite bind_emit. erewrite bind_log; [|exact Hrun].
          reflexivity. }
      erewrite bind_log; [|exact Hdestroy].
      reflexivity. }
  simpl. destruct actual_count; simpl; rewrite ?app_nil_r; reflexivity.
Qed.

End Release.

Lemma trigger_releases_reference_witness :
  let m :=
    after
      (_ <- setup (bulk := bulk_ok) true ;;
       p1 <- HG_Progress (codec := plain_codec) (user := user_code)
               (NA_SUCCESS, [request_arrival 3%nat 8%nat 1%Z cookie_request])
               [] 1%nat 2%nat 0%Z ;;
       p2 <- HG_Progress (codec := plain_codec) (user := user_code)
               (NA_SUCCESS, [send_done CB_send_output 3%nat]) (snd p1)
               1%nat 2%nat 0%Z ;;
       HG_Progress (codec := plain_codec) (user := user_code)
         (NA_TIMEOUT, []) (snd p2) 1%nat 2%nat 0%Z)
      (mem_empty 0) in
  exists m',
    HG_Trigger (user := user_code) 1%nat 2%nat 0%Z 1 (Some 9%nat) m =
      Some ((HG_SUCCESS, Some 1%nat), m',
            [EvCb ON_RESPONDED
               {| cbi_arg := NULL; cbi_ret := HG_SUCCESS;
                  cbi_hg_class := 1%nat; cbi_context := 2%nat;
                  cbi_handle := 3%nat |};
             EvNa (NA_Addr_free 8%nat) NA_SUCCESS;
             EvFree (ObjInBuf 3%nat); EvFree (ObjOutBuf 3%nat);
             EvFree (ObjHandle 3%nat)]) /\
    handles m' !! 3%nat = None.
Proof.
  intros m.
  pose (h := {| h_hg_class := 1%nat; h_context := 2%nat;
                h_callback := ON_RESPONDED; h_arg := NULL;
                h_id := 2090214596%Z; h_cookie := 77%Z; h_tag := 1%Z;
                h_addr := 8%nat; h_addr_mine := true;
                h_in_buf := Some cookie_request; h_in_buf_size := 8;
                h_out_buf := Some [77; 0; 0; 0; 0; 0; 0; 0]%Z;
                h_out_buf_size := 8; h_na_send_op_id := 5%Z;
                h_na_recv_op_id := 4%Z; h_ref_count := 1%Z |}).
  pose (ctx := {| ctx_hg_class := 1%nat; bulk_context := 1001%nat;
                  completion_queue := [3%nat];
                  processing_list := [6%nat] |}).
  destruct (trigger_releases_reference (user := user_code)
              m (set_contexts
                   (<[2%nat := set_completion_queue [] ctx]> (contexts m)) m)
              1%nat 2%nat ctx [] 3%nat h h ctx 0%Z (Some 9%nat)
              HG_SUCCESS [])
    as (m' & ev' & Hrun & _ & _ & Hone & _);
    [reflexivity | reflexivity | vm_compute; reflexivity | reflexivity
    | reflexivity | vm_compute; reflexivity | vm_compute; reflexivity
    | reflexivity | vm_compute; reflexivity | reflexivity
    | vm_compute; reflexivity | unfold is_int32; simpl; lia
    | intros _ _ _; vm_compute; eauto |].
  destruct (Hone eq_refl) as [Hgone ->].
  exists m'. split; [exact Hrun|].
  rewrite Hgone. apply lookup_delete_eq.
Defined.

(** ** A receive posted off the processing list *)

Lemma hg_listen_loop_S fuel cp xp r m :
  hg_listen_loop (S fuel) cp xp r m =
    (ctx <- load_context xp ;;
     if negb (length (processing_list ctx) <? HG_MAX_PROCESSING_LIST_SIZE)%nat
     then ret r
     else hg_listen_round (hg_listen_loop fuel cp xp) cp xp r) m.
Proof. reflexivity. Qed.

Lemma hg_create_run_cons (m : Mem) (cp xp : ptr) (c : hg_class)
    (rest : list bool) :
  classes m !! cp = Some c ->
  mem_oracle m = true :: true :: true :: rest ->
  hg_create cp xp m =
    Some (S (brk m),
          set_handles
            (<[S (brk m) :=
                 created_handle cp xp (na_max_expected_size (na_class c))
                   NA_ADDR_NULL 0%Z 1%Z]> (handles m))
            (set_mem_oracle rest (set_brk (S (brk m)) m)),
          []).
Proof.
  intros Hc Hmem. unfold hg_create.
  run_with load_class_run.
  run_with malloc_run_cons. cbn [negb].
  erewrite bind_log; [|apply fresh_run]. rewrite log_nil. fields.
  erewrite bind_log; [|reflexivity]. rewrite log_nil.
  run_store.
  erewrite bind_log; [|apply malloc_run_cons; reflexivity].
  rewrite log_nil. fields. cbn [negb].
  run_with modify_handle_run.
  erewrite bind_log; [|apply malloc_run_cons; reflexivity].
  rewrite log_nil. fields. cbn [negb].
  run_with modify_handle_run.
  run_with modify_handle_run.
  run_with modify_handle_run.
  run_with modify_handle_run.
  unfold ret. do 2 f_equal. f_equal.
  rewrite !insert_insert_eq. reflexivity.
Qed.

Lemma filter_eq_absent (p : ptr) (l : list ptr) :
  p ∉ l -> filter (fun q => q = p) l = [].
Proof.
  induction l as [|q0 l IH]; [done|]. intros Hout.
  apply not_elem_of_cons in Hout as [Hne Hl].
  rewrite filter_cons_False by congruence. by apply IH.
Qed.

Lemma filter_ne_absent (p : ptr) (l : list ptr) :
  p ∉ l -> filter (fun q => q <> p) l = l.
Proof.
  induction l as [|q0 l IH]; [done|]. intros Hout.
  apply not_elem_of_cons in Hout as [Hne Hl].
  rewrite filter_cons_True by congruence. f_equal. by apply IH.
Qed.

Section Orphan.
Context {codec : HeaderCodec} {user : UserCode}.

(** A request that arrives on a handle that is not on the processing
    list of its context is dropped without a call. *)
Lemma arrival_off_list_dropped (m : Mem) (info : na_cb_info)
    (h : hg_handle) (ctx : hg_context) :
  nci_ret info = NA_SUCCESS ->
  handles m !! nci_arg info = Some h ->
  nci_actual_buf_size info = h_in_buf_size h ->
  contexts m !! h_context h = Some ctx ->
  nci_arg info ∉ processing_list ctx ->
  exists m'',
    hg_recv_input_cb info m = Some (NA_SUCCESS, m'', []) /\
    contexts m'' = contexts m.
Proof.
  intros Hret Hh Hsize Hctx Hout.
  unfold hg_recv_input_cb. rewrite Hret. cbn [na_ok negb].
  run_with modify_handle_run.
  run_with modify_handle_run.
  run_with modify_handle_run.
  run_with load_handle_run.
  rewrite Hsize, Nat.eqb_refl. cbn [negb].
  run_with load_context_run.
  run_store.
  rewrite filter_eq_absent, filter_ne_absent by done. cbn [length Nat.eqb].
  eexists. split; [reflexivity|]. fields.
  apply insert_id. rewrite Hctx. by destruct ctx.
Qed.

(** X28.  When the entry for the processing list cannot be allocated,
    [hg_listen] posts the receive for the new handle all the same and
    goes round again: it creates a second handle, which does get on the
    list, posts a second receive and returns [HG_NOMEM_ERROR].  The
    first handle is posted but on no list, and a request that arrives
    on it, whatever it asks for, is dropped without a call, since the
    handle cannot be removed from the processing list. *)
Theorem listen_append_failure_orphans_receive (m : Mem) (cp xp : ptr)
    (c : hg_class) (ctx : hg_context) :
  classes m !! cp = Some c ->
  contexts m !! xp = Some ctx ->
  processing_list ctx = [] ->
  mem_oracle m = [true; true; true; false] ->
  na_oracle m = [] ->
  let size := na_max_expected_size (na_class c) in
  let p1 := S (brk m) in
  let p2 := S (S (S (brk m))) in
  exists m',
    hg_listen cp xp m =
      Some (HG_NOMEM_ERROR, m',
            [EvNa (NA_Msg_recv_unexpected CB_recv_input p1 size) NA_SUCCESS;
             EvNa (NA_Msg_recv_unexpected CB_recv_input p2 size) NA_SUCCESS])
    /\ processing_at xp m' = Some [p2]
    /\ handles m' !! p1 =
         Some (set_na_recv_op_id (Z.of_nat (S p1))
                 (created_handle cp xp size NA_ADDR_NULL 0%Z 1%Z))
    /\ forall info,
         nci_arg info = p1 ->
         nci_ret info = NA_SUCCESS ->
         nci_actual_buf_size info = size ->
         exists m'',
           hg_recv_input_cb info m' = Some (NA_SUCCESS, m'', []) /\
           contexts m'' = contexts m'.
Proof.
  intros Hc Hctx Hlist Hmem Hna size p1 p2.
  unfold hg_listen at 1. rewrite Hmem. simpl length.
  rewrite hg_listen_loop_S.
  run_with load_context_run. rewrite Hlist.
  cbn [length Nat.ltb Nat.leb negb HG_MAX_PROCESSING_LIST_SIZE].
  unfold hg_listen_round at 1.
  erewrite bind_log; [|by eapply hg_create_run_cons].
  rewrite log_nil. change (is_null (S (brk m))) with false. cbv iota.
  erewrite bind_log; [|apply malloc_run_cons; reflexivity].
  rewrite log_nil. fields. cbn [negb]. rewrite bind_ret.
  run_with load_class_run.
  run_with load_handle_run.
  cbn [created_handle h_in_buf_size].
  erewrite bind_log; [|apply na_post_ok; fields; exact Hna].
  fields.
  erewrite (bind_log (modify_handle _ _));
    [|apply modify_handle_run; run_lookup].
  rewrite log_nil. fields. cbn [na_ok negb].
  rewrite hg_listen_loop_S.
  erewrite (bind_log (load_context _));
    [|apply load_context_run; fields; exact Hctx].
  rewrite log_nil. fields. rewrite Hlist.
  cbn [length Nat.ltb Nat.leb negb HG_MAX_PROCESSING_LIST_SIZE].
  unfold hg_listen_round at 1.
  erewrite bind_log;
    [|eapply hg_create_run; fields; [exact Hc | reflexivity]].
  rewrite log_nil. fields.
  change (is_null (S (S (S (brk m))))) with false. cbv iota.
  run_with malloc_run. cbn [negb].
  erewrite bind_log; [|run_with modify_context_run; reflexivity].
  rewrite log_nil. fields.
  run_with load_class_run.
  erewrite (bind_log (load_handle _));
    [|apply load_handle_run; fields; apply lookup_insert_eq].
  rewrite log_nil. fields.
  cbn [created_handle h_in_buf_size].
  erewrite bind_log; [|apply na_post_ok; fields; exact Hna].
  fields.
  erewrite (bind_log (modify_handle _ _));
    [|apply modify_handle_run; fields; apply lookup_insert_eq].
  rewrite log_nil. fields. cbn [na_ok negb].
  erewrite hg_listen_loop_full;
    [|fields; apply lookup_insert_eq|fields; rewrite Hlist; simpl; lia].
  rewrite Hlist. cbn [app log].
  eexists. split; [reflexivity|]. split; [|split].
  - unfold processing_at. fields. by rewrite lookup_insert_eq.
  - fields. rewrite insert_insert_eq.
    rewrite lookup_insert_ne by (subst p1; lia).
    rewrite insert_insert_eq. by rewrite lookup_insert_eq.
  - intros info Harg Hret Hsize.
    eapply arrival_off_list_dropped.
    + exact Hret.
    + rewrite Harg. fields. rewrite insert_insert_eq.
      rewrite lookup_insert_ne by (subst p1; lia).
      rewrite insert_insert_eq. apply lookup_insert_eq.
    + exact Hsize.
    + fields. apply lookup_insert_eq.
    + fields. rewrite Harg. subst p1.
      rewrite list_elem_of_singleton. lia.
Qed.

End Orphan.

Lemma listen_append_failure_orphans_receive_witness :
  let m := set_mem_oracle [true; true; true; false]
             (after (setup (bulk := bulk_ok) true) (mem_empty 0)) in
  exists m',
    hg_listen 1%nat 2%nat m =
      Some (HG_NOMEM_ERROR, m',
            [EvNa (NA_Msg_recv_unexpected CB_recv_input 3%nat 8) NA_SUCCESS;
             EvNa (NA_Msg_recv_unexpected CB_recv_input 5%nat 8) NA_SUCCESS])
    /\ processing_at 2%nat m' = Some [5%nat]
    /\ exists m'',
         hg_recv_input_cb (codec := plain_codec) (user := user_code)
           (nc_info (request_arrival 3%nat 8%nat 1%Z cookie_request)) m'
           = Some (NA_SUCCESS, m'', []) /\
         contexts m'' = contexts m'.
Proof.
  intros m.
  pose (c := {| na_class := na_demo 3 true; na_context := 5%nat;
                bulk_class := 1000%nat; bulk_class_external := false;
                func_map :=
                  Some (<[2090214596%Z :=
                            {| rpc_cb := RESPOND_CB; rpc_data := NULL;
                               rpc_free_callback := NULL |}]> ∅);
                request_tag := 0%Z; request_max_tag := 3%Z |}).
  pose (ctx := {| ctx_hg_class := 1%nat; bulk_context := 1001%nat;
                  completion_queue := []; processing_list := [] |}).
  assert (Hc : classes m !! 1%nat = Some c) by (vm_compute; reflexivity).
  assert (Hx : contexts m !! 2%nat = Some ctx) by (vm_compute; reflexivity).
  destruct (listen_append_failure_orphans_receive (codec := plain_codec)
              (user := user_code) m 1%nat 2%nat c ctx
              Hc Hx eq_refl eq_refl eq_refl)
    as (m' & Hrun & Hlist & _ & Hdrop).
  exists m'. split; [exact Hrun|]. split; [exact Hlist|].
  apply Hdrop; reflexivity.
Defined.

(** ** A completion that cannot be queued *)

Section LostCompletion.
Context {codec : HeaderCodec}.

(** X29.  [hg_complete] allocates the queue entry, and when that fails
    the handle is not queued.  [HG_Respond_buf] on the own address then
    returns [HG_NOMEM_ERROR]; the callback for the end of the send of a
    response discards the failure and tells the network layer
    [NA_SUCCESS], the handle staying off the completion queue. *)
Theorem completion_lost_without_memory (m : Mem) (info : na_cb_info)
    (h : hg_handle) (ctx : hg_context) (c : hg_class) (cb : fnptr)
    (arg : ptr) (buf sent : buffer) (hdr : hg_header_response)
    (rest : list bool) :
  let p := nci_arg info in
  is_null p = false ->
  nci_ret info = NA_SUCCESS ->
  handles m !! p = Some h ->
  contexts m !! h_context h = Some ctx ->
  mem_oracle m = false :: rest ->
  (hg_send_output_cb info m = Some (NA_SUCCESS, set_mem_oracle rest m, [])) /\
  (h_out_buf h = Some buf ->
   hg_proc_header_response buf (h_out_buf_size h)
     (set_resp_cookie (h_cookie h) hg_proc_header_response_init) HG_ENCODE
     = (HG_SUCCESS, sent, hdr) ->
   classes m !! h_hg_class h = Some c ->
   na_addr_is_self (na_class c) (h_addr h) = true ->
   exists m',
     HG_Respond_buf p cb arg m = Some (HG_NOMEM_ERROR, m', []) /\
     contexts m' = contexts m).
Proof.
  intros p Hp Hret Hh Hctx Hmem.
  assert (Hcomplete : forall (mm : Mem) hh,
            handles mm !! p = Some hh ->
            h_context hh = h_context h ->
            contexts mm = contexts m ->
            mem_oracle mm = false :: rest ->
            hg_complete p mm
              = Some (HG_NOMEM_ERROR, set_mem_oracle rest mm, [])).
  { intros mm hh Hhh Hcx Hcm Hmm. unfold hg_complete.
    run_with load_handle_run. rewrite Hcx.
    erewrite bind_log; [|apply load_context_run; rewrite Hcm; exact Hctx].
    rewrite log_nil.
    run_with malloc_run_cons. reflexivity. }
  split.
  - unfold hg_send_output_cb. fold p. rewrite Hret. cbn [na_ok negb].
    erewrite bind_log; [|by eapply (Hcomplete m h)]. reflexivity.
  - intros Hbuf Henc Hc Hself.
    unfold HG_Respond_buf. rewrite Hp.
    run_with modify_handle_run.
    run_with load_handle_run. rewrite Hbuf. simpl deref. rewrite bind_ret.
    rewrite Henc.
    run_with modify_handle_run. cbn [hg_ok negb].
    run_with load_class_run. rewrite Hself.
    erewrite (Hcomplete _ (set_out_buf (Some sent) (set_callback cb arg h)));
      [|fields; apply lookup_insert_eq|reflexivity|reflexivity
       |fields; exact Hmem].
    eexists. split; [reflexivity|]. reflexivity.
Qed.

End LostCompletion.

Lemma completion_lost_without_memory_witness :
  let m := set_mem_oracle [false]
             (after (create_echo (bulk := bulk_ok) SELF) (mem_empty 0)) in
  hg_send_output_cb (nc_info (send_done CB_send_output 3%nat)) m
    = Some (NA_SUCCESS, set_mem_oracle [] m, []).
Proof.
  intros m.
  pose (ctx := {| ctx_hg_class := 1%nat; bulk_context := 1001%nat;
                  completion_queue := []; processing_list := [] |}).
  pose (c := {| na_class := na_demo 3 false; na_context := 5%nat;
                bulk_class := 1000%nat; bulk_class_external := false;
                func_map := Some ∅; request_tag := 0%Z;
                request_max_tag := 3%Z |}).
  refine (proj1 (completion_lost_without_memory (codec := plain_codec)
                   m (nc_info (send_done CB_send_output 3%nat))
                   (created_handle 1%nat 2%nat 8 SELF 2090214596%Z 2%Z)
                   ctx c NULL NULL [] [] {| resp_cookie := 0%Z |} []
                   eq_refl eq_refl _ _ eq_refl)).
  - vm_compute. reflexivity.
  - vm_compute. reflexivity.
Defined.
